(** * local-script-management: the supervisor engine of the local process server

    A shallow embedding of the Express server (the task store, the process
    registry, the start handler with its startup window, the guardian loop)
    and of the dashboard's start flow, with the properties the
    specification states about them.

    Conventions of the embedding.
    - JSON values are the type [json]; JavaScript numbers are idealised as
      integers ([Z]), which covers every counter and time stamp the server
      computes with (non-integral numbers are not modelled).
    - A JavaScript object is an association list in insertion order; a
      [Map] keyed by strings is an association list as well, a key being
      overwritten in place and a new key appended, as [Map.prototype.set]
      does.
    - [tasks.json] is an [option json]: [None] is a missing or unparsable
      file.  Writes are assumed to reach the disk.
    - Everything the JavaScript runtime or the operating system decides
      (the clock, random ids, what a child process prints and when it
      exits) is an explicit input. *)

From Stdlib Require Import ZArith Lia Bool Ascii String List.
From stdpp Require Import base tactics option list strings pretty gmap.

Local Open Scope Z_scope.
Local Open Scope string_scope.
Local Open Scope list_scope.
Set Warnings "-register-all".

(** ** JSON values and JavaScript coercions *)

Module Json.

Inductive json : Type :=
| JNull
| JBool (b : bool)
| JNum (n : Z)
| JStr (s : string)
| JArr (items : list json)
| JObj (fields : list (string * json)).

(** [!!v] *)
Definition truthy (v : json) : bool :=
  match v with
  | JNull => false
  | JBool b => b
  | JNum n => negb (Z.eqb n 0)
  | JStr s => negb (String.eqb s "")
  | JArr _ | JObj _ => true
  end.

(** [!!x] for a property that may be absent ([undefined] is falsy). *)
Definition truthy_opt (o : option json) : bool :=
  match o with Some v => truthy v | None => false end.

(** [String(v)]: an array joins its elements with commas, [null] elements
    printing as the empty string. *)
Fixpoint js_String (v : json) : string :=
  match v with
  | JNull => "null"
  | JBool b => if b then "true" else "false"
  | JNum n => pretty n
  | JStr s => s
  | JArr l =>
      (fix join (l : list json) : string :=
         match l with
         | [] => ""
         | x :: rest =>
             let sx := match x with JNull => "" | _ => js_String x end in
             match rest with
             | [] => sx
             | _ :: _ => sx +:+ "," +:+ join rest
             end
         end) l
  | JObj _ => "[object Object]"
  end.

(** White space removed by [String.prototype.trim]; strings are byte
    strings here, so only the ASCII white space and line terminators are
    recognised. *)
Definition is_ws (a : ascii) : bool :=
  let n := nat_of_ascii a in
  (Nat.eqb n 32 || Nat.eqb n 9 || Nat.eqb n 10 || Nat.eqb n 11
   || Nat.eqb n 12 || Nat.eqb n 13)%bool.

Fixpoint trimStart_l (l : list ascii) : list ascii :=
  match l with
  | a :: l' => if is_ws a then trimStart_l l' else l
  | [] => []
  end.

Definition trimEnd_l (l : list ascii) : list ascii :=
  rev (trimStart_l (rev l)).

Definition trim_l (l : list ascii) : list ascii := trimEnd_l (trimStart_l l).

(** [s.trim()] *)
Definition trim (s : string) : string :=
  string_of_list_ascii (trim_l (list_ascii_of_string s)).

(** *** Objects *)

(** [o[k]] on an association list. *)
Fixpoint obj_get (k : string) (o : list (string * json)) : option json :=
  match o with
  | [] => None
  | (k', v) :: o' => if String.eqb k' k then Some v else obj_get k o'
  end.

(** [o[k] = v]: an existing key keeps its place, a new key goes last.  The
    same function models [Map.prototype.set]. *)
Fixpoint obj_set {A : Type} (k : string) (v : A) (o : list (string * A))
  : list (string * A) :=
  match o with
  | [] => [(k, v)]
  | (k', v') :: o' =>
      if String.eqb k' k then (k, v) :: o' else (k', v') :: obj_set k v o'
  end.

(** [Map.prototype.get] *)
Fixpoint map_get {A : Type} (k : string) (m : list (string * A)) : option A :=
  match m with
  | [] => None
  | (k', v) :: m' => if String.eqb k' k then Some v else map_get k m'
  end.

(** [{ ...a, ...b }] *)
Definition spread (a b : list (string * json)) : list (string * json) :=
  fold_left (fun acc kv => obj_set (fst kv) (snd kv) acc) b a.

(** The rest of an object once the property [k] has been destructured away. *)
Definition obj_without (k : string) (o : list (string * json))
  : list (string * json) :=
  List.filter (fun kv => negb (String.eqb (fst kv) k)) o.

(** The own enumerable properties a spread copies: the fields of an object,
    the indices of an array, nothing for the other values a request body or
    a stored item can be. *)
Definition fields_of (v : json) : list (string * json) :=
  match v with
  | JObj o => o
  | JArr l => imap (fun i x => (pretty (Z.of_nat i), x)) l
  | _ => []
  end.

(** [v.k] for the property names the server reads ([id], [updated_date],
    the guardian's fields): present on objects only. *)
Definition prop (k : string) (v : json) : option json :=
  match v with
  | JObj o => obj_get k o
  | _ => None
  end.

(** [v && typeof v === 'object'] *)
Definition is_object (v : json) : bool :=
  match v with
  | JObj _ | JArr _ => true
  | _ => false
  end.

(** [a === s] against a string. *)
Definition strict_eq_str (a : option json) (s : string) : bool :=
  match a with
  | Some (JStr t) => String.eqb t s
  | _ => false
  end.

(** [a === b] for two values, one of which may be [undefined]: primitives
    compare by value; two objects or arrays that were parsed separately are
    never the same object. *)
Definition strict_eq (a b : option json) : bool :=
  match a, b with
  | None, None => true
  | Some JNull, Some JNull => true
  | Some (JBool x), Some (JBool y) => Bool.eqb x y
  | Some (JNum x), Some (JNum y) => Z.eqb x y
  | Some (JStr x), Some (JStr y) => String.eqb x y
  | _, _ => false
  end.

(** The property names of a stored item. *)
Definition keys (v : json) : list string :=
  match v with
  | JObj o => map fst o
  | _ => []
  end.

(** A stored item carries no runtime field. *)
Definition runtime_pure (v : json) : Prop :=
  ("status" ∉ keys v) /\ ("runtime_pid" ∉ keys v).

End Json.
Export Json.

(** ** A reference reading of ISO time stamps

    [Date.parse] belongs to the JavaScript runtime and is a parameter of
    the development.  [iso_parse] is the instance used for the concrete
    runs below: it reads the 24-character form [toISOString] produces
    (YYYY-MM-DDTHH:mm:ss.sssZ) as milliseconds since the epoch and rejects
    everything else. *)

Definition digit_of (a : ascii) : option Z :=
  let n := Z.of_nat (nat_of_ascii a) in
  if ((48 <=? n) && (n <=? 57))%Z then Some (n - 48)%Z else None.

Fixpoint digits_go (acc : Z) (l : list ascii) : option Z :=
  match l with
  | [] => Some acc
  | a :: l' =>
      match digit_of a with
      | Some d => digits_go (10 * acc + d)%Z l'
      | None => None
      end
  end.

Definition number_at (pos len : nat) (l : list ascii) : option Z :=
  let part := take len (drop pos l) in
  if Nat.eqb (length part) len then digits_go 0 part else None.

Definition char_at (pos : nat) (c : ascii) (l : list ascii) : bool :=
  match l !! pos with
  | Some a => Ascii.eqb a c
  | None => false
  end.

(** Days between 1970-01-01 and the civil date [y]-[m]-[d]. *)
Definition days_from_civil (y m d : Z) : Z :=
  let y' := if (m <=? 2)%Z then y - 1 else y in
  let era := y' / 400 in
  let yoe := y' - era * 400 in
  let mp := (m + 9) mod 12 in
  let doy := (153 * mp + 2) / 5 + d - 1 in
  let doe := yoe * 365 + yoe / 4 - yoe / 100 + doy in
  era * 146097 + doe - 719468.

Definition iso_parse (s : string) : option Z :=
  let l := list_ascii_of_string s in
  if Nat.eqb (length l) 24
     && char_at 4 "-" l && char_at 7 "-" l && char_at 10 "T" l
     && char_at 13 ":" l && char_at 16 ":" l && char_at 19 "." l
     && char_at 23 "Z" l
  then
    y ← number_at 0 4 l; mo ← number_at 5 2 l; d ← number_at 8 2 l;
    h ← number_at 11 2 l; mi ← number_at 14 2 l; sec ← number_at 17 2 l;
    ms ← number_at 20 3 l;
    Some ((((days_from_civil y mo d * 24 + h) * 60 + mi) * 60 + sec) * 1000 + ms)
  else None.


(** ** A reference lower-casing

    [String.prototype.toLowerCase] belongs to the JavaScript runtime and is
    a parameter of the development.  [ascii_lower] is the instance used for
    the concrete runs below: it changes the letters A to Z and nothing
    else. *)

Definition ascii_lower_char (a : ascii) : ascii :=
  let n := nat_of_ascii a in
  if ((65 <=? n) && (n <=? 90))%nat then ascii_of_nat (n + 32) else a.

Definition ascii_lower (s : string) : string :=
  string_of_list_ascii (map ascii_lower_char (list_ascii_of_string s)).
(** ** The task store *)

Section Server.

(** [Date.parse]: [None] stands for [NaN]. *)
Variable Date_parse : string -> option Z.

(** [String(p.id || '').trim()] *)
Definition id_key (p : json) : string :=
  trim (match prop "id" p with
        | Some v => if truthy v then js_String v else ""
        | None => ""
        end).

(** [Date.parse(p.updated_date || '') || 0] *)
Definition updated_time (p : json) : Z :=
  let arg := match prop "updated_date" p with
             | Some v => if truthy v then js_String v else ""
             | None => ""
             end in
  match Date_parse arg with
  | Some t => t
  | None => 0
  end.

(** One iteration of the loop of [dedupeProjects] over the [Map]. *)
Definition dedupe_step (m : list (string * json)) (p : json)
  : list (string * json) :=
  if negb (is_object p) then m
  else
    let id := id_key p in
    if String.eqb id "" then m
    else
      match map_get id m with
      | None => obj_set id p m
      | Some prev =>
          if (updated_time p >? updated_time prev)%Z then obj_set id p m else m
      end.

Definition dedupeProjects (items : list json) : list json :=
  map snd (fold_left dedupe_step items []).

(** The object [writeProjectsFile] keeps of an item:
    [const { status, runtime_pid, ...rest } = p]. *)
Definition sanitize (p : json) : json :=
  if is_object p
  then JObj (obj_without "runtime_pid" (obj_without "status" (fields_of p)))
  else p.

(** The array [writeProjectsFile] serializes. *)
Definition written (items : list json) : list json := map sanitize items.

(** The file after [writeProjectsFile(items)]. *)
Definition writeProjectsFile (items : list json) : option json :=
  Some (JArr (written items)).

Definition readProjectsFile (f : option json) : list json :=
  match f with
  | Some (JArr items) => dedupeProjects items
  | _ => []
  end.

(** [Array.prototype.findIndex]; [None] is the -1 of JavaScript. *)
Fixpoint findIndex {A : Type} (P : A -> bool) (l : list A) : option nat :=
  match l with
  | [] => None
  | x :: l' => if P x then Some 0%nat else S <$> findIndex P l'
  end.

(** The outcome of a store operation: the file afterwards and the arrays
    that were serialized into it, oldest first. *)
Record StoreResult : Type := mkStoreResult {
  sr_file : option json;
  sr_writes : list (list json)
}.

Definition no_write (f : option json) : StoreResult :=
  mkStoreResult f [].

Definition do_write (items : list json) : StoreResult :=
  mkStoreResult (writeProjectsFile items) [written items].

(** [const updated = { ...item, ...patch };
     if (!opts.skipUpdatedDate) updated.updated_date = now;] *)
Definition apply_patch (patch : list (string * json)) (skip : bool)
    (now : string) (item : list (string * json)) : list (string * json) :=
  let updated := spread item patch in
  if skip then updated else obj_set "updated_date" (JStr now) updated.

(** [patchProject(id, patch, opts)]; [skip] is [opts.skipUpdatedDate] and
    [now] is [new Date().toISOString()]. *)
Definition patchProject (id : string) (patch : list (string * json))
    (skip : bool) (now : string) (f : option json) : StoreResult :=
  let items := readProjectsFile f in
  match findIndex (fun p => strict_eq_str (prop "id" p) id) items with
  | None => no_write f
  | Some idx =>
      let updated :=
        apply_patch patch skip now (fields_of (default JNull (items !! idx))) in
      do_write (<[idx := JObj updated]> items)
  end.

(** The stored task the guardian (and every reader of the store) sees under
    the id [id]. *)
Definition stored_task (id : string) (f : option json) : option json :=
  List.find (fun p => String.eqb (id_key p) id) (readProjectsFile f).

(** *** The store's HTTP handlers *)

Record Response : Type := mkResp {
  r_status : Z;
  r_body : json
}.

Definition ok_true : json := JObj [("ok", JBool true)].

(** The literal object of [POST /api/projects] before [...data]; a default
    that is [undefined] in the source is [None], and [JSON.stringify] (both
    in the response and in the file) leaves such a property out. *)
Definition project_defaults (id now : string) : list (string * option json) :=
  [ ("id", Some (JStr id)); ("name", Some (JStr ""));
    ("description", Some (JStr "")); ("group", Some (JStr ""));
    ("category", Some (JStr "other")); ("working_directory", Some (JStr ""));
    ("start_command", Some (JStr "")); ("stop_command", Some (JStr ""));
    ("port", None); ("environment_variables", Some (JObj []));
    ("auto_restart", Some (JBool false)); ("max_restarts", Some (JNum 5));
    ("restart_interval", Some (JNum 15)); ("scheduled_start", Some (JStr ""));
    ("scheduled_stop", Some (JStr "")); ("restart_count", Some (JNum 0));
    ("manual_stopped", Some (JBool false));
    ("was_running_before_shutdown", Some (JBool false));
    ("notes", Some (JStr "")); ("order_index", Some (JNum 0));
    ("created_date", Some (JStr now)); ("updated_date", Some (JStr now));
    ("last_started", None) ].

(** The properties [JSON.stringify] keeps. *)
Definition defined_fields (o : list (string * option json))
  : list (string * json) :=
  omap (fun kv => match snd kv with
                  | Some v => Some (fst kv, v)
                  | None => None
                  end) o.

(** The [project] object of [POST /api/projects]; [fresh] is what [genId()]
    returns. *)
Definition new_project (data : json) (now fresh : string) : json :=
  let id := match prop "id" data with
            | Some (JStr s) => if String.eqb s "" then fresh else s
            | _ => fresh
            end in
  JObj (defined_fields
          (fold_left (fun acc kv => obj_set (fst kv) (Some (snd kv)) acc)
                     (fields_of data) (project_defaults id now))).

(** [POST /api/projects] *)
Definition api_create (data : json) (now fresh : string) (f : option json)
  : StoreResult * Response :=
  let project := new_project data now fresh in
  let items := readProjectsFile f in
  match findIndex (fun p => strict_eq (prop "id" p) (prop "id" project)) items with
  | Some idx => (no_write f, mkResp 200 (default JNull (items !! idx)))
  | None => (do_write (items ++ [project]), mkResp 200 project)
  end.

(** [PUT /api/projects/:id] *)
Definition api_update (id : string) (data : json) (now : string)
    (f : option json) : StoreResult * Response :=
  let items := readProjectsFile f in
  match findIndex (fun p => strict_eq_str (prop "id" p) id) items with
  | None => (no_write f, mkResp 404 (JObj [("error", JStr "not found")]))
  | Some idx =>
      let updated :=
        JObj (obj_set "updated_date" (JStr now)
                (spread (fields_of (default JNull (items !! idx)))
                        (fields_of data))) in
      (do_write (<[idx := updated]> items), mkResp 200 updated)
  end.

(** The second half of [DELETE /api/projects/:id]: the stored configuration. *)
Definition delete_stored (id : string) (f : option json) : StoreResult :=
  let items := readProjectsFile f in
  match findIndex (fun p => strict_eq_str (prop "id" p) id) items with
  | None => no_write f
  | Some _ =>
      do_write (List.filter (fun p => negb (strict_eq_str (prop "id" p) id)) items)
  end.

(** [POST /api/projects/dedupe] *)
Definition api_dedupe (f : option json) : StoreResult * Response :=
  let items := readProjectsFile f in
  let before := length items in
  let afterItems := dedupeProjects items in
  let after := length afterItems in
  (do_write afterItems,
   mkResp 200 (JObj [("ok", JBool true);
                     ("removed", JNum (Z.of_nat before - Z.of_nat after));
                     ("total", JNum (Z.of_nat after))])).

(** [GET /api/projects] *)
Definition api_list (f : option json) : Response :=
  mkResp 200 (JArr (readProjectsFile f)).

(** The operations that write the store, as the control plane and the
    supervisor issue them. *)
Inductive StoreOp : Type :=
| OpCreate (data : json) (now fresh : string)
| OpUpdate (id : string) (data : json) (now : string)
| OpDelete (id : string)
| OpDedupe
| OpPatch (id : string) (patch : list (string * json)) (skip : bool) (now : string).

Definition store_step (op : StoreOp) (f : option json) : StoreResult :=
  match op with
  | OpCreate data now fresh => fst (api_create data now fresh f)
  | OpUpdate id data now => fst (api_update id data now f)
  | OpDelete id => delete_stored id f
  | OpDedupe => fst (api_dedupe f)
  | OpPatch id patch skip now => patchProject id patch skip now f
  end.

(** A sequence of operations: the final file and every array serialized on
    the way. *)
Fixpoint store_run (ops : list StoreOp) (f : option json) : StoreResult :=
  match ops with
  | [] => no_write f
  | op :: rest =>
      let r1 := store_step op f in
      let r2 := store_run rest (sr_file r1) in
      mkStoreResult (sr_file r2) (sr_writes r1 ++ sr_writes r2)
  end.

(** ** Children, log buffers and the process registry *)

(** The fields of a [ChildProcess] the server reads.  [pid] is [None] when
    the operating system could not start the process; [exitCode] is [None]
    for [null]. *)
Record Child : Type := mkChild {
  pid : option Z;
  exitCode : option Z;
  killed : bool
}.

(** [isRunning(child)] for a child that exists. *)
Definition isRunning (c : Child) : bool :=
  match exitCode c with
  | None => negb (killed c)
  | Some _ => false
  end.

(** [ringBuffer(limit)] *)
Record ringBuffer : Type := mkRing {
  rb_limit : nat;
  rb_arr : list string
}.

Definition ringBuffer_new (limit : nat) : ringBuffer := mkRing limit [].

Definition rb_push (line : string) (b : ringBuffer) : ringBuffer :=
  let arr := rb_arr b ++ [line] in
  mkRing (rb_limit b)
         (if (rb_limit b <? length arr)%nat then tail arr else arr).

Definition rb_get (b : ringBuffer) : list string := rb_arr b.

Definition rb_clear (b : ringBuffer) : ringBuffer := mkRing (rb_limit b) [].

(** Which spawn site created a child and attached its listeners. *)
Inductive Origin : Type := ByStart | ByGuardian.

(** One spawned child together with what the closures of its spawn site
    own: the two buffers, the id they captured and, for the start handler,
    the [responded] flag, the armed startup timer and the response sent.
    Children live in a heap and are referred to by their index, so the
    registry entry and the listeners share the same buffers. *)
Record Proc : Type := mkProc {
  p_child : Child;
  p_stdoutBuf : ringBuffer;
  p_stderrBuf : ringBuffer;
  p_origin : Origin;
  p_id : string;
  p_timeout : Z;
  p_responded : bool;
  p_response : option Response
}.

Inductive Status : Type := running | stopped.

(** A registry entry.  Of the fields the source stores, [cwd] and [env] are
    read by no handler and are left out. *)
Record Entry : Type := mkEntry {
  e_proc : nat;
  e_status : Status;
  e_command : string;
  e_startedAt : string;
  e_exitCode : option Z;
  e_signal : option string
}.

(** What the server does to the outside, in the order it does it; the
    guardian's attempts are logged with the tick's [Date.now()].  [ASpawn]
    is the spawn of a task's child, which goes to the heap; [ASpawnStop] is
    the spawn of a stop command, whose child no registry entry refers to. *)
Inductive Action : Type :=
| ATreeKill (target : option Z) (signal : string)
| ASpawn (command : string) (ref : nat)
| ASpawnStop (command : string)
| ARegistryDelete (id : string)
| AWrite (items : list json)
| AAttempt (id : string) (now : Z) (ok : bool).

Record World : Type := mkWorld {
  w_file : option json;
  w_heap : list Proc;
  w_processes : gmap string Entry;
  w_guardianState : gmap string Z;
  w_trace : list Action
}.

Definition with_heap (h : list Proc) (w : World) : World :=
  mkWorld (w_file w) h (w_processes w) (w_guardianState w) (w_trace w).

Definition with_processes (m : gmap string Entry) (w : World) : World :=
  mkWorld (w_file w) (w_heap w) m (w_guardianState w) (w_trace w).

Definition with_guardianState (g : gmap string Z) (w : World) : World :=
  mkWorld (w_file w) (w_heap w) (w_processes w) g (w_trace w).

Definition log (a : Action) (w : World) : World :=
  mkWorld (w_file w) (w_heap w) (w_processes w) (w_guardianState w)
          (w_trace w ++ [a]).

(** The effect of a store operation on the world. *)
Definition store_apply (r : StoreResult) (w : World) : World :=
  mkWorld (sr_file r) (w_heap w) (w_processes w) (w_guardianState w)
          (w_trace w ++ map AWrite (sr_writes r)).

(** [isTaskRunning(id)] *)
Definition isTaskRunning (id : string) (w : World) : bool :=
  match w_processes w !! id with
  | Some e =>
      match w_heap w !! e_proc e with
      | Some p => isRunning (p_child p)
      | None => false
      end
  | None => false
  end.

(** *** What the listeners of a child do *)

Definition set_exitCode (c : option Z) (p : Proc) : Proc :=
  mkProc (mkChild (pid (p_child p)) c (killed (p_child p)))
         (p_stdoutBuf p) (p_stderrBuf p) (p_origin p) (p_id p) (p_timeout p)
         (p_responded p) (p_response p).

Definition push_stdout (data : string) (p : Proc) : Proc :=
  mkProc (p_child p) (rb_push data (p_stdoutBuf p)) (p_stderrBuf p)
         (p_origin p) (p_id p) (p_timeout p) (p_responded p) (p_response p).

Definition push_stderr (data : string) (p : Proc) : Proc :=
  mkProc (p_child p) (p_stdoutBuf p) (rb_push data (p_stderrBuf p))
         (p_origin p) (p_id p) (p_timeout p) (p_responded p) (p_response p).

Definition respond (r : Response) (p : Proc) : Proc :=
  mkProc (p_child p) (p_stdoutBuf p) (p_stderrBuf p) (p_origin p) (p_id p)
         (p_timeout p) true (Some r).

Definition json_num (o : option Z) : json :=
  match o with Some n => JNum n | None => JNull end.

Definition json_str (o : option string) : json :=
  match o with Some s => JStr s | None => JNull end.

Definition logs_json (out err : list string) : json :=
  JObj [("stdout", JArr (map JStr out)); ("stderr", JArr (map JStr err))].

(** The body of a success: [{ ok: true, pid: child.pid }]; a [pid] that is
    [undefined] is not serialized. *)
Definition ok_response (c : Child) : Response :=
  mkResp 200 (JObj (("ok", JBool true)
                      :: match pid c with
                         | Some n => [("pid", JNum n)]
                         | None => []
                         end)).

Definition fail_response (message : string) (code : option Z)
    (signal : option string) (out err : list string) : Response :=
  mkResp 500 (JObj [("ok", JBool false); ("error", JStr message);
                    ("code", json_num code); ("signal", json_str signal);
                    ("logs", logs_json out err)]).

(** [respondOk()] *)
Definition respondOk (p : Proc) : Proc :=
  if p_responded p then p else respond (ok_response (p_child p)) p.

(** [respondFail(message, code, signal)]: the buffers are read when the
    response is built. *)
Definition respondFail (message : string) (code : option Z)
    (signal : option string) (p : Proc) : Proc :=
  if p_responded p then p
  else respond (fail_response message code signal
                  (rb_get (p_stdoutBuf p)) (rb_get (p_stderrBuf p))) p.

(** [entry.status = 'stopped'; entry.exitCode = code; entry.signal = signal]
    on [processes.get(id)], when there is one. *)
Definition mark_stopped (id : string) (code : option Z)
    (signal : option string) (m : gmap string Entry) : gmap string Entry :=
  alter (fun e => mkEntry (e_proc e) stopped (e_command e) (e_startedAt e)
                          code signal) id m.

(** [`process exited with code ${code}${signal ? `, signal ${signal}` : ''}`] *)
Definition exit_message (code : option Z) (signal : option string) : string :=
  "process exited with code "
  +:+ match code with Some c => pretty c | None => "null" end
  +:+ match signal with
      | Some s => if String.eqb s "" then "" else ", signal " +:+ s
      | None => ""
      end.

(** How a child ended: with an exit code, or by a signal. *)
Inductive ExitStatus : Type :=
| Exited (code : Z)
| Signaled (signal : string).

(** The [code] and [signal] the [exit] listeners receive. *)
Definition exit_code (st : ExitStatus) : option Z :=
  match st with Exited c => Some c | Signaled _ => None end.

Definition exit_signal (st : ExitStatus) : option string :=
  match st with Exited _ => None | Signaled s => Some s end.

(** What the runtime delivers to the listeners of the child [r]: output,
    a failed spawn (the handle's status is the negative [errno]), the exit
    (the runtime records the code on the child before it calls the
    listeners; a child ended by a signal keeps [exitCode] null), and the
    startup timer of the start handler. *)
Inductive Event : Type :=
| EvStdout (r : nat) (data : string)
| EvStderr (r : nat) (data : string)
| EvError (r : nat) (errno : Z) (err : string)
| EvExit (r : nat) (st : ExitStatus)
| EvTimer (r : nat).

(** The child an event is about. *)
Definition target (ev : Event) : nat :=
  match ev with
  | EvStdout r _ | EvStderr r _ | EvError r _ _ | EvExit r _ | EvTimer r => r
  end.

(** What the runtime and the listeners do to the child itself, its buffers
    and the answer of its start request. *)
Definition on_event (ev : Event) (p : Proc) : Proc :=
  match ev with
  | EvStdout _ data => push_stdout data p
  | EvStderr _ data => push_stderr data p
  | EvError _ errno err =>
      let p1 := set_exitCode (Some errno) p in
      match p_origin p with
      | ByStart => respondFail ("spawn error: " +:+ err) None None p1
      | ByGuardian => p1
      end
  | EvExit _ st =>
      let p1 := match st with
                | Exited c => set_exitCode (Some c) p
                | Signaled _ => p
                end in
      match p_origin p with
      | ByStart =>
          if p_responded p1 then p1
          else respondFail (exit_message (exit_code st) (exit_signal st))
                           (exit_code st) (exit_signal st) p1
      | ByGuardian => p1
      end
  | EvTimer _ =>
      match p_origin p with
      | ByStart =>
          if p_responded p then p
          else if isRunning (p_child p) then respondOk p
               else respondFail "process not running after startup timeout"
                                None None p
      | ByGuardian => p
      end
  end.

(** What the [error] and [exit] listeners do to the registry: they look the
    entry up under the id they captured. *)
Definition on_event_registry (ev : Event) (p : Proc) (m : gmap string Entry)
  : gmap string Entry :=
  match ev with
  | EvError _ _ _ => mark_stopped (p_id p) (Some (-1)%Z) None m
  | EvExit _ st => mark_stopped (p_id p) (exit_code st) (exit_signal st) m
  | _ => m
  end.

(** One event delivered; an event for a child that does not exist is
    ignored. *)
Definition step (ev : Event) (w : World) : World :=
  match w_heap w !! target ev with
  | Some p =>
      with_processes (on_event_registry ev p (w_processes w))
        (with_heap (<[target ev := on_event ev p]> (w_heap w)) w)
  | None => w
  end.

Definition run_events (evs : list Event) (w : World) : World :=
  fold_left (fun w ev => step ev w) evs w.

(** [spawnWithShell(command, ...)] with the two buffers and the listeners
    attached: a new child in the heap.  [ospid] is the pid the operating
    system assigned. *)
Definition spawn (origin : Origin) (id command : string) (timeout : Z)
    (ospid : option Z) (w : World) : nat * World :=
  let r := length (w_heap w) in
  (r, log (ASpawn command r)
        (with_heap
           (w_heap w ++ [mkProc (mkChild ospid None false)
                                (ringBuffer_new 500) (ringBuffer_new 500)
                                origin id timeout false None]) w)).

(** ** The supervisor's HTTP handlers *)

(** The body of [POST /api/projects/start].  [working_directory] and
    [environment_variables] only select the directory and environment of
    the child and are not represented; [id] and [start_command] are strings
    when present. *)
Record StartBody : Type := mkStartBody {
  sb_id : option string;
  sb_start_command : option string;
  sb_startup_timeout_ms : option json
}.

Definition str_truthy (o : option string) : bool :=
  match o with
  | Some s => negb (String.eqb s "")
  | None => false
  end.

(** [typeof startup_timeout_ms === 'number' && startup_timeout_ms > 0
     ? startup_timeout_ms : 2000] *)
Definition startup_timeout (o : option json) : Z :=
  match o with
  | Some (JNum n) => if (0 <? n)%Z then n else 2000
  | _ => 2000
  end.

(** The synchronous part of [POST /api/projects/start]: either an immediate
    response, or the reference of the child whose listeners and timer will
    answer.  [ospid] is the pid of the new child, [now] the clock. *)
Definition api_start (body : StartBody) (ospid : option Z) (now : string)
    (w : World) : World * (Response + nat) :=
  if negb (str_truthy (sb_id body)) || negb (str_truthy (sb_start_command body))
  then (w, inl (mkResp 400
                  (JObj [("error", JStr "id and start_command are required")])))
  else
    let id := default "" (sb_id body) in
    let command := default "" (sb_start_command body) in
    let w1 := match w_processes w !! id with
              | Some existing =>
                  match w_heap w !! e_proc existing with
                  | Some p =>
                      if isRunning (p_child p)
                      then log (ATreeKill (pid (p_child p)) "SIGTERM") w
                      else w
                  | None => w
                  end
              | None => w
              end in
    let '(r, w2) := spawn ByStart id command
                      (startup_timeout (sb_startup_timeout_ms body)) ospid w1 in
    let w3 := with_processes
                (<[id := mkEntry r running command now None None]>
                   (w_processes w2)) w2 in
    let w4 := store_apply
                (patchProject id [("was_running_before_shutdown", JBool true)]
                              false now (w_file w3)) w3 in
    (w4, inr r).

(** The response the start handler has sent for the child [r], if any. *)
Definition response_of (r : nat) (w : World) : option Response :=
  match w_heap w !! r with
  | Some p => p_response p
  | None => None
  end.





(** [GET /api/projects/status/:id] *)
Definition api_status (id : string) (w : World) : Response :=
  let c := match w_processes w !! id with
           | Some e => p_child <$> (w_heap w !! e_proc e)
           | None => None
           end in
  let running := match c with Some c => isRunning c | None => false end in
  let p := if running
           then match c with
                | Some (mkChild (Some n) _ _) => if Z.eqb n 0 then JNull else JNum n
                | _ => JNull
                end
           else JNull in
  mkResp 200 (JObj [("running", JBool running);
                    ("status", JStr (if running then "running" else "stopped"));
                    ("pid", p)]).

(** [GET /api/projects/logs/:id] *)
Definition api_logs (id : string) (w : World) : Response :=
  match w_processes w !! id with
  | None => mkResp 200 (logs_json [] [])
  | Some e =>
      match w_heap w !! e_proc e with
      | Some p => mkResp 200 (logs_json (rb_get (p_stdoutBuf p))
                                        (rb_get (p_stderrBuf p)))
      | None => mkResp 200 (logs_json [] [])
      end
  end.

(** [DELETE /api/projects/:id].  The handler waits for the callback of
    [treeKill] before it goes on; the wait is not interleaved with other
    requests here. *)
Definition api_delete (id : string) (w : World) : World * Response :=
  let w1 := match w_processes w !! id with
            | Some entry =>
                match w_heap w !! e_proc entry with
                | Some p =>
                    if isRunning (p_child p)
                    then log (ATreeKill (pid (p_child p)) "SIGTERM") w
                    else w
                | None => w
                end
            | None => w
            end in
  let w2 := log (ARegistryDelete id)
              (with_processes (delete id (w_processes w1)) w1) in
  let w3 := store_apply (delete_stored id (w_file w2)) w2 in
  (w3, mkResp 200 ok_true).

(** ** The guardian loop *)

(** [Math.max(2, Math.round(timeoutMs / 800))] for [timeoutMs = 2000]:
    [Math.round(2.5)] is 3. *)
Definition guardian_attempts : nat := 3.

(** [waitForRunning(id, attempts, 800)].  The first check runs before the
    function first yields; [sleeps] lists what the runtime delivers during
    each [sleep(800)]. *)
Fixpoint waitForRunning (id : string) (attempts : nat)
    (sleeps : list (list Event)) (w : World) : bool * World :=
  match attempts with
  | O => (isTaskRunning id w, w)
  | S n =>
      if isTaskRunning id w then (true, w)
      else waitForRunning id n (tail sleeps) (run_events (hd [] sleeps) w)
  end.

(** What the environment contributes to one tick: [Date.now()], the time
    stamp [new Date().toISOString()] (the readings of one tick are taken as
    one), and per task id the pid of a spawned child and what happens while
    the guardian waits for it. *)
Record TickEnv : Type := mkTickEnv {
  te_now : Z;
  te_iso : string;
  te_pid : string -> option Z;
  te_sleeps : string -> list (list Event)
}.

(** [guardianAttemptStart(project)].  The stored command is spawned as the
    text [String(start_command)]. *)
Definition guardianAttemptStart (env : TickEnv) (project : json) (w : World)
  : bool * World :=
  let id := id_key project in
  let start_command := prop "start_command" project in
  if String.eqb id "" || negb (truthy_opt start_command)
     || String.eqb (trim (js_String (default JNull start_command))) ""
  then (false, w)
  else if isTaskRunning id w then (true, w)
  else
    let command := js_String (default JNull start_command) in
    let '(r, w1) := spawn ByGuardian id command 0 (te_pid env id) w in
    let w2 := with_processes
                (<[id := mkEntry r running command (te_iso env) None None]>
                   (w_processes w1)) w1 in
    waitForRunning id guardian_attempts (te_sleeps env id) w2.

(** The world in which the guardian waits for the child it has spawned. *)
Definition spawned_world (env : TickEnv) (id command : string) (w : World)
  : World :=
  with_processes
    (<[id := mkEntry (length (w_heap w)) running command (te_iso env) None None]>
       (w_processes w))
    (log (ASpawn command (length (w_heap w)))
       (with_heap
          (w_heap w ++ [mkProc (mkChild (te_pid env id) None false)
                               (ringBuffer_new 500) (ringBuffer_new 500)
                               ByGuardian id 0 false None]) w)).

(** [typeof x === 'number' ? x : d] *)
Definition num_or (d : Z) (o : option json) : Z :=
  match o with
  | Some (JNum n) => n
  | _ => d
  end.

(** The fields of a stored task the guardian decides on. *)
Definition autoRestart (p : json) : bool := truthy_opt (prop "auto_restart" p).
Definition manualStopped (p : json) : bool := truthy_opt (prop "manual_stopped" p).
Definition wasRunning (p : json) : bool :=
  truthy_opt (prop "was_running_before_shutdown" p).
Definition maxRestarts (p : json) : Z := num_or 5 (prop "max_restarts" p).
Definition intervalSec (p : json) : Z := num_or 15 (prop "restart_interval" p).
Definition currentCount (p : json) : Z := num_or 0 (prop "restart_count" p).

(** The configuration the guardian reads from a task, and whether it makes
    the task eligible for guarding. *)
Record GuardConfig : Type := mkGuardConfig {
  gc_auto : bool;
  gc_manual : bool;
  gc_was : bool;
  gc_max : Z;
  gc_interval : Z
}.

Definition guard_config (p : json) : GuardConfig :=
  mkGuardConfig (autoRestart p) (manualStopped p) (wasRunning p)
                (maxRestarts p) (intervalSec p).

Definition eligible (c : GuardConfig) : bool :=
  gc_auto c && negb (gc_manual c) && gc_was c.

(** The time, in milliseconds, the guardian waits after a failed attempt. *)
Definition backoff_ms (c : GuardConfig) : Z := Z.max 1 (gc_interval c) * 1000.

(** What the guardian and the dashboard read of a stored task. *)
Record TaskView : Type := mkTaskView {
  tv_config : GuardConfig;
  tv_count : Z;
  tv_id : option json;
  tv_manual_stopped : option json;
  tv_restart_count : option json;
  tv_updated_date : option json
}.

Definition task_view (p : json) : TaskView :=
  mkTaskView (guard_config p) (currentCount p) (prop "id" p)
             (prop "manual_stopped" p) (prop "restart_count" p)
             (prop "updated_date" p).

(** Every entry of the registry refers to a child that exists. *)
Definition registry_wf (w : World) : Prop :=
  forall id e, w_processes w !! id = Some e ->
               (e_proc e < length (w_heap w))%nat.

(** The patch of a successful restart. *)
Definition success_patch (iso : string) : list (string * json) :=
  [("restart_count", JNum 0); ("manual_stopped", JBool false);
   ("last_started", JStr iso); ("was_running_before_shutdown", JBool true)].

(** The body of the loop of one tick for the stored task [p]. *)
Definition guardian_item (env : TickEnv) (w : World) (p : json) : World :=
  if negb (is_object p) then w
  else
    let id := id_key p in
    if String.eqb id "" then w
    else if negb (autoRestart p) || manualStopped p || negb (wasRunning p)
    then with_guardianState (delete id (w_guardianState w)) w
    else if (0 <? maxRestarts p)%Z && (maxRestarts p <=? currentCount p)%Z
    then w
    else if isTaskRunning id w
    then with_guardianState (delete id (w_guardianState w)) w
    else
      let nextAttemptAt := default 0%Z (w_guardianState w !! id) in
      if (te_now env <? nextAttemptAt)%Z then w
      else
        let '(ok, w1) := guardianAttemptStart env p w in
        let w2 := log (AAttempt id (te_now env) ok) w1 in
        if ok then
          let w3 := with_guardianState (delete id (w_guardianState w2)) w2 in
          store_apply (patchProject id (success_patch (te_iso env)) false
                                    (te_iso env) (w_file w3)) w3
        else
          let newCount := (currentCount p + 1)%Z in
          let w3 := with_guardianState
                      (<[id := (te_now env + Z.max 1 (intervalSec p) * 1000)%Z]>
                         (w_guardianState w2)) w2 in
          store_apply (patchProject id [("restart_count", JNum newCount)] false
                                    (te_iso env) (w_file w3)) w3.

(** One tick of [setupGuardian]: the store is read once, then every task is
    visited in order. *)
Definition guardian_tick (env : TickEnv) (w : World) : World :=
  fold_left (guardian_item env) (readProjectsFile (w_file w)) w.

(** A run in which only the guardian and the children act: ticks, and the
    events of children between them. *)
Inductive GStep : Type :=
| GTick (env : TickEnv)
| GEvent (ev : Event).

Definition gstep (w : World) (s : GStep) : World :=
  match s with
  | GTick env => guardian_tick env w
  | GEvent ev => step ev w
  end.

Definition guardian_run (steps : list GStep) (w : World) : World :=
  fold_left gstep steps w.

(** The guardian's attempts for [id] in a trace, oldest first, each with
    the time of its tick and its outcome. *)
Definition attempts_of (id : string) (tr : list Action) : list (Z * bool) :=
  omap (fun a => match a with
                 | AAttempt id' now ok =>
                     if String.eqb id' id then Some (now, ok) else None
                 | _ => None
                 end) tr.

(** Failed attempts counted along a log of attempts: the length of the
    run of failures that ends the log so far, and the longest run seen. *)
Definition streak_step (s : nat * nat) (a : Z * bool) : nat * nat :=
  if snd a then (0%nat, snd s)
  else (S (fst s), Nat.max (snd s) (S (fst s))).

Definition streaks (l : list (Z * bool)) : nat * nat :=
  fold_left streak_step l (0%nat, 0%nat).

(** The failed attempts since the last success. *)
Definition trailing_failures (l : list (Z * bool)) : nat := fst (streaks l).

(** The longest run of failed attempts with no success in between. *)
Definition longest_failure_streak (l : list (Z * bool)) : nat :=
  snd (streaks l).

(** [w'] differs from [w] in nothing the guardian would notice about the
    task with id [k]: what it reads of the stored task, its next-attempt
    time, the attempts logged for it, and the task is not running in [w']
    unless it was in [w]. *)
Definition kframe (k : string) (w w' : World) : Prop :=
  (registry_wf w -> registry_wf w')
  /\ task_view <$> stored_task k (w_file w')
     = task_view <$> stored_task k (w_file w)
  /\ w_guardianState w' !! k = w_guardianState w !! k
  /\ attempts_of k (w_trace w') = attempts_of k (w_trace w)
  /\ (registry_wf w -> isTaskRunning k w' = true -> isTaskRunning k w = true).

(** The cap of the guardian holds the task back. *)
Definition capped (p : json) : bool :=
  (0 <? maxRestarts p)%Z && (maxRestarts p <=? currentCount p)%Z.

(** ** Stopping a task *)

(** The body of [POST /api/projects/stop], without the directory and the
    environment of the stop command. *)
Record StopBody : Type := mkStopBody {
  st_id : option string;
  st_stop_command : option string
}.

(** How the child running [stop_command] ends: its first [error] or [exit]. *)
Inductive StopOutcome : Type :=
| StopSpawnError (err : string)
| StopExited (code : option Z) (signal : option string).

(** What the environment decides during a stop: whether [treeKill] reports
    an error to its callback, and what the stop command prints and how it
    ends. *)
Record StopEnv : Type := mkStopEnv {
  se_kill_failed : bool;
  se_stdout : list string;
  se_stderr : list string;
  se_outcome : StopOutcome
}.

(** The answer of [spawnStopCommand()] once the stop command has ended:
    that of the first [error] or [exit] of its child, with what the child
    has printed until then. *)
Definition stop_command_response (env : StopEnv) : Response :=
  let out := rb_get (fold_left (fun b l => rb_push l b) (se_stdout env)
                               (ringBuffer_new 200)) in
  let err := rb_get (fold_left (fun b l => rb_push l b) (se_stderr env)
                               (ringBuffer_new 200)) in
  match se_outcome env with
  | StopSpawnError e =>
      mkResp 500 (JObj [("ok", JBool false);
                        ("error", JStr ("stop_command spawn error: " +:+ e));
                        ("logs", logs_json out err)])
  | StopExited code signal =>
      match code with
      | Some 0%Z =>
          mkResp 200 (JObj [("ok", JBool true); ("exitCode", json_num code);
                            ("signal", json_str signal);
                            ("logs", logs_json out err)])
      | _ =>
          mkResp 500
            (JObj [("ok", JBool false);
                   ("error", JStr ("stop_command exited with code "
                                   +:+ match code with
                                       | Some c => pretty c
                                       | None => "null"
                                       end
                                   +:+ match signal with
                                       | Some s =>
                                           if String.eqb s "" then ""
                                           else ", signal " +:+ s
                                       | None => ""
                                       end));
                   ("exitCode", json_num code); ("signal", json_str signal);
                   ("logs", logs_json out err)])
      end
  end.

(** [spawnStopCommand()]: without a stop command the answer is given at
    once; otherwise the command is spawned through the shell and the
    request is answered when its child ends.  That child is known to the
    handler alone (it is not registered, and no other request can reach
    it), so its run is taken in one step, with what it prints and how it
    ends given by the environment. *)
Definition spawnStopCommand (body : StopBody) (env : StopEnv) (w : World)
  : World * Response :=
  if negb (str_truthy (st_stop_command body))
  then (w, mkResp 200 (JObj [("ok", JBool true); ("message", JStr "not running")]))
  else (log (ASpawnStop (default "" (st_stop_command body))) w,
        stop_command_response env).

(** [POST /api/projects/stop] *)
Definition api_stop (body : StopBody) (env : StopEnv) (w : World)
  : World * Response :=
  if negb (str_truthy (st_id body))
  then (w, mkResp 400 (JObj [("error", JStr "id is required")]))
  else
    let id := default "" (st_id body) in
    match w_processes w !! id with
    | Some entry =>
        match w_heap w !! e_proc entry with
        | Some p =>
            if isRunning (p_child p) then
              let w1 := log (ATreeKill (pid (p_child p)) "SIGTERM") w in
              if se_kill_failed env then spawnStopCommand body env w1
              else
                (with_processes
                   (alter (fun e => mkEntry (e_proc e) stopped (e_command e)
                                            (e_startedAt e) (e_exitCode e)
                                            (e_signal e)) id (w_processes w1))
                   w1,
                 mkResp 200 ok_true)
            else spawnStopCommand body env w
        | None => spawnStopCommand body env w
        end
    | None => spawnStopCommand body env w
    end.

(** ** Routing *)

Inductive Method : Type := GET | POST | PUT | DELETE.

(** A segment of a route: a literal, or a parameter such as [:id], which
    matches one non-empty segment. *)
Inductive Seg : Type := Lit (s : string) | Param.

Inductive Pattern : Type := Path (segs : list Seg) | Star.

Inductive Handler : Type :=
| HStart | HStop | HStatus | HLogs | HList | HCreate | HUpdate | HDelete
| HDedupe | HSearch | HByPort | HKill | HRestart | HStatic.

Definition method_eqb (a b : Method) : bool :=
  match a, b with
  | GET, GET | POST, POST | PUT, PUT | DELETE, DELETE => true
  | _, _ => false
  end.

(** The routes in the order the server registers them; the catch-all for
    [GET] exists when a directory of static files was found. *)
Definition routes (static : bool) : list (Method * Pattern * Handler) :=
  [ (POST, Path [Lit "api"; Lit "projects"; Lit "start"], HStart);
    (POST, Path [Lit "api"; Lit "projects"; Lit "stop"], HStop);
    (GET, Path [Lit "api"; Lit "projects"; Lit "status"; Param], HStatus);
    (GET, Path [Lit "api"; Lit "projects"; Lit "logs"; Param], HLogs);
    (GET, Path [Lit "api"; Lit "projects"], HList);
    (POST, Path [Lit "api"; Lit "projects"], HCreate);
    (PUT, Path [Lit "api"; Lit "projects"; Param], HUpdate);
    (DELETE, Path [Lit "api"; Lit "projects"; Param], HDelete);
    (POST, Path [Lit "api"; Lit "projects"; Lit "dedupe"], HDedupe);
    (GET, Path [Lit "api"; Lit "processes"; Lit "search"], HSearch);
    (GET, Path [Lit "api"; Lit "processes"; Lit "by-port"; Param], HByPort);
    (POST, Path [Lit "api"; Lit "processes"; Lit "kill"], HKill);
    (POST, Path [Lit "api"; Lit "projects"; Lit "restart"], HRestart) ]
  ++ (if static then [(GET, Star, HStatic)] else []).

(** The parameters of a path matched against the segments of a route. *)
Fixpoint match_segs (segs : list Seg) (path : list string)
  : option (list string) :=
  match segs, path with
  | [], [] => Some []
  | Lit s :: segs', x :: path' =>
      if String.eqb s x then match_segs segs' path' else None
  | Param :: segs', x :: path' =>
      if String.eqb x "" then None
      else cons x <$> match_segs segs' path'
  | _, _ => None
  end.

Definition match_pattern (pat : Pattern) (path : list string)
  : option (list string) :=
  match pat with
  | Path segs => match_segs segs path
  | Star => Some []
  end.

(** The first route that accepts the request, with its parameters. *)
Fixpoint route_in (rs : list (Method * Pattern * Handler)) (m : Method)
    (path : list string) : option (Handler * list string) :=
  match rs with
  | [] => None
  | (m', pat, h) :: rs' =>
      if method_eqb m' m then
        match match_pattern pat path with
        | Some params => Some (h, params)
        | None => route_in rs' m path
        end
      else route_in rs' m path
  end.

Definition route_of (static : bool) (m : Method) (path : list string)
  : option (Handler * list string) :=
  route_in (routes static) m path.

(** A request served to its end.  The path is given as its segments; a
    slash at its end adds none, as routing is not strict.  The handlers that
    answer at once are run;
    a request no route accepts gets the framework's 404 page (not JSON,
    [JNull] here).  [None] stands for the handlers this function does not
    run: those that answer later (start, stop, restart) and the process
    discovery.  [now] and [fresh] are the clock and [genId()]. *)
Definition serve (static : bool) (m : Method) (path : list string)
    (body : json) (now fresh : string) (w : World)
  : option (World * Response) :=
  match route_of static m path with
  | None => Some (w, mkResp 404 JNull)
  | Some (HStatus, [id]) => Some (w, api_status id w)
  | Some (HLogs, [id]) => Some (w, api_logs id w)
  | Some (HList, _) => Some (w, api_list (w_file w))
  | Some (HCreate, _) =>
      let '(r, resp) := api_create body now fresh (w_file w) in
      Some (store_apply r w, resp)
  | Some (HUpdate, [id]) =>
      let '(r, resp) := api_update id body now (w_file w) in
      Some (store_apply r w, resp)
  | Some (HDelete, [id]) => Some (api_delete id w)
  | Some (HDedupe, _) =>
      let '(r, resp) := api_dedupe (w_file w) in
      Some (store_apply r w, resp)
  | Some _ => None
  end.

(** ** The dashboard's start flow *)

(** What the environment decides while [handleStart] runs: the server's
    clock at each request, the pid of the child, the events delivered until
    the start request is answered and before each later status poll, and
    the dashboard's own clock for [last_started]. *)
Record StartFlowEnv : Type := mkStartFlowEnv {
  sf_put1_now : string;
  sf_ospid : option Z;
  sf_start_now : string;
  sf_window : list Event;
  sf_stop : StopEnv;
  sf_polls : list (list Event);
  sf_last_started : string;
  sf_put2_now : string
}.

Inductive FlowResult : Type :=
| NoCommand
| Pending
| StartFailed
| Started
| HealthCheckFailed.

(** [waitForRunningStatus(id)]: up to [attempts] polls of
    [GET /api/projects/status/:id], the events of [delays] arriving between
    them. *)
Fixpoint waitForRunningStatus (id : string) (attempts : nat)
    (delays : list (list Event)) (w : World) : bool * World :=
  match attempts with
  | O => (false, w)
  | S n =>
      if truthy_opt (prop "running" (r_body (api_status id w))) then (true, w)
      else waitForRunningStatus id n (tail delays)
             (run_events (hd [] delays) w)
  end.

Definition string_field (k : string) (v : json) : option string :=
  match prop k v with
  | Some (JStr s) => Some s
  | _ => None
  end.

(** The id as it appears in a URL: [`${project.id}`]. *)
Definition url_id (project : json) : string :=
  match prop "id" project with
  | Some v => js_String v
  | None => "undefined"
  end.

(** The end of a flow whose start was not refused: poll the status, then
    either record the success with a [PUT] or stop the task. *)
Definition after_start (project : json) (env : StartFlowEnv) (w : World)
  : World * FlowResult :=
  let '(ok, w1) := waitForRunningStatus (url_id project) 10 (sf_polls env) w in
  if ok then
    let data := JObj [("last_started", JStr (sf_last_started env));
                      ("manual_stopped", JBool false);
                      ("restart_count", JNum 0)] in
    (store_apply (fst (api_update (url_id project) data (sf_put2_now env)
                                  (w_file w1))) w1,
     Started)
  else
    (fst (api_stop (mkStopBody (string_field "id" project) None)
                   (sf_stop env) w1),
     HealthCheckFailed).

(** [handleStart(project)] of the dashboard, as the requests it sends. *)
Definition handleStart (project : json) (env : StartFlowEnv) (w : World)
  : World * FlowResult :=
  let cmd := prop "start_command" project in
  if negb (truthy_opt cmd)
     || String.eqb (trim (js_String (default JNull cmd))) ""
  then (w, NoCommand)
  else
    let w1 := store_apply
                (fst (api_update (url_id project)
                        (JObj [("manual_stopped", JBool false)])
                        (sf_put1_now env) (w_file w))) w in
    let body := mkStartBody (string_field "id" project)
                            (string_field "start_command" project)
                            (Some (JNum 2000)) in
    match api_start body (sf_ospid env) (sf_start_now env) w1 with
    | (w2, inl resp) =>
        if strict_eq (prop "ok" (r_body resp)) (Some (JBool false))
        then (fst (api_stop (mkStopBody (string_field "id" project) None)
                            (sf_stop env) w2),
              StartFailed)
        else after_start project env w2
    | (w2, inr r) =>
        let w3 := run_events (sf_window env) w2 in
        match response_of r w3 with
        | None => (w3, Pending)
        | Some resp =>
            if strict_eq (prop "ok" (r_body resp)) (Some (JBool false))
            then (fst (api_stop (mkStopBody (string_field "id" project) None)
                                (sf_stop env) w3),
                  StartFailed)
            else after_start project env w3
        end
    end.

(** ** The dashboard's stop and restart flows *)

(** A property the server reads as a text: absent or [null] ([Some None]),
    a string, or something else, which the flows below do not follow
    ([None]). *)
Definition text_field (k : string) (v : json) : option (option string) :=
  match prop k v with
  | None | Some JNull => Some None
  | Some (JStr s) => Some (Some s)
  | Some _ => None
  end.

(** [res.ok] *)
Definition http_ok (r : Response) : bool :=
  (200 <=? r_status r)%Z && (r_status r <=? 299)%Z.

Inductive StopFlowResult : Type :=
| StopIgnored
| StopDone
| StopRefused.

(** [handleStop(project)] of the dashboard, as the requests it sends: the
    stop request and, once that is answered with a success, the [PUT] that
    records the stop.  Requests reach the server in the order the dashboard
    issues them. *)
Definition handleStop (project : json) (env : StopEnv) (put_now : string)
    (w : World) : option (World * StopFlowResult) :=
  if negb (truthy_opt (prop "id" project)) then Some (w, StopIgnored)
  else
    id ← text_field "id" project;
    stop_command ← text_field "stop_command" project;
    let '(w1, resp) := api_stop (mkStopBody id stop_command) env w in
    Some (if http_ok resp
          then (store_apply
                  (fst (api_update (url_id project)
                          (JObj [("manual_stopped", JBool true)])
                          put_now (w_file w1))) w1,
                StopDone)
          else (w1, StopRefused)).

(** What the environment decides while [handleRestart] runs: how the first
    stop goes, the events that arrive before the start request, and then
    what a start flow needs (its first clock is not used). *)
Record RestartFlowEnv : Type := mkRestartFlowEnv {
  rf_stop : StopEnv;
  rf_between : list Event;
  rf_flow : StartFlowEnv
}.

(** The body of the [PUT] that ends a restart. *)
Definition restart_data (ok : bool) (env : StartFlowEnv) : json :=
  JObj (("manual_stopped", JBool false)
          :: if ok
             then [("last_started", JStr (sf_last_started env));
                   ("restart_count", JNum 0)]
             else []).

(** The end of a restart whose start was not refused: poll the status,
    record the outcome, and stop the task if it is not seen running. *)
Definition after_restart (project : json) (id : option string)
    (env : StartFlowEnv) (w : World) : World * FlowResult :=
  let '(ok, w1) := waitForRunningStatus (url_id project) 10 (sf_polls env) w in
  let w2 := store_apply
              (fst (api_update (url_id project) (restart_data ok env)
                               (sf_put2_now env) (w_file w1))) w1 in
  if ok then (w2, Started)
  else (fst (api_stop (mkStopBody id None) (sf_stop env) w2),
        HealthCheckFailed).

(** [handleRestart(project)] of the dashboard, as the requests it sends. *)
Definition handleRestart (project : json) (env : RestartFlowEnv) (w : World)
  : option (World * FlowResult) :=
  let cmd := prop "start_command" project in
  if negb (truthy_opt cmd)
     || String.eqb (trim (js_String (default JNull cmd))) ""
  then Some (w, NoCommand)
  else
    id ← text_field "id" project;
    start_command ← text_field "start_command" project;
    stop_command ← text_field "stop_command" project;
    let flow := rf_flow env in
    let stop_body := mkStopBody id stop_command in
    let w1 := run_events (rf_between env)
                (fst (api_stop stop_body (rf_stop env) w)) in
    let body := mkStartBody id start_command (Some (JNum 2000)) in
    Some
      match api_start body (sf_ospid flow) (sf_start_now flow) w1 with
      | (w2, inl resp) =>
          if strict_eq (prop "ok" (r_body resp)) (Some (JBool false))
          then (fst (api_stop stop_body (sf_stop flow) w2), StartFailed)
          else after_restart project id flow w2
      | (w2, inr r) =>
          let w3 := run_events (sf_window flow) w2 in
          match response_of r w3 with
          | None => (w3, Pending)
          | Some resp =>
              if strict_eq (prop "ok" (r_body resp)) (Some (JBool false))
              then (fst (api_stop stop_body (sf_stop flow) w3), StartFailed)
              else after_restart project id flow w3
          end
      end.

(** ** Restarting on the server: which command is started *)

(** The checks [POST /api/projects/restart] makes before it stops or starts
    anything: [start_command || entry?.command]. *)
Definition restart_command (body : StartBody) (w : World) : Response + string :=
  if negb (str_truthy (sb_id body))
  then inl (mkResp 400 (JObj [("error", JStr "id is required")]))
  else
    let startCmd :=
      if str_truthy (sb_start_command body) then sb_start_command body
      else e_command <$> w_processes w !! default "" (sb_id body) in
    if str_truthy startCmd then inr (default "" startCmd)
    else inl (mkResp 400 (JObj [("error", JStr "start_command is required")])).

(** ** Killing a process by its pid *)

(** The decimal digits a text starts with. *)
Fixpoint digit_prefix (l : list ascii) : list Z :=
  match l with
  | a :: l' =>
      match digit_of a with
      | Some d => d :: digit_prefix l'
      | None => []
      end
  | [] => []
  end.

Definition digits_value (ds : list Z) : Z :=
  fold_left (fun acc d => 10 * acc + d)%Z ds 0%Z.

(** [parseInt(s, 10)] of a string: white space is skipped, a sign is read,
    then as many digits as there are; [None] is [NaN], the result when no
    digit is found. *)
Definition parseInt10 (s : string) : option Z :=
  let l := trimStart_l (list_ascii_of_string s) in
  let '(sign, rest) :=
    match l with
    | "-"%char :: r => ((-1)%Z, r)
    | "+"%char :: r => (1%Z, r)
    | _ => (1%Z, l)
    end in
  match digit_prefix rest with
  | [] => None
  | ds => Some (sign * digits_value ds)%Z
  end.

(** [parseInt(x, 10)] of a property of a request body, which is turned into
    a string first; a missing property is [undefined]. *)
Definition parseInt_prop (o : option json) : option Z :=
  parseInt10 (match o with Some v => js_String v | None => "undefined" end).

(** [POST /api/processes/kill]; [kill_error] is the error [treeKill]
    hands to its callback, if any. *)
Definition api_kill (body : json) (kill_error : option string) (w : World)
  : World * Response :=
  let refused := (w, mkResp 400 (JObj [("error", JStr "pid is required")])) in
  match parseInt_prop (prop "pid" body) with
  | None => refused
  | Some pidNum =>
      if (pidNum <=? 0)%Z then refused
      else
        let sig := match prop "signal" body with
                   | Some (JStr s) => if String.eqb s "" then "SIGTERM" else s
                   | _ => "SIGTERM"
                   end in
        let w1 := log (ATreeKill (Some pidNum) sig) w in
        match kill_error with
        | Some err =>
            (w1, mkResp 500 (JObj [("ok", JBool false); ("error", JStr err)]))
        | None =>
            (w1, mkResp 200 (JObj [("ok", JBool true); ("pid", JNum pidNum);
                                   ("signal", JStr sig)]))
        end
  end.

(** ** Reading the task list of Windows *)

(** The double quote character. *)
Definition quote_char : ascii := ascii_of_nat 34.

(** The loop of [windowsTaskImageMap] over the characters of one line of
    [tasklist /FO CSV]: a quote switches quoting on or off and is dropped, a
    comma outside quotes ends a column. *)
Fixpoint csv_scan (l : list ascii) (cur : list ascii) (inq : bool)
    (cols : list string) : list string :=
  match l with
  | [] => cols ++ [string_of_list_ascii cur]
  | ch :: l' =>
      if Ascii.eqb ch quote_char then csv_scan l' cur (negb inq) cols
      else if Ascii.eqb ch ","%char && negb inq
      then csv_scan l' [] inq (cols ++ [string_of_list_ascii cur])
      else csv_scan l' (cur ++ [ch]) inq cols
  end.

Definition csv_columns (line : string) : list string :=
  csv_scan (list_ascii_of_string line) [] false [].

(** What the loop body makes of one line: the image name [cols[0]] under
    the pid [parseInt(cols[1], 10)], when that is a number. *)
Definition task_image (line : string) : option (Z * string) :=
  let cols := csv_columns line in
  pid ← parseInt10 (default "undefined" (cols !! 1%nat));
  Some (pid, default "" (cols !! 0%nat)).

(** The guardian holds a task back when it has no command to start:
    [!start_command || !String(start_command).trim()]. *)
Definition blank_command (p : json) : bool :=
  negb (truthy_opt (prop "start_command" p))
  || String.eqb (trim (js_String (default JNull (prop "start_command" p)))) "".

(** ** Finding processes by name and by port (Unix) *)

(** [String.prototype.toLowerCase] *)
Variable toLowerCase : string -> string.

(** [s.split(sep)] for a separator of one character, on the characters of
    [s]. *)
Fixpoint split_on (sep : ascii) (l : list ascii) : list (list ascii) :=
  match l with
  | [] => [[]]
  | a :: l' =>
      if Ascii.eqb a sep then [] :: split_on sep l'
      else match split_on sep l' with
           | cur :: rest => (a :: cur) :: rest
           | [] => [[a]]
           end
  end.

Definition newline : ascii := ascii_of_nat 10.

(** [String(stdout).split('\n').map((l) => l.trim()).filter(Boolean)] *)
Definition trimmed_lines (pieces : list (list ascii)) : list (list ascii) :=
  List.filter (fun l => match l with [] => false | _ => true end)
              (map trim_l pieces).

(** [p] is how [l] starts. *)
Fixpoint starts_with (p l : list ascii) : bool :=
  match p, l with
  | [], _ => true
  | a :: p', b :: l' => Ascii.eqb a b && starts_with p' l'
  | _ :: _, [] => false
  end.

(** [hay.includes(needle)] *)
Fixpoint includes_l (needle hay : list ascii) : bool :=
  starts_with needle hay
  || match hay with
     | [] => false
     | _ :: hay' => includes_l needle hay'
     end.

Definition includes (hay needle : string) : bool :=
  includes_l (list_ascii_of_string needle) (list_ascii_of_string hay).

(** A character the dot of a regular expression does not match. *)
Definition is_line_terminator (a : ascii) : bool :=
  let n := nat_of_ascii a in (Nat.eqb n 10 || Nat.eqb n 13)%bool.

(** [l.match(re)] for the regular expression of the handler: one or more
    digits from the start of the line (group 1), one or more white space
    characters, then any characters the dot matches up to the end
    (group 2).  The result is the number [parseInt(m[1], 10)] and the text
    [m[2]].  The digits and the white space are matched greedily, and
    giving some of them back never helps: what follows the digits is no
    digit, and the rest has to reach the end of the line without a line
    terminator either way. *)
Definition match_ps_line (l : list ascii) : option (Z * string) :=
  let ds := digit_prefix l in
  let rest := drop (length ds) l in
  match ds, rest with
  | _ :: _, a :: _ =>
      if is_ws a then
        let command := trimStart_l rest in
        if existsb is_line_terminator command then None
        else Some (digits_value ds, string_of_list_ascii command)
      else None
  | _, _ => None
  end.

(** [String(req.query.name || '').trim()] *)
Definition search_name (q : option json) : string :=
  trim (match q with
        | Some v => if truthy v then js_String v else ""
        | None => ""
        end).

(** [GET /api/processes/search] on a system that is not Windows; [stdout]
    is what [ps -A -o pid=,command=] prints, which is not asked for when
    the name is blank. *)
Definition search_unix (q : option json) (stdout : string) : list json :=
  let name := search_name q in
  if String.eqb name "" then []
  else
    let needle := toLowerCase name in
    omap (fun l =>
            match match_ps_line l with
            | Some (pid, command) =>
                if includes (toLowerCase command) needle
                then Some (JObj [("pid", JNum pid); ("command", JStr command)])
                else None
            | None => None
            end)
         (trimmed_lines (split_on newline (list_ascii_of_string stdout))).

(** [l.split(/\s+/)]: [cur] is the piece being read, [in_sep] tells that
    the last character was white space. *)
Fixpoint split_ws (l : list ascii) (cur : list ascii) (in_sep : bool)
  : list string :=
  match l with
  | [] => [string_of_list_ascii cur]
  | a :: l' =>
      if is_ws a then
        if in_sep then split_ws l' cur true
        else string_of_list_ascii cur :: split_ws l' [] true
      else split_ws l' (cur ++ [a]) false
  end.

(** [parseInt(String(req.params.port || '').trim(), 10)], when it is a
    number above 0. *)
Definition port_number (param : string) : option Z :=
  match parseInt10 (trim param) with
  | Some n => if (n <=? 0)%Z then None else Some n
  | None => None
  end.

(** What the loop of the handler makes of one line of [lsof]. *)
Definition lsof_row (l : list ascii) : option json :=
  let parts := split_ws l [] false in
  if (length parts <? 2)%nat then None
  else
    let command := default "" (parts !! 0%nat) in
    match parseInt10 (default "undefined" (parts !! 1%nat)) with
    | None => None
    | Some pid =>
        let name := default "" (last parts) in
        Some (JObj [("pid", JNum pid); ("command", JStr command);
                    ("name", JStr name)])
    end.

(** [GET /api/processes/by-port/:port] on a system that is not Windows;
    [stdout] is what [lsof -n -P -i :port] prints, its first line being the
    header. *)
Definition by_port_unix (param : string) (stdout : string) : Response :=
  match port_number param with
  | None => mkResp 400 (JObj [("error", JStr "invalid port")])
  | Some _ =>
      mkResp 200
        (JArr (omap lsof_row
                 (trimmed_lines
                    (tail (split_on newline (list_ascii_of_string stdout))))))
  end.

(** ** The port the server listens on *)





(** ** The clock and the startup timer *)











(** ** Predicates of the proofs *)

(** The invariant of the [Map] of [dedupeProjects]: keys are distinct, and
    each key is the non-empty trimmed id of the object stored under it. *)
Definition keyed (kv : string * json) : Prop :=
  id_key (snd kv) = fst kv /\ is_object (snd kv) = true /\ fst kv <> "".

Definition good_map (m : list (string * json)) : Prop :=
  NoDup (map fst m) /\ Forall keyed m.


(** The child a start request creates. *)
Definition started_proc (id : string) (tmo : option json) (ospid : option Z)
  : Proc :=
  mkProc (mkChild ospid None false) (ringBuffer_new 500) (ringBuffer_new 500)
         ByStart id (startup_timeout tmo) false None.


(** The body of the [PUT] with which the dashboard records a start. *)
Definition started_data (env : StartFlowEnv) : json :=
  JObj [("last_started", JStr (sf_last_started env));
        ("manual_stopped", JBool false); ("restart_count", JNum 0)].

(** The task stored under [k] is marked as stopped by hand. *)
Definition manual_stop_inv (k : string) (w : World) : Prop :=
  exists x, stored_task k (w_file w) = Some x
            /\ prop "manual_stopped" x = Some (JBool true).

(** The invariant of a run for the task stored under the string [k] with
    the cap [N]: the failures since the last success are counted by the
    stored [restart_count], and no run of failures was longer than [N]. *)
Definition cap_inv (k : string) (N : Z) (base : list (Z * bool)) (w : World)
    (l : list (Z * bool)) : Prop :=
  (exists x, stored_task k (w_file w) = Some x
             /\ prop "id" x = Some (JStr k) /\ maxRestarts x = N
             /\ (Z.of_nat (trailing_failures l) <= currentCount x)%Z)
  /\ attempts_of k (w_trace w) = base ++ l
  /\ (longest_failure_streak l <= Z.to_nat N)%nat.

(** The guardian looks a task up by [String(p.id || '').trim()], and
    [patchProject] by [p.id === id].  For a task whose stored id is not that
    very string (an id with white space around it, say) the two disagree:
    [v] is what the guardian reads of such a task stored under [k]. *)
Definition unpatched_inv (k : string) (v : TaskView) (w : World) : Prop :=
  exists x, stored_task k (w_file w) = Some x
            /\ task_view x = v /\ tv_id v <> Some (JStr k).

(** What the child [r] prints on each stream in a sequence of events. *)
Definition stdout_of (r : nat) (evs : list Event) : list string :=
  omap (fun ev => match ev with
                  | EvStdout r' data => if Nat.eqb r' r then Some data else None
                  | _ => None
                  end) evs.

Definition stderr_of (r : nat) (evs : list Event) : list string :=
  omap (fun ev => match ev with
                  | EvStderr r' data => if Nat.eqb r' r then Some data else None
                  | _ => None
                  end) evs.

(** [lines] pushed one after the other. *)
Definition rb_pushes (lines : list string) (b : ringBuffer) : ringBuffer :=
  fold_left (fun b line => rb_push line b) lines b.

(** The last [n] elements of a list. *)
Definition latest {A : Type} (n : nat) (l : list A) : list A :=
  drop (length l - n) l.

(** A child of the start handler whose request, if answered, was answered
    with a success or with a failure. *)
Definition answer_inv (p : Proc) : Prop :=
  p_origin p = ByStart
  /\ (p_responded p = true ->
      exists resp, p_response p = Some resp
                   /\ (r_status resp = 200 \/ r_status resp = 500)).

(** The task stored under [k] is one the guardian does not guard. *)
Definition ineligible_inv (k : string) (w : World) : Prop :=
  exists x, stored_task k (w_file w) = Some x
            /\ eligible (guard_config x) = false.

(** An event that sets no exit code on a child: output, the startup timer,
    and the exit of a child that was ended by a signal. *)
Definition keeps_exitCode (ev : Event) : bool :=
  match ev with
  | EvError _ _ _ | EvExit _ (Exited _) => false
  | _ => true
  end.

(** A step of a run that is a tick or such an event. *)
Definition quiet_step (s : GStep) : bool :=
  match s with
  | GTick _ => true
  | GEvent ev => keeps_exitCode ev
  end.

(** One field as [tasklist /FO CSV] prints it, between double quotes, and
    a line of such fields. *)
Definition csv_quoted (field : string) : string :=
  String quote_char (field +:+ String quote_char "").

Fixpoint csv_line (fields : list string) : string :=
  match fields with
  | [] => ""
  | [f] => csv_quoted f
  | f :: rest => csv_quoted f +:+ "," +:+ csv_line rest
  end.

(** The character of a decimal digit. *)
Definition digit_char (d : Z) : ascii := ascii_of_nat (48 + Z.to_nat d).

(** The text holds no double quote. *)
Definition quote_free (s : string) : bool :=
  forallb (fun a => negb (Ascii.eqb a quote_char)) (list_ascii_of_string s).

(** *** The output of [ps] and [lsof] *)

Definition space : ascii := ascii_of_nat 32.

(** A line [ps -o pid=,command=] prints for a process: the pid, padded on
    the left, a space, and the command line. *)
Definition ps_line (row : nat * Z * string) : list ascii :=
  let '(pad, pid, command) := row in
  repeat space pad ++ list_ascii_of_string (pretty pid)
  ++ space :: list_ascii_of_string command.

Definition ps_output (rows : list (nat * Z * string)) : string :=
  string_of_list_ascii (concat (map (fun r => ps_line r ++ [newline]) rows)).

(** A command line as [ps] shows it: it neither starts nor ends with white
    space and holds no line break. *)
Definition shown_command (command : string) : bool :=
  let l := list_ascii_of_string command in
  match l with
  | [] => false
  | a :: _ => negb (is_ws a)
  end
  && match rev l with
     | [] => false
     | a :: _ => negb (is_ws a)
     end
  && forallb (fun a => negb (is_line_terminator a)) l.

(** What the search answers for a process. *)
Definition found (needle : string) (row : nat * Z * string) : option json :=
  let '(_, pid, command) := row in
  if includes (toLowerCase command) needle
  then Some (JObj [("pid", JNum pid); ("command", JStr command)])
  else None.

(** A column of [lsof]: a text without white space. *)
Definition token (s : string) : bool :=
  match list_ascii_of_string s with
  | [] => false
  | l => forallb (fun a => negb (is_ws a)) l
  end.

(** A line of [lsof]: columns, each after one or more spaces. *)
Definition lsof_line (fields : list (nat * string)) : list ascii :=
  concat (map (fun f => repeat space (S (fst f))
                        ++ list_ascii_of_string (snd f)) fields).

Definition lsof_output (header : string) (rows : list (list (nat * string)))
  : string :=
  string_of_list_ascii
    (list_ascii_of_string header ++ newline
       :: concat (map (fun r => lsof_line r ++ [newline]) rows)).

(** What the handler answers for a line whose columns are [fields]. *)
Definition port_holder (pid : Z) (fields : list (nat * string)) : json :=
  JObj [("pid", JNum pid);
        ("command", JStr (default "" (snd <$> head fields)));
        ("name", JStr (default "" (snd <$> last fields)))].

(** * Properties *)

(** ** Objects *)

Lemma keys_obj_without k o :
  k ∉ map fst (obj_without k o).
Proof.
  unfold obj_without. rewrite list_elem_of_In, in_map_iff.
  intros [[k' v] [Hk Hin]]. simpl in Hk. subst k'.
  apply filter_In in Hin as [_ Hf]. simpl in Hf.
  rewrite String.eqb_refl in Hf. discriminate.
Qed.

Lemma keys_obj_without_incl k k' o :
  k' ∉ map fst o -> k' ∉ map fst (obj_without k o).
Proof.
  unfold obj_without. rewrite !list_elem_of_In, !in_map_iff.
  intros Hn [[k2 v] [Hk Hin]]. apply Hn. exists (k2, v). split; [done|].
  by apply filter_In in Hin as [? _].
Qed.

Lemma obj_without_id k o :
  k ∉ map fst o -> obj_without k o = o.
Proof.
  unfold obj_without. induction o as [|[k' v] o IH]; simpl; [done|].
  intros Hn. apply not_elem_of_cons in Hn as [Hne Hn].
  destruct (String.eqb k' k) eqn:E.
  - apply String.eqb_eq in E. congruence.
  - simpl. by rewrite IH.
Qed.

Lemma sanitize_pure p : runtime_pure (sanitize p).
Proof.
  unfold sanitize, runtime_pure.
  destruct (is_object p) eqn:E; simpl.
  - split.
    + apply keys_obj_without_incl, keys_obj_without.
    + apply keys_obj_without.
  - destruct p; simpl in *; try discriminate; split; apply not_elem_of_nil.
Qed.

Lemma written_pure items : Forall runtime_pure (written items).
Proof.
  unfold written. apply Forall_forall. intros x Hx.
  apply list_elem_of_In, in_map_iff in Hx as [p [<- _]]. apply sanitize_pure.
Qed.

(** What is already free of runtime fields is written as it is, unless it
    is an array (which is written as an object). *)
Lemma sanitize_idemp p : sanitize (sanitize p) = sanitize p.
Proof.
  destruct (sanitize_pure p) as [Hs Hr].
  unfold sanitize in *. destruct (is_object p) eqn:E.
  - simpl in *. by rewrite (obj_without_id "status"), (obj_without_id "runtime_pid").
  - by rewrite E.
Qed.

Lemma written_idemp items : written (written items) = written items.
Proof.
  unfold written. rewrite map_map. apply map_ext. intros. apply sanitize_idemp.
Qed.

(** ** Every write is free of runtime fields *)

Lemma store_step_writes op f ws :
  ws ∈ sr_writes (store_step op f) -> exists items, ws = written items.
Proof.
  destruct op; simpl.
  - unfold api_create. destruct (findIndex _ _); simpl.
    + intros H. by apply elem_of_nil in H.
    + intros H. apply list_elem_of_singleton in H. eauto.
  - unfold api_update. destruct (findIndex _ _); simpl.
    + intros H. apply list_elem_of_singleton in H. eauto.
    + intros H. by apply elem_of_nil in H.
  - unfold delete_stored. destruct (findIndex _ _); simpl.
    + intros H. apply list_elem_of_singleton in H. eauto.
    + intros H. by apply elem_of_nil in H.
  - intros H. apply list_elem_of_singleton in H. eauto.
  - unfold patchProject. destruct (findIndex _ _); simpl.
    + intros H. apply list_elem_of_singleton in H. eauto.
    + intros H. by apply elem_of_nil in H.
Qed.

Lemma store_run_writes ops : forall f ws,
  ws ∈ sr_writes (store_run ops f) -> exists items, ws = written items.
Proof.
  induction ops as [|op ops IH]; simpl; intros f ws H.
  - by apply elem_of_nil in H.
  - apply elem_of_app in H as [H|H].
    + by eapply store_step_writes.
    + by eapply IH.
Qed.

Lemma store_step_cases op f :
  store_step op f = no_write f
  \/ exists items, store_step op f = do_write items.
Proof.
  destruct op; simpl.
  - unfold api_create. destruct (findIndex _ _); simpl; eauto.
  - unfold api_update. destruct (findIndex _ _); simpl; eauto.
  - unfold delete_stored. destruct (findIndex _ _); simpl; eauto.
  - eauto.
  - unfold patchProject. destruct (findIndex _ _); simpl; eauto.
Qed.

(** C2 (runtime purity).  Whatever sequence of create, update, delete,
    dedupe and patch operations runs on whatever file, and whatever the
    objects passed to them contain, every array serialized into the task
    file has no [status] and no [runtime_pid] key on any of its items.  The
    file itself says so: an operation that follows any such sequence either
    writes nothing and leaves the file as it is, or leaves a file that is
    the one array it serialized, an array whose items carry neither key. *)
Theorem store_writes_runtime_pure (ops : list StoreOp) (f : option json) :
  Forall (Forall runtime_pure) (sr_writes (store_run ops f))
  /\ forall op,
       let before := sr_file (store_run ops f) in
       let r := store_step op before in
       (sr_writes r = [] /\ sr_file r = before)
       \/ exists items,
            sr_writes r = [items] /\ sr_file r = Some (JArr items)
            /\ Forall runtime_pure items.
Proof.
  split.
  - apply Forall_forall. intros ws H.
    apply store_run_writes in H as [items ->]. apply written_pure.
  - intros op before r. subst r.
    destruct (store_step_cases op before) as [->|[items ->]].
    + by left.
    + right. exists (written items). unfold do_write, writeProjectsFile.
      cbn [sr_writes sr_file]. split; [done|]. split; [done|].
      apply written_pure.
Qed.
(** ** The [Map] of [dedupeProjects] *)

Lemma map_get_None {A} k (m : list (string * A)) :
  map_get k m = None <-> k ∉ map fst m.
Proof.
  induction m as [|[k' v] m IH]; simpl.
  - split; [intros _; apply not_elem_of_nil|done].
  - destruct (String.eqb k' k) eqn:E.
    + apply String.eqb_eq in E. subst. split; [done|].
      intros H. exfalso. apply H. left.
    + apply String.eqb_neq in E. rewrite IH, not_elem_of_cons.
      split; [intros ?; split; [congruence|done]|by intros [_ ?]].
Qed.




Lemma obj_set_keys_present {A} k (v : A) m :
  k ∈ map fst m -> map fst (obj_set k v m) = map fst m.
Proof.
  induction m as [|[k' v'] m IH]; simpl.
  - intros H. by apply elem_of_nil in H.
  - destruct (String.eqb k' k) eqn:E; simpl.
    + apply String.eqb_eq in E. by subst.
    + apply String.eqb_neq in E. intros H.
      apply elem_of_cons in H as [H|H]; [congruence|]. by rewrite IH.
Qed.

Lemma obj_set_fresh {A} k (v : A) m :
  k ∉ map fst m -> obj_set k v m = m ++ [(k, v)].
Proof.
  induction m as [|[k' v'] m IH]; simpl; [done|].
  intros H. apply not_elem_of_cons in H as [Hne H].
  destruct (String.eqb k' k) eqn:E.
  - apply String.eqb_eq in E. congruence.
  - by rewrite IH.
Qed.

Lemma obj_set_elem_of {A} k (v : A) m kv :
  kv ∈ obj_set k v m -> kv = (k, v) \/ kv ∈ m.
Proof.
  induction m as [|[k' v'] m IH]; simpl.
  - intros H. apply list_elem_of_singleton in H. by left.
  - destruct (String.eqb k' k) eqn:E.
    + intros H. apply elem_of_cons in H as [H|H]; [by left|].
      right. by right.
    + intros H. apply elem_of_cons in H as [H|H].
      * right. subst. left.
      * destruct (IH H) as [?|?]; [by left|]. right. by right.
Qed.


Lemma good_map_nil : good_map [].
Proof. split; [constructor|constructor]. Qed.

Lemma good_map_obj_set m p :
  good_map m -> is_object p = true -> id_key p <> "" ->
  good_map (obj_set (id_key p) p m).
Proof.
  intros [Hnd Hk] Ho Hne. split.
  - destruct (decide (id_key p ∈ map fst m)) as [Hin|Hin].
    + by rewrite obj_set_keys_present.
    + rewrite obj_set_fresh by done. rewrite map_app. simpl.
      apply NoDup_app. split; [done|]. split; [|apply NoDup_singleton].
      intros x Hx Hx'. apply list_elem_of_singleton in Hx'. by subst.
  - apply Forall_forall. intros kv Hkv.
    apply obj_set_elem_of in Hkv as [->|Hkv].
    + by repeat split.
    + by eapply Forall_forall in Hk.
Qed.

Lemma dedupe_step_good m p : good_map m -> good_map (dedupe_step m p).
Proof.
  intros Hm. unfold dedupe_step.
  destruct (is_object p) eqn:Ho; simpl; [|done].
  destruct (String.eqb (id_key p) "") eqn:E; [done|].
  apply String.eqb_neq in E.
  destruct (map_get (id_key p) m).
  - destruct (_ >? _)%Z; [|done]. by apply good_map_obj_set.
  - by apply good_map_obj_set.
Qed.

Lemma dedupe_fold_good items : forall m,
  good_map m -> good_map (fold_left dedupe_step items m).
Proof.
  induction items as [|p items IH]; simpl; [done|].
  intros m Hm. by apply IH, dedupe_step_good.
Qed.

Lemma good_map_keys m :
  good_map m -> map id_key (map snd m) = map fst m.
Proof.
  intros [_ Hk]. induction Hk as [|[k v] m [Hkey _] _ IH]; simpl; [done|].
  simpl in Hkey. by rewrite Hkey, IH.
Qed.







(** *** What [dedupeProjects] returns *)



Lemma dedupe_NoDup items : NoDup (map id_key (dedupeProjects items)).
Proof.
  unfold dedupeProjects.
  pose proof (dedupe_fold_good items [] good_map_nil) as Hg.
  rewrite good_map_keys by done. apply Hg.
Qed.

Lemma dedupe_valid items p :
  p ∈ dedupeProjects items -> is_object p = true /\ id_key p <> "".
Proof.
  unfold dedupeProjects. intros H.
  apply list_elem_of_In, in_map_iff in H as [[k v] [<- Hin]].
  destruct (dedupe_fold_good items [] good_map_nil) as [_ Hk].
  eapply Forall_forall in Hk; [|by apply list_elem_of_In].
  destruct Hk as (Hkey & Ho & Hne). simpl in *. split; [done|]. congruence.
Qed.


(** A list of objects with distinct non-empty ids is left as it is. *)
Lemma dedupe_fold_distinct items : forall m,
  Forall (fun p => is_object p = true /\ id_key p <> "") items ->
  NoDup (map fst m ++ map id_key items) ->
  fold_left dedupe_step items m = m ++ map (fun p => (id_key p, p)) items.
Proof.
  induction items as [|p items IH]; simpl; intros m Hv Hnd.
  - by rewrite app_nil_r.
  - apply Forall_cons in Hv as [[Ho Hne] Hv].
    assert (id_key p ∉ map fst m) as Hfresh.
    { apply NoDup_app in Hnd as (_ & Hd & _). intros Hin.
      apply (Hd _ Hin). left. }
    unfold dedupe_step at 2. rewrite Ho. simpl.
    apply String.eqb_neq in Hne. rewrite Hne.
    apply map_get_None in Hfresh as Hg. rewrite Hg.
    rewrite obj_set_fresh by done.
    rewrite IH; [by rewrite <- app_assoc|done|].
    rewrite map_app. simpl. by rewrite <- app_assoc.
Qed.

Lemma dedupe_distinct items :
  Forall (fun p => is_object p = true /\ id_key p <> "") items ->
  NoDup (map id_key items) ->
  dedupeProjects items = items.
Proof.
  intros Hv Hnd. unfold dedupeProjects.
  rewrite dedupe_fold_distinct by done. simpl.
  rewrite map_map. simpl. apply map_id.
Qed.


(** *** Reading back what was written *)

Lemma obj_get_obj_without k k' o :
  k <> k' -> obj_get k (obj_without k' o) = obj_get k o.
Proof.
  intros Hne. unfold obj_without.
  induction o as [|[k2 v] o IH]; simpl; [done|].
  destruct (String.eqb k2 k') eqn:E; simpl.
  - apply String.eqb_eq in E. subst k2.
    assert (String.eqb k' k = false) as -> by (apply String.eqb_neq; congruence).
    done.
  - destruct (String.eqb k2 k); [done|apply IH].
Qed.

(** The properties other than the two runtime fields survive a write. *)
Lemma prop_sanitize k o :
  k <> "status" -> k <> "runtime_pid" ->
  prop k (sanitize (JObj o)) = prop k (JObj o).
Proof.
  intros H1 H2. unfold sanitize. simpl.
  by rewrite !obj_get_obj_without.
Qed.

Lemma id_key_sanitize p :
  is_object p = true -> id_key p <> "" -> id_key (sanitize p) = id_key p.
Proof.
  intros Ho Hne. destruct p; simpl in Ho; try discriminate.
  - exfalso. apply Hne. reflexivity.
  - unfold id_key. by rewrite prop_sanitize.
Qed.

Lemma sanitize_is_object p : is_object (sanitize p) = is_object p.
Proof. unfold sanitize. by destruct p. Qed.

(** Reading the file that holds [items], when [items] are objects with
    distinct non-empty ids, gives the items as they were written. *)
Lemma read_after_write items :
  Forall (fun p => is_object p = true /\ id_key p <> "") items ->
  NoDup (map id_key items) ->
  readProjectsFile (writeProjectsFile items) = written items.
Proof.
  intros Hv Hnd. simpl.
  assert (map id_key (written items) = map id_key items) as Hkeys.
  { unfold written. rewrite map_map. apply map_ext_in. intros p Hp.
    apply list_elem_of_In in Hp. eapply Forall_forall in Hv as [? ?]; [|done].
    by apply id_key_sanitize. }
  apply dedupe_distinct; [|by rewrite Hkeys].
  apply Forall_forall. intros q Hq. unfold written in Hq.
  apply list_elem_of_In, in_map_iff in Hq as [p [<- Hp]].
  apply list_elem_of_In in Hp. eapply Forall_forall in Hv as [? ?]; [|done].
  rewrite sanitize_is_object, id_key_sanitize; done.
Qed.

Lemma read_valid f :
  Forall (fun p => is_object p = true /\ id_key p <> "") (readProjectsFile f).
Proof.
  apply Forall_forall. intros p Hp.
  destruct f as [[| | | |items|]|]; simpl in Hp;
    try (by apply elem_of_nil in Hp).
  by eapply dedupe_valid.
Qed.

Lemma read_NoDup f : NoDup (map id_key (readProjectsFile f)).
Proof.
  destruct f as [[| | | |items|]|]; simpl; try constructor.
  apply dedupe_NoDup.
Qed.

(** ** Dedupe *)




(** ** Events *)

Lemma step_heap_length ev w : length (w_heap (step ev w)) = length (w_heap w).
Proof.
  unfold step. destruct (w_heap w !! target ev); [|done].
  simpl. apply length_insert.
Qed.

Lemma step_lookup_target ev w p :
  w_heap w !! target ev = Some p ->
  w_heap (step ev w) !! target ev = Some (on_event ev p).
Proof.
  intros H. unfold step. rewrite H. simpl.
  apply list_lookup_insert_eq. by eapply lookup_lt_Some.
Qed.

Lemma step_lookup_other ev w r :
  target ev <> r -> w_heap (step ev w) !! r = w_heap w !! r.
Proof.
  intros H. unfold step. destruct (w_heap w !! target ev); [|done].
  simpl. by apply list_lookup_insert_ne.
Qed.

Lemma step_file ev w : w_file (step ev w) = w_file w.
Proof. unfold step. by destruct (w_heap w !! target ev). Qed.

Lemma step_guardianState ev w :
  w_guardianState (step ev w) = w_guardianState w.
Proof. unfold step. by destruct (w_heap w !! target ev). Qed.

Lemma step_trace ev w : w_trace (step ev w) = w_trace w.
Proof. unfold step. by destruct (w_heap w !! target ev). Qed.

Lemma mark_stopped_lookup id id' code signal m :
  mark_stopped id code signal m !! id'
  = (if decide (id = id')
     then (fun e => mkEntry (e_proc e) stopped (e_command e) (e_startedAt e)
                            code signal) <$> m !! id'
     else m !! id').
Proof.
  unfold mark_stopped. rewrite lookup_alter. by destruct (decide (id = id')) as [->|].
Qed.

(** No event changes which child an entry refers to, or removes an entry. *)
Lemma step_entry_proc ev w id :
  e_proc <$> (w_processes (step ev w) !! id) = e_proc <$> (w_processes w !! id).
Proof.
  unfold step. destruct (w_heap w !! target ev) as [p|]; [|done]. simpl.
  destruct ev; simpl; try done;
    rewrite mark_stopped_lookup; case_decide; try done;
    by destruct (w_processes w !! id).
Qed.

Lemma run_events_entry_proc evs : forall w id,
  e_proc <$> (w_processes (run_events evs w) !! id)
  = e_proc <$> (w_processes w !! id).
Proof.
  induction evs as [|ev evs IH]; intros w id; simpl; [done|].
  unfold run_events in IH. by rewrite IH, step_entry_proc.
Qed.

Lemma run_events_app evs1 evs2 w :
  run_events (evs1 ++ evs2) w = run_events evs2 (run_events evs1 w).
Proof. unfold run_events. apply fold_left_app. Qed.

Lemma run_events_heap_length evs : forall w,
  length (w_heap (run_events evs w)) = length (w_heap w).
Proof.
  induction evs as [|ev evs IH]; intros w; simpl; [done|].
  unfold run_events in IH. by rewrite IH, step_heap_length.
Qed.

(** Events of other children leave a child as it is. *)
Lemma run_events_others r evs : forall w,
  Forall (fun ev => target ev <> r) evs ->
  w_heap (run_events evs w) !! r = w_heap w !! r.
Proof.
  induction evs as [|ev evs IH]; intros w Hall; [done|].
  apply Forall_cons in Hall as [Hev Hall].
  change (run_events (ev :: evs) w) with (run_events evs (step ev w)).
  by rewrite IH, step_lookup_other.
Qed.

(** *** While the startup window is open *)






(** *** Once the start request is answered *)

Lemma on_event_answered ev p :
  p_origin p = ByStart -> p_responded p = true ->
  p_origin (on_event ev p) = ByStart /\ p_responded (on_event ev p) = true
  /\ p_response (on_event ev p) = p_response p.
Proof.
  intros Ho Hr. destruct ev; simpl; rewrite ?Ho; try done.
  - unfold respondFail. simpl. by rewrite Hr.
  - destruct st; simpl; rewrite Hr; done.
  - by rewrite Hr.
Qed.

Lemma run_answered evs : forall w r p,
  w_heap w !! r = Some p -> p_origin p = ByStart -> p_responded p = true ->
  response_of r (run_events evs w) = p_response p.
Proof.
  induction evs as [|ev evs IH]; intros w r p Hp Ho Hr; simpl.
  - unfold response_of. by rewrite Hp.
  - destruct (decide (target ev = r)) as [Ht|Ht].
    + subst r. destruct (on_event_answered ev p Ho Hr) as (Ho' & Hr' & Hres).
      rewrite <- Hres. eapply IH; [by apply step_lookup_target|done|done].
    + eapply IH; [|done|done]. by rewrite step_lookup_other.
Qed.

(** ** The start handler *)

Lemma api_start_accepts w id command tmo ospid now :
  id <> "" -> command <> "" ->
  exists w1,
    api_start (mkStartBody (Some id) (Some command) tmo) ospid now w
    = (w1, inr (length (w_heap w)))
    /\ w_heap w1 = w_heap w ++ [started_proc id tmo ospid]
    /\ w_processes w1
       = <[id := mkEntry (length (w_heap w)) running command now None None]>
           (w_processes w)
    /\ w_guardianState w1 = w_guardianState w
    /\ w_file w1
       = sr_file (patchProject id [("was_running_before_shutdown", JBool true)]
                               false now (w_file w)).
Proof.
  intros Hid Hcmd. unfold api_start. simpl.
  apply String.eqb_neq in Hid, Hcmd. rewrite Hid, Hcmd. simpl.
  set (w1 := match w_processes w !! id with
             | Some existing => _
             | None => w
             end).
  assert (w_heap w1 = w_heap w /\ w_processes w1 = w_processes w
          /\ w_guardianState w1 = w_guardianState w /\ w_file w1 = w_file w)
    as (Hh & Hp & Hg & Hf).
  { subst w1. destruct (w_processes w !! id) as [e|]; [|done].
    destruct (w_heap w !! e_proc e) as [p|]; [|done].
    by destruct (isRunning (p_child p)). }
  clearbody w1. eexists. split; [by rewrite Hh|]. simpl.
  rewrite ?Hh, ?Hp, ?Hg, ?Hf. done.
Qed.



(** *** The clock *)














(** ** Deleting a task *)

Lemma findIndex_None {A} (P : A -> bool) l :
  findIndex P l = None <-> (forall x, x ∈ l -> P x = false).
Proof.
  induction l as [|y l IH]; simpl.
  - split; [|done]. intros _ x Hx. by apply elem_of_nil in Hx.
  - destruct (P y) eqn:E.
    + split; [done|]. intros H. rewrite H in E; [done|left].
    + rewrite fmap_None, IH. split.
      * intros H x Hx. apply elem_of_cons in Hx as [->|Hx]; auto.
      * intros H x Hx. apply H. by right.
Qed.

Lemma findIndex_Some {A} (P : A -> bool) l i :
  findIndex P l = Some i -> exists x, l !! i = Some x /\ P x = true.
Proof.
  revert i. induction l as [|y l IH]; simpl; intros i; [done|].
  destruct (P y) eqn:E.
  - intros [= <-]. by exists y.
  - destruct (findIndex P l) as [j|]; simpl; [|done].
    intros [= <-]. by apply IH.
Qed.

Lemma strict_eq_str_true a s :
  strict_eq_str a s = true <-> a = Some (JStr s).
Proof.
  unfold strict_eq_str. destruct a as [[]|]; try (split; [done|congruence]).
  rewrite String.eqb_eq. split; congruence.
Qed.

Lemma delete_stored_absent id f :
  (forall p, p ∈ readProjectsFile f -> prop "id" p <> Some (JStr id)) ->
  delete_stored id f = no_write f.
Proof.
  intros H. unfold delete_stored.
  destruct (findIndex _ _) as [i|] eqn:E; [|done].
  apply findIndex_Some in E as (x & Hx & Hp).
  apply strict_eq_str_true in Hp.
  exfalso. eapply H; [|exact Hp]. by eapply list_elem_of_lookup_2.
Qed.

(** C10 (delete).  [DELETE /api/projects/:id] answers [{ok:true}] for every
    id and every state; afterwards the registry has no entry for the id.
    When no stored task has the id, the task file is left as it was and
    nothing is written.  When the registry holds an entry whose child is
    running, the child is tree-terminated with SIGTERM before the entry is
    removed. *)
Theorem delete_project_always_ok (id : string) (w : World) :
  exists tr,
    snd (api_delete id w) = mkResp 200 ok_true
    /\ w_trace (fst (api_delete id w)) = w_trace w ++ tr
    /\ w_processes (fst (api_delete id w)) !! id = None
    /\ ((forall p, p ∈ readProjectsFile (w_file w) ->
                   prop "id" p <> Some (JStr id)) ->
        w_file (fst (api_delete id w)) = w_file w
        /\ forall items, AWrite items ∉ tr)
    /\ (forall e p,
          w_processes w !! id = Some e -> w_heap w !! e_proc e = Some p ->
          isRunning (p_child p) = true ->
          exists rest,
            tr = ATreeKill (pid (p_child p)) "SIGTERM"
                   :: ARegistryDelete id :: rest).
Proof.
  unfold api_delete.
  set (w1 := match w_processes w !! id with
             | Some entry => _
             | None => w
             end).
  set (kill := match w_processes w !! id with
               | Some e =>
                   match w_heap w !! e_proc e with
                   | Some p =>
                       if isRunning (p_child p)
                       then [ATreeKill (pid (p_child p)) "SIGTERM"]
                       else []
                   | None => []
                   end
               | None => []
               end).
  assert (w_file w1 = w_file w /\ w_trace w1 = w_trace w ++ kill
          /\ w_processes w1 = w_processes w) as (Hf & Ht & Hp).
  { subst w1 kill. destruct (w_processes w !! id) as [e|];
      [|by rewrite app_nil_r].
    destruct (w_heap w !! e_proc e) as [p|]; [|by rewrite app_nil_r].
    destruct (isRunning (p_child p)); [done|by rewrite app_nil_r]. }
  clearbody w1.
  exists (kill ++ ARegistryDelete id
               :: map AWrite (sr_writes (delete_stored id (w_file w)))).
  simpl. rewrite Hf, Ht, Hp.
  split; [done|]. split; [by rewrite <- !app_assoc|].
  split; [apply lookup_delete_eq|]. split.
  - intros Habs. rewrite delete_stored_absent by done. simpl.
    split; [done|]. intros items Hin.
    apply elem_of_app in Hin as [Hin|Hin].
    + subst kill. destruct (w_processes w !! id) as [e|];
        [|by apply elem_of_nil in Hin].
      destruct (w_heap w !! e_proc e) as [p|]; [|by apply elem_of_nil in Hin].
      destruct (isRunning (p_child p)); [|by apply elem_of_nil in Hin].
      by apply list_elem_of_singleton in Hin.
    + apply elem_of_cons in Hin as [Hin|Hin]; [done|].
      by apply elem_of_nil in Hin.
  - intros e p He Hh Hr. subst kill. rewrite He, Hh, Hr. simpl. eauto.
Qed.

(** ** Clearing the logs *)

(** No route accepts [DELETE /api/projects/logs/:id]: the request gets the
    framework's 404 and the world, the log buffers included, is left as it
    was. *)
Lemma delete_logs_unrouted static id body now fresh w :
  serve static DELETE ["api"; "projects"; "logs"; id] body now fresh w
  = Some (w, mkResp 404 JNull).
Proof. unfold serve, route_of. by destruct static. Qed.

Lemma get_logs_routed static id body now fresh w :
  id <> "" ->
  serve static GET ["api"; "projects"; "logs"; id] body now fresh w
  = Some (w, api_logs id w).
Proof.
  intros Hid. apply String.eqb_neq in Hid.
  unfold serve, route_of. destruct static; simpl; by rewrite Hid.
Qed.

(** ** Trimming *)

Lemma trimStart_l_head l :
  match trimStart_l l with
  | [] => True
  | a :: _ => is_ws a = false
  end.
Proof.
  induction l as [|a l IH]; simpl; [done|].
  destruct (is_ws a) eqn:E; [done|]. by rewrite E.
Qed.

Lemma trimStart_l_fixed a l : is_ws a = false -> trimStart_l (a :: l) = a :: l.
Proof. intros H. simpl. by rewrite H. Qed.

Lemma trimStart_l_idemp l : trimStart_l (trimStart_l l) = trimStart_l l.
Proof.
  pose proof (trimStart_l_head l) as H.
  destruct (trimStart_l l) as [|a l']; [done|]. by apply trimStart_l_fixed.
Qed.

Lemma trimStart_l_snoc l a :
  is_ws a = false -> exists pre, trimStart_l (l ++ [a]) = pre ++ [a].
Proof.
  intros Ha. induction l as [|b l IH]; simpl.
  - exists []. by rewrite Ha.
  - destruct (is_ws b); [done|]. by exists (b :: l).
Qed.

Lemma trimEnd_l_idemp l : trimEnd_l (trimEnd_l l) = trimEnd_l l.
Proof.
  unfold trimEnd_l. by rewrite rev_involutive, trimStart_l_idemp.
Qed.

Lemma trimEnd_l_head a l :
  is_ws a = false -> exists l', trimEnd_l (a :: l) = a :: l'.
Proof.
  intros Ha. unfold trimEnd_l. simpl.
  destruct (trimStart_l_snoc (rev l) a Ha) as [pre ->].
  rewrite rev_app_distr. simpl. eauto.
Qed.

Lemma trim_l_idemp l : trim_l (trim_l l) = trim_l l.
Proof.
  unfold trim_l. pose proof (trimStart_l_head l) as H.
  destruct (trimStart_l l) as [|a x] eqn:E.
  - reflexivity.
  - destruct (trimEnd_l_head a x H) as [l' Hl']. rewrite Hl'.
    rewrite trimStart_l_fixed by done. rewrite <- Hl'. apply trimEnd_l_idemp.
Qed.

Lemma trim_idemp s : trim (trim s) = trim s.
Proof.
  unfold trim. by rewrite list_ascii_of_string_of_list_ascii, trim_l_idemp.
Qed.

(** The id the guardian derives from a task is unchanged by deriving it
    again from the string. *)
Lemma id_key_JStr_key p o :
  id_key p <> "" -> prop "id" (JObj o) = Some (JStr (id_key p)) ->
  id_key (JObj o) = id_key p.
Proof.
  intros Hne Ho. unfold id_key at 1. rewrite Ho. simpl.
  apply String.eqb_neq in Hne. rewrite Hne. simpl.
  unfold id_key. apply trim_idemp.
Qed.

(** ** Patching a stored task *)

Lemma obj_get_obj_set k k' v o :
  obj_get k (obj_set k' v o) = if String.eqb k' k then Some v else obj_get k o.
Proof.
  induction o as [|[k2 v2] o IH]; simpl.
  - done.
  - destruct (String.eqb k2 k') eqn:E1; simpl.
    + apply String.eqb_eq in E1. subst k2.
      by destruct (String.eqb k' k).
    + destruct (String.eqb k2 k) eqn:E2.
      * apply String.eqb_eq in E2. subst k2.
        by rewrite String.eqb_sym, E1.
      * apply IH.
Qed.

Lemma obj_get_spread_other k patch : forall o,
  obj_get k patch = None -> obj_get k (spread o patch) = obj_get k o.
Proof.
  unfold spread. induction patch as [|[k' v] patch IH]; simpl; intros o H.
  - done.
  - destruct (String.eqb k' k) eqn:E; [done|].
    rewrite IH by done. by rewrite obj_get_obj_set, E.
Qed.

Lemma obj_get_apply_patch_id patch skip now o :
  obj_get "id" patch = None ->
  obj_get "id" (apply_patch patch skip now o) = obj_get "id" o.
Proof.
  intros H. unfold apply_patch. destruct skip.
  - by apply obj_get_spread_other.
  - rewrite obj_get_obj_set. simpl. by apply obj_get_spread_other.
Qed.

Lemma task_view_sanitize o : task_view (sanitize (JObj o)) = task_view (JObj o).
Proof.
  unfold task_view, guard_config, autoRestart, manualStopped, wasRunning,
    maxRestarts, intervalSec, currentCount.
  by rewrite !prop_sanitize.
Qed.

Lemma valid_is_JObj p :
  is_object p = true -> id_key p <> "" -> exists o, p = JObj o.
Proof.
  intros Ho Hne. destruct p; simpl in Ho; try discriminate; [|eauto].
  exfalso. by apply Hne.
Qed.

(** *** Looking a task up by its id *)

Lemma find_key_elem_of k l x :
  List.find (fun p => String.eqb (id_key p) k) l = Some x ->
  x ∈ l /\ id_key x = k.
Proof.
  intros H. apply find_some in H as [Hin Hk].
  split; [by apply list_elem_of_In|by apply String.eqb_eq].
Qed.

Lemma find_key_intro k l x :
  NoDup (map id_key l) -> x ∈ l -> id_key x = k ->
  List.find (fun p => String.eqb (id_key p) k) l = Some x.
Proof.
  induction l as [|y l IH]; simpl; intros Hnd Hin Hk.
  - by apply elem_of_nil in Hin.
  - apply NoDup_cons in Hnd as [Hy Hnd].
    apply elem_of_cons in Hin as [->|Hin].
    + by rewrite Hk, String.eqb_refl.
    + destruct (String.eqb (id_key y) k) eqn:E; [|by apply IH].
      apply String.eqb_eq in E. exfalso. apply Hy.
      rewrite E, <- Hk. apply list_elem_of_In, in_map. by apply list_elem_of_In.
Qed.

Lemma find_key_None k l :
  List.find (fun p => String.eqb (id_key p) k) l = None ->
  forall x, x ∈ l -> id_key x <> k.
Proof.
  intros H x Hin Hk. apply list_elem_of_In in Hin.
  eapply find_none in H; [|exact Hin]. simpl in H.
  apply String.eqb_neq in H. done.
Qed.

Lemma find_key_insert_other k y : forall l idx,
  (forall x, l !! idx = Some x -> id_key x <> k) -> id_key y <> k ->
  List.find (fun p => String.eqb (id_key p) k) (<[idx := y]> l)
  = List.find (fun p => String.eqb (id_key p) k) l.
Proof.
  induction l as [|z l IH]; intros idx Hx Hy; [done|].
  destruct idx as [|idx]; simpl.
  - apply String.eqb_neq in Hy. rewrite Hy.
    specialize (Hx z eq_refl). apply String.eqb_neq in Hx. by rewrite Hx.
  - destruct (String.eqb (id_key z) k); [done|]. apply IH; [|done].
    intros x Hl. by apply Hx.
Qed.

Lemma find_key_insert_same k y : forall l idx x,
  NoDup (map id_key l) -> l !! idx = Some x -> id_key x = k -> id_key y = k ->
  List.find (fun p => String.eqb (id_key p) k) (<[idx := y]> l) = Some y.
Proof.
  induction l as [|z l IH]; intros idx x Hnd Hl Hx Hy; [done|].
  apply NoDup_cons in Hnd as [Hz Hnd].
  destruct idx as [|idx]; simpl in *.
  - by rewrite Hy, String.eqb_refl.
  - destruct (String.eqb (id_key z) k) eqn:E.
    + apply String.eqb_eq in E. exfalso. apply Hz. rewrite E, <- Hx.
      apply list_elem_of_In, in_map, list_elem_of_In.
      by eapply list_elem_of_lookup_2.
    + by eapply IH.
Qed.

Lemma find_key_map k (g : json -> json) : forall l,
  (forall p, p ∈ l -> id_key (g p) = id_key p) ->
  List.find (fun p => String.eqb (id_key p) k) (map g l)
  = g <$> List.find (fun p => String.eqb (id_key p) k) l.
Proof.
  induction l as [|z l IH]; intros H; simpl; [done|].
  rewrite H by left. destruct (String.eqb (id_key z) k); [done|].
  apply IH. intros p Hp. apply H. by right.
Qed.

Lemma stored_task_elem_of k f x :
  stored_task k f = Some x ->
  x ∈ readProjectsFile f /\ id_key x = k /\ exists o, x = JObj o.
Proof.
  intros H. apply find_key_elem_of in H as [Hin Hk].
  split; [done|]. split; [done|].
  pose proof (read_valid f) as Hv.
  eapply Forall_forall in Hv as [? ?]; [|exact Hin]. by apply valid_is_JObj.
Qed.

Lemma stored_task_intro k f x :
  x ∈ readProjectsFile f -> id_key x = k -> stored_task k f = Some x.
Proof. intros. apply find_key_intro; [apply read_NoDup|done|done]. Qed.

(** *** Where a patch lands *)

Lemma patch_misses id patch skip now f :
  (forall p, p ∈ readProjectsFile f -> prop "id" p <> Some (JStr id)) ->
  patchProject id patch skip now f = no_write f.
Proof.
  intros H. unfold patchProject.
  destruct (findIndex _ _) as [i|] eqn:E; [|done].
  apply findIndex_Some in E as (x & Hx & Hp).
  apply strict_eq_str_true in Hp.
  exfalso. eapply H; [|exact Hp]. by eapply list_elem_of_lookup_2.
Qed.

(** The task a patch for [id] is applied to has the id [trim id]. *)
Lemma id_key_of_target id o :
  obj_get "id" o = Some (JStr id) -> id_key (JObj o) <> "" ->
  id_key (JObj o) = trim id.
Proof.
  intros Ho Hne. unfold id_key in *. simpl in *. rewrite Ho in *. simpl in *.
  destruct (String.eqb id "") eqn:E; simpl in *; [|done].
  apply String.eqb_eq in E. by subst.
Qed.

Lemma patch_lands id patch skip now f idx :
  obj_get "id" patch = None ->
  findIndex (fun p => strict_eq_str (prop "id" p) id) (readProjectsFile f)
  = Some idx ->
  exists o,
    readProjectsFile f !! idx = Some (JObj o)
    /\ obj_get "id" o = Some (JStr id)
    /\ id_key (JObj o) = trim id
    /\ patchProject id patch skip now f
       = do_write (<[idx := JObj (apply_patch patch skip now o)]>
                     (readProjectsFile f))
    /\ readProjectsFile (sr_file (patchProject id patch skip now f))
       = written (<[idx := JObj (apply_patch patch skip now o)]>
                    (readProjectsFile f)).
Proof.
  intros Hpatch Hfind.
  pose proof Hfind as Hfind'.
  apply findIndex_Some in Hfind' as (x & Hx & Hp).
  apply strict_eq_str_true in Hp.
  pose proof (read_valid f) as Hv. pose proof (read_NoDup f) as Hnd.
  assert (x ∈ readProjectsFile f) as Hin by (by eapply list_elem_of_lookup_2).
  pose proof Hv as Hv'. eapply Forall_forall in Hv' as [Hobj Hne]; [|exact Hin].
  destruct (valid_is_JObj x Hobj Hne) as [o ->]. simpl in Hp.
  exists o. split; [done|]. split; [done|].
  split; [by apply id_key_of_target|].
  assert (patchProject id patch skip now f
          = do_write (<[idx := JObj (apply_patch patch skip now o)]>
                        (readProjectsFile f))) as Heq.
  { unfold patchProject. by rewrite Hfind, Hx. }
  split; [done|]. rewrite Heq. simpl sr_file.
  assert (id_key (JObj (apply_patch patch skip now o)) = id_key (JObj o)) as Hk.
  { unfold id_key. simpl. by rewrite obj_get_apply_patch_id. }
  apply read_after_write.
  - apply Forall_forall. intros y Hy.
    apply list_elem_of_lookup in Hy as [j Hj].
    destruct (decide (j = idx)) as [->|Hne'].
    + rewrite list_lookup_insert_eq in Hj by (by eapply lookup_lt_Some).
      injection Hj as <-. split; [done|]. by rewrite Hk.
    + rewrite list_lookup_insert_ne in Hj by done.
      eapply Forall_forall in Hv; [exact Hv|]. by eapply list_elem_of_lookup_2.
  - assert (map id_key (<[idx := JObj (apply_patch patch skip now o)]>
                          (readProjectsFile f))
            = map id_key (readProjectsFile f)) as ->; [|done].
    change (map id_key) with (fmap (M := list) id_key).
    rewrite list_fmap_insert, Hk. apply list_insert_id.
    by rewrite list_lookup_fmap, Hx.
Qed.

(** A patch for [id] leaves what is read of every task with another id as
    it was. *)
Lemma patch_other_view id patch skip now f k :
  obj_get "id" patch = None -> k <> trim id ->
  task_view <$> stored_task k (sr_file (patchProject id patch skip now f))
  = task_view <$> stored_task k f.
Proof.
  intros Hpatch Hk.
  destruct (findIndex (fun p => strict_eq_str (prop "id" p) id)
              (readProjectsFile f)) as [idx|] eqn:Hfind.
  - destruct (patch_lands id patch skip now f idx Hpatch Hfind)
      as (o & Hx & Ho & Hkey & _ & Hread).
    unfold stored_task. rewrite Hread. unfold written.
    assert (id_key (JObj (apply_patch patch skip now o)) = trim id) as Hkey'.
    { rewrite <- Hkey. unfold id_key. simpl. by rewrite obj_get_apply_patch_id. }
    pose proof (read_valid f) as Hv.
    rewrite find_key_map.
    + rewrite find_key_insert_other.
      * destruct (List.find _ (readProjectsFile f)) as [x|] eqn:E; [|done].
        apply (stored_task_elem_of k f x) in E as (_ & _ & o' & ->).
        simpl. by rewrite task_view_sanitize.
      * intros x Hx'. rewrite Hx in Hx'. injection Hx' as <-. congruence.
      * congruence.
    + intros p Hp. apply list_elem_of_lookup in Hp as [j Hj].
      destruct (decide (j = idx)) as [->|Hne'].
      * rewrite list_lookup_insert_eq in Hj by (by eapply lookup_lt_Some).
        injection Hj as <-. apply id_key_sanitize; [done|].
        rewrite Hkey', <- Hkey.
        eapply Forall_forall in Hv as [_ ?]; [done|].
        by eapply list_elem_of_lookup_2.
      * rewrite list_lookup_insert_ne in Hj by done.
        eapply Forall_forall in Hv as [? ?];
          [|by eapply list_elem_of_lookup_2].
        by apply id_key_sanitize.
  - unfold patchProject. by rewrite Hfind.
Qed.

(** A patch for the id a task is stored under is applied to that task. *)
Lemma patch_own_task id patch skip now f o :
  obj_get "id" patch = None ->
  stored_task (trim id) f = Some (JObj o) ->
  obj_get "id" o = Some (JStr id) ->
  stored_task (trim id) (sr_file (patchProject id patch skip now f))
  = Some (sanitize (JObj (apply_patch patch skip now o))).
Proof.
  intros Hpatch Hst Hid.
  apply stored_task_elem_of in Hst as (Hin & Hkey & _).
  destruct (findIndex (fun p => strict_eq_str (prop "id" p) id)
              (readProjectsFile f)) as [idx|] eqn:Hfind.
  - destruct (patch_lands id patch skip now f idx Hpatch Hfind)
      as (o' & Hx & Ho' & Hkey' & _ & Hread).
    assert (JObj o' = JObj o) as Heq.
    { assert (stored_task (trim id) f = Some (JObj o')) as H1.
      { apply stored_task_intro; [by eapply list_elem_of_lookup_2|done]. }
      assert (stored_task (trim id) f = Some (JObj o)) as H2.
      { by apply stored_task_intro. }
      congruence. }
    injection Heq as ->.
    unfold stored_task. rewrite Hread. unfold written.
    pose proof (read_valid f) as Hv.
    assert (id_key (JObj (apply_patch patch skip now o)) = trim id) as Hk2.
    { rewrite <- Hkey. unfold id_key. simpl. by rewrite obj_get_apply_patch_id. }
    rewrite find_key_map.
    + erewrite find_key_insert_same; [done|apply read_NoDup|exact Hx|done|done].
    + intros p Hp. apply list_elem_of_lookup in Hp as [j Hj].
      destruct (decide (j = idx)) as [->|Hne'].
      * rewrite list_lookup_insert_eq in Hj by (by eapply lookup_lt_Some).
        injection Hj as <-. apply id_key_sanitize; [done|].
        rewrite Hk2, <- Hkey.
        eapply Forall_forall in Hv as [_ ?]; [done|exact Hin].
      * rewrite list_lookup_insert_ne in Hj by done.
        eapply Forall_forall in Hv as [? ?];
          [|by eapply list_elem_of_lookup_2].
        by apply id_key_sanitize.
  - exfalso. eapply findIndex_None in Hfind; [|exact Hin].
    simpl in Hfind. rewrite Hid in Hfind. simpl in Hfind.
    by rewrite String.eqb_refl in Hfind.
Qed.

(** A task whose stored id is not the very string a patch looks for is not
    reached by the patch, and nothing else is: the file is not written. *)
Lemma patch_misses_uncanonical id patch skip now f x :
  stored_task (trim id) f = Some x ->
  prop "id" x <> Some (JStr id) ->
  patchProject id patch skip now f = no_write f.
Proof.
  intros Hst Hid. apply patch_misses. intros p Hp Hpid.
  apply stored_task_elem_of in Hst as (Hin & Hkey & _).
  pose proof (read_valid f) as Hv.
  eapply Forall_forall in Hv as [Hobj Hne']; [|exact Hp].
  destruct (valid_is_JObj p Hobj Hne') as [o ->]. simpl in Hpid.
  assert (id_key (JObj o) = trim id) as Hk by (by apply id_key_of_target).
  assert (stored_task (trim id) f = Some (JObj o)) as H1
    by (by apply stored_task_intro).
  assert (stored_task (trim id) f = Some x) as H2 by (by apply stored_task_intro).
  assert (x = JObj o) as -> by congruence. by apply Hid.
Qed.

Lemma patch_misses_absent id patch skip now f :
  stored_task (trim id) f = None ->
  patchProject id patch skip now f = no_write f.
Proof.
  intros Hst. apply patch_misses. intros p Hp Hpid.
  pose proof (read_valid f) as Hv.
  eapply Forall_forall in Hv as [Hobj Hne']; [|exact Hp].
  destruct (valid_is_JObj p Hobj Hne') as [o ->]. simpl in Hpid.
  assert (id_key (JObj o) = trim id) as Hk by (by apply id_key_of_target).
  assert (stored_task (trim id) f = Some (JObj o)) as H1
    by (by apply stored_task_intro).
  congruence.
Qed.

(** A patch for [id] either reaches the task stored under [trim id], when
    the stored id is the string [id] itself, or reaches nothing. *)
Lemma patch_cases id patch skip now f x :
  stored_task (trim id) f = Some x -> obj_get "id" patch = None ->
  (prop "id" x <> Some (JStr id)
   /\ patchProject id patch skip now f = no_write f)
  \/ (exists o,
        x = JObj o /\ obj_get "id" o = Some (JStr id)
        /\ stored_task (trim id) (sr_file (patchProject id patch skip now f))
           = Some (sanitize (JObj (apply_patch patch skip now o)))).
Proof.
  intros Hst Hpatch. pose proof Hst as Hst'.
  apply stored_task_elem_of in Hst' as (_ & _ & o & ->).
  destruct (strict_eq_str (obj_get "id" o) id) eqn:E.
  - apply strict_eq_str_true in E as Hid. right. exists o.
    split; [done|]. split; [done|]. by apply patch_own_task.
  - assert (prop "id" (JObj o) <> Some (JStr id)) as Hid.
    { intros Hid. apply strict_eq_str_true in Hid. cbn in Hid. congruence. }
    left. split; [done|]. by eapply patch_misses_uncanonical.
Qed.

(** ** The registry under events and attempts *)

Lemma p_child_respondFail m c s p : p_child (respondFail m c s p) = p_child p.
Proof. unfold respondFail. by destruct (p_responded p). Qed.

Lemma p_child_respondOk p : p_child (respondOk p) = p_child p.
Proof. unfold respondOk. by destruct (p_responded p). Qed.

Lemma isRunning_set_exitCode c p :
  isRunning (p_child (set_exitCode (Some c) p)) = false.
Proof. reflexivity. Qed.

Lemma on_event_running_mono ev p :
  isRunning (p_child (on_event ev p)) = true -> isRunning (p_child p) = true.
Proof.
  destruct ev; cbn [on_event].
  - intros H. exact H.
  - intros H. exact H.
  - destruct (p_origin p); rewrite ?p_child_respondFail, isRunning_set_exitCode;
      intros H; discriminate H.
  - destruct st.
    + destruct (p_origin p).
      * destruct (p_responded (set_exitCode (Some code) p));
          rewrite ?p_child_respondFail, isRunning_set_exitCode;
          intros H; discriminate H.
      * rewrite isRunning_set_exitCode. intros H; discriminate H.
    + destruct (p_origin p); [|intros H; exact H].
      destruct (p_responded p); rewrite ?p_child_respondFail; intros H; exact H.
  - destruct (p_origin p); [|intros H; exact H].
    destruct (p_responded p); [intros H; exact H|].
    destruct (isRunning (p_child p)) eqn:E; [reflexivity|].
    rewrite p_child_respondFail, E. intros H; exact H.
Qed.

Lemma step_running_mono ev w k :
  isTaskRunning k (step ev w) = true -> isTaskRunning k w = true.
Proof.
  unfold isTaskRunning.
  pose proof (step_entry_proc ev w k) as He.
  destruct (w_processes (step ev w) !! k) as [e'|] eqn:E'; [|done].
  destruct (w_processes w !! k) as [e|] eqn:E; [|done].
  simpl in He. injection He as He. rewrite He.
  destruct (decide (target ev = e_proc e)) as [Ht|Ht].
  - rewrite <- Ht. destruct (w_heap w !! target ev) as [p|] eqn:Hp.
    + rewrite (step_lookup_target ev w p Hp). apply (on_event_running_mono ev).
    + unfold step. by rewrite Hp, Hp.
  - by rewrite step_lookup_other.
Qed.

Lemma step_wf ev w : registry_wf w -> registry_wf (step ev w).
Proof.
  intros Hwf id e' He'. rewrite step_heap_length.
  pose proof (step_entry_proc ev w id) as He. rewrite He' in He.
  destruct (w_processes w !! id) as [e|] eqn:E; [|done].
  simpl in He. injection He as ->. by eapply Hwf.
Qed.

Lemma run_events_file evs : forall w, w_file (run_events evs w) = w_file w.
Proof.
  induction evs as [|ev evs IH]; intros w; simpl; [done|].
  unfold run_events in IH. by rewrite IH, step_file.
Qed.

Lemma run_events_guardianState evs : forall w,
  w_guardianState (run_events evs w) = w_guardianState w.
Proof.
  induction evs as [|ev evs IH]; intros w; simpl; [done|].
  unfold run_events in IH. by rewrite IH, step_guardianState.
Qed.

Lemma run_events_trace evs : forall w, w_trace (run_events evs w) = w_trace w.
Proof.
  induction evs as [|ev evs IH]; intros w; simpl; [done|].
  unfold run_events in IH. by rewrite IH, step_trace.
Qed.

Lemma run_events_wf evs : forall w,
  registry_wf w -> registry_wf (run_events evs w).
Proof.
  induction evs as [|ev evs IH]; intros w Hwf; simpl; [done|].
  by apply IH, step_wf.
Qed.

Lemma run_events_running_mono evs k : forall w,
  isTaskRunning k (run_events evs w) = true -> isTaskRunning k w = true.
Proof.
  induction evs as [|ev evs IH]; intros w H; simpl in *; [done|].
  apply (step_running_mono ev). by apply IH.
Qed.

Lemma waitForRunning_spec id n : forall sleeps w,
  exists evs,
    snd (waitForRunning id n sleeps w) = run_events evs w
    /\ (fst (waitForRunning id n sleeps w) = false ->
        isTaskRunning id (run_events evs w) = false).
Proof.
  induction n as [|n IH]; intros sleeps w; simpl.
  - exists []. by split.
  - destruct (isTaskRunning id w) eqn:E.
    + exists []. by split.
    + destruct (IH (tail sleeps) (run_events (hd [] sleeps) w)) as [evs [H1 H2]].
      exists (hd [] sleeps ++ evs). rewrite run_events_app. by split.
Qed.

Lemma attempts_of_app k tr1 tr2 :
  attempts_of k (tr1 ++ tr2) = attempts_of k tr1 ++ attempts_of k tr2.
Proof. unfold attempts_of. apply omap_app. Qed.

Lemma attempts_of_writes k ws : attempts_of k (map AWrite ws) = [].
Proof. induction ws as [|x ws IH]; simpl; done. Qed.

Lemma guardianAttemptStart_cases env p w :
  guardianAttemptStart env p w = (false, w)
  \/ (guardianAttemptStart env p w = (true, w)
      /\ isTaskRunning (id_key p) w = true)
  \/ (isTaskRunning (id_key p) w = false
      /\ exists command,
           guardianAttemptStart env p w
           = waitForRunning (id_key p) guardian_attempts
               (te_sleeps env (id_key p))
               (spawned_world env (id_key p) command w)).
Proof.
  unfold guardianAttemptStart.
  destruct (_ || _ || _)%bool; [by left|].
  destruct (isTaskRunning (id_key p) w) eqn:E; [right; by left|].
  right. right. split; [done|]. eexists. reflexivity.
Qed.

(** What an attempt leaves untouched: the store, the guardian's state, the
    log of attempts, and the tasks with another id. *)
Lemma attempt_frame env p w :
  let w1 := snd (guardianAttemptStart env p w) in
  let ok := fst (guardianAttemptStart env p w) in
  w_file w1 = w_file w
  /\ w_guardianState w1 = w_guardianState w
  /\ (forall k, attempts_of k (w_trace w1) = attempts_of k (w_trace w))
  /\ (registry_wf w -> registry_wf w1)
  /\ (forall k, k <> id_key p -> registry_wf w ->
                isTaskRunning k w1 = true -> isTaskRunning k w = true)
  /\ (ok = false -> isTaskRunning (id_key p) w = false ->
      isTaskRunning (id_key p) w1 = false).
Proof.
  destruct (guardianAttemptStart_cases env p w)
    as [->|[[-> Hr]|[Hr [command ->]]]]; cbn zeta.
  - by repeat split.
  - by repeat split.
  - set (w2 := spawned_world env (id_key p) command w).
    destruct (waitForRunning_spec (id_key p) guardian_attempts
                (te_sleeps env (id_key p)) w2) as [evs [Hw Hok]].
    rewrite Hw.
    assert (registry_wf w -> registry_wf w2) as Hwf2.
    { intros Hwf id e He. subst w2. unfold spawned_world in *.
      cbn [w_heap w_processes with_processes with_heap log] in *.
      rewrite length_app. cbn [length].
      destruct (decide (id = id_key p)) as [->|Hne].
      - rewrite lookup_insert_eq in He. injection He as <-.
        cbn [e_proc]. lia.
      - rewrite lookup_insert_ne in He by done. apply Hwf in He. lia. }
    split; [by rewrite run_events_file|].
    split; [by rewrite run_events_guardianState|].
    split.
    { intros k. rewrite run_events_trace. subst w2. unfold spawned_world.
      cbn [w_trace with_processes with_heap log].
      rewrite attempts_of_app. cbn. by rewrite app_nil_r. }
    split; [intros Hwf; by apply run_events_wf, Hwf2|].
    split.
    + intros k Hk Hwf Hrun. apply run_events_running_mono in Hrun.
      subst w2. unfold isTaskRunning, spawned_world in *.
      cbn [w_heap w_processes with_processes with_heap log] in *.
      rewrite lookup_insert_ne in Hrun by done.
      destruct (w_processes w !! k) as [e|] eqn:E; [|done].
      apply Hwf in E. by rewrite lookup_app_l in Hrun.
    + intros Hfalse _. by apply Hok.
Qed.

(** ** One task in one tick *)

Lemma kframe_refl k w : kframe k w w.
Proof. by repeat split. Qed.

Lemma kframe_trans k w1 w2 w3 :
  kframe k w1 w2 -> kframe k w2 w3 -> kframe k w1 w3.
Proof.
  intros (Hwf1 & Hv1 & Hg1 & Ha1 & Hr1) (Hwf2 & Hv2 & Hg2 & Ha2 & Hr2).
  split; [auto|]. split; [congruence|]. split; [congruence|].
  split; [congruence|]. auto.
Qed.

Lemma step_kframe k ev w : kframe k w (step ev w).
Proof.
  split; [apply step_wf|]. split; [by rewrite step_file|].
  split; [by rewrite step_guardianState|]. split; [by rewrite step_trace|].
  intros _. apply step_running_mono.
Qed.

Lemma id_key_trim p : trim (id_key p) = id_key p.
Proof. unfold id_key. apply trim_idemp. Qed.

(** A task with another id is not affected by the visit of [p]. *)
Lemma guardian_item_other env w p k :
  id_key p <> k -> kframe k w (guardian_item env w p).
Proof.
  intros Hk. unfold guardian_item.
  destruct (negb (is_object p)); [apply kframe_refl|].
  destruct (String.eqb (id_key p) ""); [apply kframe_refl|].
  assert (kframe k w (with_guardianState
                        (delete (id_key p) (w_guardianState w)) w))
    as Hdel.
  { repeat split; try done. cbn. by rewrite lookup_delete_ne. }
  destruct (_ || _ || _)%bool; [by apply Hdel|].
  destruct (_ && _)%bool; [apply kframe_refl|].
  destruct (isTaskRunning (id_key p) w); [by apply Hdel|].
  destruct (_ <? _)%Z; [apply kframe_refl|].
  destruct (attempt_frame env p w) as (Hf & Hg & Ha & Hwf & Hrun & _).
  destruct (guardianAttemptStart env p w) as [ok w1]. simpl in *.
  assert (forall patch g,
            obj_get "id" patch = None ->
            g !! k = w_guardianState w !! k ->
            kframe k w
              (store_apply
                 (patchProject (id_key p) patch false (te_iso env)
                    (w_file (with_guardianState g
                               (log (AAttempt (id_key p) (te_now env) ok) w1))))
                 (with_guardianState g
                    (log (AAttempt (id_key p) (te_now env) ok) w1))))
    as Hpatch.
  { intros patch g Hp Hgk. split; [intros Hw; apply Hwf in Hw; exact Hw|].
    split.
    { simpl. rewrite Hf. apply patch_other_view; [done|].
      rewrite id_key_trim. congruence. }
    split; [done|]. split.
    { simpl. rewrite !attempts_of_app, attempts_of_writes, app_nil_r, Ha.
      simpl. apply String.eqb_neq in Hk. rewrite Hk. by rewrite app_nil_r. }
    intros Hw Hr. apply Hrun; [congruence|done|]. exact Hr. }
  destruct ok.
  - apply Hpatch; [done|]. simpl. by rewrite lookup_delete_ne, Hg.
  - apply Hpatch; [done|]. simpl. by rewrite lookup_insert_ne, Hg.
Qed.

Lemma guardian_items_other env k ps : forall w,
  (forall p, p ∈ ps -> id_key p <> k) ->
  kframe k w (fold_left (guardian_item env) ps w).
Proof.
  induction ps as [|p ps IH]; intros w H; simpl; [apply kframe_refl|].
  eapply kframe_trans.
  - apply guardian_item_other. apply H. left.
  - apply IH. intros q Hq. apply H. by right.
Qed.

(** What the visit of a task does about the task itself: either no attempt
    is made, and then the guardian's state is kept (the task is held back
    by the cap or by its next-attempt time) or cleared (the task is not
    eligible, or is running); or an attempt is made and its outcome is
    recorded. *)
Lemma guardian_item_own env w p :
  is_object p = true -> id_key p <> "" ->
  let k := id_key p in
  let c := guard_config p in
  let w' := guardian_item env w p in
  (attempts_of k (w_trace w') = attempts_of k (w_trace w)
   /\ w_file w' = w_file w /\ w_heap w' = w_heap w
   /\ w_processes w' = w_processes w
   /\ ((w_guardianState w' = w_guardianState w
        /\ (eligible c = true -> isTaskRunning k w = false ->
            capped p = true
            \/ (te_now env < default 0 (w_guardianState w !! k))%Z))
       \/ (w_guardianState w' = delete k (w_guardianState w)
           /\ (eligible c = false \/ isTaskRunning k w = true))))
  \/ (exists ok,
        attempts_of k (w_trace w') = attempts_of k (w_trace w) ++ [(te_now env, ok)]
        /\ eligible c = true /\ capped p = false
        /\ isTaskRunning k w = false
        /\ (default 0 (w_guardianState w !! k) <= te_now env)%Z
        /\ (registry_wf w -> registry_wf w')
        /\ (ok = true ->
            w_guardianState w' !! k = None
            /\ w_file w'
               = sr_file (patchProject k (success_patch (te_iso env)) false
                                       (te_iso env) (w_file w)))
        /\ (ok = false ->
            w_guardianState w' !! k = Some (te_now env + backoff_ms c)%Z
            /\ isTaskRunning k w' = false
            /\ w_file w'
               = sr_file (patchProject k
                            [("restart_count", JNum (currentCount p + 1))]
                            false (te_iso env) (w_file w)))).
Proof.
  intros Hobj Hne. cbn zeta. unfold guardian_item.
  rewrite Hobj. cbn [negb]. apply String.eqb_neq in Hne as Hne'.
  rewrite Hne'.
  set (k := id_key p). set (c := guard_config p).
  assert (eligible c = negb (negb (autoRestart p) || manualStopped p
                             || negb (wasRunning p))) as Hel.
  { unfold eligible, c, guard_config. cbn.
    by destruct (autoRestart p), (manualStopped p), (wasRunning p). }
  destruct (_ || _ || _)%bool eqn:Eel.
  { left. repeat split; try done. right. split; [done|]. left.
    by rewrite Hel. }
  cbn [negb] in Hel. fold (capped p).
  destruct (capped p) eqn:Ecap.
  { left. repeat split; try done. left. split; [done|]. intros _ _. by left. }
  destruct (isTaskRunning k w) eqn:Erun.
  { left. repeat split; try done. right. split; [done|]. by right. }
  destruct (_ <? _)%Z eqn:Enext.
  { left. repeat split; try done. left. split; [done|]. intros _ _. right. lia. }
  right.
  destruct (attempt_frame env p w) as (Hf & Hg & Ha & Hwf & _ & Hfail).
  fold k in Hfail.
  destruct (guardianAttemptStart env p w) as [ok w1].
  cbn [fst snd] in *.
  exists ok.
  assert (forall r g,
            attempts_of k
              (w_trace (store_apply r
                          (with_guardianState g
                             (log (AAttempt k (te_now env) ok) w1))))
            = attempts_of k (w_trace w) ++ [(te_now env, ok)]) as Htr.
  { intros r g. cbn [w_trace store_apply with_guardianState log].
    rewrite !attempts_of_app, attempts_of_writes, app_nil_r, Ha. cbn.
    by rewrite String.eqb_refl. }
  destruct ok.
  - split; [apply Htr|]. split; [done|]. split; [done|]. split; [done|].
    split; [lia|]. split; [done|]. split; [|done].
    intros _. cbn. rewrite lookup_delete_eq, Hf. done.
  - split; [apply Htr|]. split; [done|]. split; [done|]. split; [done|].
    split; [lia|]. split; [done|]. split; [done|].
    intros _. cbn. rewrite lookup_insert_eq, Hf. split; [done|].
    split; [|done]. by apply Hfail.
Qed.

(** *** One tick, seen from one task *)

Lemma find_key_split k : forall l x,
  NoDup (map id_key l) ->
  List.find (fun p => String.eqb (id_key p) k) l = Some x ->
  exists pre post,
    l = pre ++ x :: post
    /\ (forall p, p ∈ pre -> id_key p <> k)
    /\ (forall p, p ∈ post -> id_key p <> k).
Proof.
  induction l as [|y l IH]; intros x Hnd Hf; simpl in *; [done|].
  apply NoDup_cons in Hnd as [Hy Hnd].
  destruct (String.eqb (id_key y) k) eqn:E.
  - injection Hf as <-. apply String.eqb_eq in E.
    exists [], l. split; [done|]. split.
    + intros p Hp. by apply elem_of_nil in Hp.
    + intros p Hp Hk. apply Hy. rewrite E, <- Hk.
      apply list_elem_of_In, in_map. by apply list_elem_of_In.
  - destruct (IH x Hnd Hf) as (pre & post & -> & Hpre & Hpost).
    exists (y :: pre), post. split; [done|]. split; [|done].
    intros p Hp. apply elem_of_cons in Hp as [->|Hp]; [|by apply Hpre].
    by apply String.eqb_neq.
Qed.

(** A tick visits the task stored under [k] once, as it was read at the
    start of the tick; before and after that visit nothing changes for
    [k]. *)
Lemma guardian_tick_visits env w k x :
  stored_task k (w_file w) = Some x ->
  exists wa,
    kframe k w wa
    /\ kframe k (guardian_item env wa x) (guardian_tick env w).
Proof.
  intros Hst. unfold stored_task in Hst.
  destruct (find_key_split k _ x (read_NoDup (w_file w)) Hst)
    as (pre & post & Hitems & Hpre & Hpost).
  unfold guardian_tick. rewrite Hitems, fold_left_app. simpl.
  exists (fold_left (guardian_item env) pre w). split.
  - by apply guardian_items_other.
  - by apply guardian_items_other.
Qed.

Lemma guardian_tick_absent env w k :
  stored_task k (w_file w) = None -> kframe k w (guardian_tick env w).
Proof.
  intros Hst. unfold guardian_tick. apply guardian_items_other.
  by apply find_key_None.
Qed.

(** ** What the guardian's patches change *)

Lemma stored_task_valid k f x :
  stored_task k f = Some x -> is_object x = true /\ id_key x = k /\ k <> "".
Proof.
  intros H. apply stored_task_elem_of in H as (Hin & Hk & _).
  pose proof (read_valid f) as Hv.
  eapply Forall_forall in Hv as [? ?]; [|exact Hin].
  split; [done|]. split; [done|]. congruence.
Qed.

Lemma kframe_stored k w w' x :
  kframe k w w' -> stored_task k (w_file w) = Some x ->
  exists x', stored_task k (w_file w') = Some x' /\ task_view x' = task_view x.
Proof.
  intros (_ & Hv & _) Hst. rewrite Hst in Hv.
  destruct (stored_task k (w_file w')) as [x'|]; [|done].
  exists x'. split; [done|].
  unfold fmap, option_fmap, option_map in Hv. congruence.
Qed.

(** The guardian's patch for [k] either reaches the task stored under [k],
    when the stored id is the string [k] itself, or reaches nothing. *)
Lemma guardian_patch_cases k patch iso f x :
  stored_task k f = Some x -> obj_get "id" patch = None ->
  (prop "id" x <> Some (JStr k)
   /\ patchProject k patch false iso f = no_write f)
  \/ (exists o,
        x = JObj o /\ obj_get "id" o = Some (JStr k)
        /\ stored_task k (sr_file (patchProject k patch false iso f))
           = Some (sanitize (JObj (apply_patch patch false iso o)))).
Proof.
  intros Hst Hpatch.
  destruct (stored_task_valid k f x Hst) as (Hobj & Hk & Hne).
  assert (trim k = k) as Htrim by (rewrite <- Hk; apply id_key_trim).
  rewrite <- Htrim in Hst.
  destruct (patch_cases k patch false iso f x Hst Hpatch) as [H|H].
  - by left.
  - right. by rewrite Htrim in H.
Qed.

Lemma view_after_count_patch o c iso :
  task_view (sanitize (JObj (apply_patch [("restart_count", JNum c)] false iso o)))
  = mkTaskView (guard_config (JObj o)) c (obj_get "id" o)
               (obj_get "manual_stopped" o) (Some (JNum c)) (Some (JStr iso)).
Proof.
  rewrite task_view_sanitize.
  unfold task_view, guard_config, autoRestart, manualStopped, wasRunning,
    maxRestarts, intervalSec, currentCount, apply_patch, spread, prop.
  cbn [fold_left fst snd]. rewrite !obj_get_obj_set. reflexivity.
Qed.

Lemma view_after_success_patch o iso :
  eligible (guard_config (JObj o)) = true ->
  task_view (sanitize (JObj (apply_patch (success_patch iso) false iso o)))
  = mkTaskView (guard_config (JObj o)) 0 (obj_get "id" o)
               (Some (JBool false)) (Some (JNum 0)) (Some (JStr iso)).
Proof.
  intros Hel. rewrite task_view_sanitize.
  unfold eligible, guard_config in Hel. cbn in Hel.
  apply andb_prop in Hel as [Hel Hwas]. apply andb_prop in Hel as [_ Hman].
  apply negb_true_iff in Hman.
  unfold task_view, guard_config, apply_patch, spread, success_patch.
  unfold autoRestart, maxRestarts, intervalSec, currentCount, prop.
  unfold manualStopped, wasRunning, prop in *.
  cbn [fold_left fst snd]. rewrite !obj_get_obj_set. cbn.
  by rewrite Hman, Hwas.
Qed.

(** ** Guardian suppression *)

Lemma manual_stop_kframe k w w' :
  kframe k w w' -> manual_stop_inv k w -> manual_stop_inv k w'.
Proof.
  intros Hk (x & Hst & Hm).
  destruct (kframe_stored k w w' x Hk Hst) as (x' & Hst' & Hv).
  exists x'. split; [done|].
  change (tv_manual_stopped (task_view x') = Some (JBool true)).
  rewrite Hv. exact Hm.
Qed.

Lemma manual_stop_tick env w k :
  manual_stop_inv k w ->
  manual_stop_inv k (guardian_tick env w)
  /\ attempts_of k (w_trace (guardian_tick env w)) = attempts_of k (w_trace w).
Proof.
  intros Hinv. pose proof Hinv as (x & Hst & Hm).
  destruct (guardian_tick_visits env w k x Hst) as (wa & Hwa & Hend).
  destruct (stored_task_valid k _ x Hst) as (Hobj & Hk & Hne).
  assert (eligible (guard_config x) = false) as Hnel.
  { unfold eligible, guard_config, manualStopped. cbn. rewrite Hm. cbn.
    by rewrite andb_false_r. }
  assert (id_key x <> "") as Hne' by congruence.
  destruct (guardian_item_own env wa x Hobj Hne')
    as [(Ha & Hf & _)|(ok & _ & Hel & _)]; [|congruence].
  rewrite Hk in Ha.
  assert (manual_stop_inv k (guardian_item env wa x)) as Hmid.
  { apply (manual_stop_kframe k w wa Hwa) in Hinv.
    destruct Hinv as (xa & Hsta & Hma). exists xa. by rewrite Hf. }
  split; [by eapply manual_stop_kframe|].
  destruct Hwa as (_ & _ & _ & Ha1 & _). destruct Hend as (_ & _ & _ & Ha2 & _).
  congruence.
Qed.

(** C3 (guardian suppression).  In any run of guardian ticks and child
    events, however long, the guardian makes no restart attempt for a task
    whose stored [manual_stopped] is [true] -- whatever its [auto_restart],
    its [restart_count] and the next-attempt time kept for it. *)
Theorem guardian_respects_manual_stop (steps : list GStep) (w : World)
    (k : string) (x : json) :
  stored_task k (w_file w) = Some x ->
  prop "manual_stopped" x = Some (JBool true) ->
  attempts_of k (w_trace (guardian_run steps w)) = attempts_of k (w_trace w).
Proof.
  intros Hst Hm.
  assert (manual_stop_inv k w) as Hinv by (by exists x).
  clear Hst Hm. revert w Hinv.
  induction steps as [|s steps IH]; intros w Hinv; [done|].
  cbn [guardian_run fold_left]. fold (guardian_run steps (gstep w s)).
  destruct s as [env|ev]; cbn [gstep].
  - destruct (manual_stop_tick env w k Hinv) as [Hinv' Ha].
    rewrite IH by done. exact Ha.
  - rewrite IH.
    + by rewrite step_trace.
    + eapply manual_stop_kframe; [apply step_kframe|done].
Qed.

(** ** Worlds that differ in neither children nor registry *)

Lemma isTaskRunning_ext k w w' :
  w_heap w' = w_heap w -> w_processes w' = w_processes w ->
  isTaskRunning k w' = isTaskRunning k w.
Proof. intros Hh Hp. unfold isTaskRunning. by rewrite Hh, Hp. Qed.

Lemma registry_wf_ext w w' :
  w_heap w' = w_heap w -> w_processes w' = w_processes w ->
  registry_wf w -> registry_wf w'.
Proof. intros Hh Hp Hwf id e He. rewrite Hh. rewrite Hp in He. by eapply Hwf. Qed.
(** ** The cap on consecutive failures *)

Lemma streaks_snoc l a : streaks (l ++ [a]) = streak_step (streaks l) a.
Proof. unfold streaks. by rewrite fold_left_app. Qed.

Lemma trailing_failures_fail l t :
  trailing_failures (l ++ [(t, false)]) = S (trailing_failures l).
Proof. unfold trailing_failures. by rewrite streaks_snoc. Qed.

Lemma trailing_failures_ok l t : trailing_failures (l ++ [(t, true)]) = 0%nat.
Proof. unfold trailing_failures. by rewrite streaks_snoc. Qed.

Lemma longest_failure_streak_fail l t :
  longest_failure_streak (l ++ [(t, false)])
  = Nat.max (longest_failure_streak l) (S (trailing_failures l)).
Proof. unfold longest_failure_streak. by rewrite streaks_snoc. Qed.

Lemma longest_failure_streak_ok l t :
  longest_failure_streak (l ++ [(t, true)]) = longest_failure_streak l.
Proof. unfold longest_failure_streak. by rewrite streaks_snoc. Qed.

Lemma cap_inv_kframe k N base w w' l :
  kframe k w w' -> cap_inv k N base w l -> cap_inv k N base w' l.
Proof.
  intros Hk ((x & Hst & Hid & Hmax & Hcnt) & Ha & Hl).
  destruct (kframe_stored k w w' x Hk Hst) as (x' & Hst' & Hv).
  destruct Hk as (_ & _ & _ & Ha' & _).
  split; [|split; [congruence|done]].
  exists x'. split; [done|].
  change (tv_id (task_view x') = Some (JStr k)
          /\ gc_max (tv_config (task_view x')) = N
          /\ (Z.of_nat (trailing_failures l) <= tv_count (task_view x'))%Z).
  by rewrite Hv.
Qed.

Lemma cap_inv_item env k N base wa l x xa :
  (0 < N)%Z ->
  is_object x = true -> id_key x = k -> k <> "" ->
  stored_task k (w_file wa) = Some xa -> task_view xa = task_view x ->
  cap_inv k N base wa l ->
  exists l', cap_inv k N base (guardian_item env wa x) l'.
Proof.
  intros HN Hobj Hk Hne Hsta Hview ((xa' & Hsta' & Hid & Hmax & Hcnt) & Ha & Hl).
  assert (xa' = xa) as -> by congruence. clear Hsta'.
  assert (currentCount x = currentCount xa) as Hcx.
  { change (tv_count (task_view x) = tv_count (task_view xa)). by rewrite Hview. }
  assert (maxRestarts x = N) as Hmx.
  { change (gc_max (tv_config (task_view x)) = N). by rewrite <- Hview. }
  assert (id_key x <> "") as Hne' by congruence.
  destruct (guardian_item_own env wa x Hobj Hne')
    as [(Hat & Hf & _)
       |(ok & Hat & Hel & Hcap & _ & _ & _ & Hok & Hfail)];
    rewrite ?Hk in *.
  - exists l. split; [|split; [congruence|done]].
    exists xa. by rewrite Hf.
  - exists (l ++ [(te_now env, ok)]). destruct ok.
    + destruct (Hok eq_refl) as [_ Hf].
      destruct (guardian_patch_cases k (success_patch (te_iso env))
                  (te_iso env) (w_file wa) xa Hsta eq_refl)
        as [[Hnid _]|(o & -> & Ho & Hst')]; [done|].
      split; [|split].
      * eexists. split; [by rewrite Hf|].
        change (tv_id (task_view (sanitize (JObj (apply_patch
                  (success_patch (te_iso env)) false (te_iso env) o))))
                = Some (JStr k)
                /\ gc_max (tv_config (task_view (sanitize (JObj (apply_patch
                     (success_patch (te_iso env)) false (te_iso env) o))))) = N
                /\ (Z.of_nat (trailing_failures (l ++ [(te_now env, true)]))
                    <= tv_count (task_view (sanitize (JObj (apply_patch
                         (success_patch (te_iso env)) false (te_iso env) o)))))%Z).
        rewrite view_after_success_patch.
        -- cbn [tv_id tv_config tv_count]. rewrite trailing_failures_ok.
           split; [done|]. split; [done|]. lia.
        -- change (eligible (tv_config (task_view (JObj o))) = true).
           by rewrite Hview.
      * by rewrite Hat, Ha, app_assoc.
      * by rewrite longest_failure_streak_ok.
    + destruct (Hfail eq_refl) as (_ & _ & Hf).
      destruct (guardian_patch_cases k
                  [("restart_count", JNum (currentCount x + 1))]
                  (te_iso env) (w_file wa) xa Hsta eq_refl)
        as [[Hnid _]|(o & -> & Ho & Hst')]; [done|].
      assert (currentCount x < N)%Z as Hlt.
      { unfold capped in Hcap. rewrite Hmx in Hcap.
        apply andb_false_iff in Hcap as [Hc|Hc]; lia. }
      split; [|split].
      * eexists. split; [by rewrite Hf|].
        change (tv_id (task_view (sanitize (JObj (apply_patch
                  [("restart_count", JNum (currentCount x + 1))] false
                  (te_iso env) o)))) = Some (JStr k)
                /\ gc_max (tv_config (task_view (sanitize (JObj (apply_patch
                     [("restart_count", JNum (currentCount x + 1))] false
                     (te_iso env) o))))) = N
                /\ (Z.of_nat (trailing_failures (l ++ [(te_now env, false)]))
                    <= tv_count (task_view (sanitize (JObj (apply_patch
                         [("restart_count", JNum (currentCount x + 1))] false
                         (te_iso env) o)))))%Z).
        rewrite view_after_count_patch.
        cbn [tv_id tv_config tv_count]. rewrite trailing_failures_fail.
        split; [done|]. split; [done|]. lia.
      * by rewrite Hat, Ha, app_assoc.
      * rewrite longest_failure_streak_fail. lia.
Qed.

Lemma cap_inv_tick env k N base w l :
  (0 < N)%Z -> cap_inv k N base w l ->
  exists l', cap_inv k N base (guardian_tick env w) l'.
Proof.
  intros HN Hinv. pose proof Hinv as ((x & Hst & _) & _).
  destruct (guardian_tick_visits env w k x Hst) as (wa & Hwa & Hend).
  destruct (stored_task_valid k _ x Hst) as (Hobj & Hk & Hne).
  destruct (kframe_stored k w wa x Hwa Hst) as (xa & Hsta & Hv).
  apply (cap_inv_kframe k N base w wa l Hwa) in Hinv.
  destruct (cap_inv_item env k N base wa l x xa HN Hobj Hk Hne Hsta Hv Hinv)
    as [l' Hinv'].
  exists l'. by eapply cap_inv_kframe.
Qed.

Lemma cap_inv_run k N base steps : forall w l,
  (0 < N)%Z -> cap_inv k N base w l ->
  exists l', cap_inv k N base (guardian_run steps w) l'.
Proof.
  induction steps as [|s steps IH]; intros w l HN Hinv; [by exists l|].
  cbn [guardian_run fold_left]. fold (guardian_run steps (gstep w s)).
  destruct s as [env|ev]; cbn [gstep].
  - destruct (cap_inv_tick env k N base w l HN Hinv) as [l' Hinv'].
    by eapply IH.
  - eapply IH; [done|]. eapply cap_inv_kframe; [apply step_kframe|done].
Qed.

(** With [max_restarts = 0] the cap holds nothing back: a task that is
    eligible, not running and past its next-attempt time is attempted,
    whatever its [restart_count]. *)
Theorem guardian_unlimited (env : TickEnv) (w : World) (x : json) :
  is_object x = true -> id_key x <> "" ->
  maxRestarts x = 0%Z ->
  eligible (guard_config x) = true ->
  isTaskRunning (id_key x) w = false ->
  (default 0 (w_guardianState w !! id_key x) <= te_now env)%Z ->
  exists ok,
    attempts_of (id_key x) (w_trace (guardian_item env w x))
    = attempts_of (id_key x) (w_trace w) ++ [(te_now env, ok)].
Proof.
  intros Hobj Hne Hmax Hel Hnr Hdue.
  destruct (guardian_item_own env w x Hobj Hne)
    as [(_ & _ & _ & _ & Hcase)|(ok & Hat & _)]; [|by exists ok].
  exfalso. destruct Hcase as [[_ H]|[_ [H|H]]]; [|congruence|congruence].
  destruct (H Hel Hnr) as [Hcap|Hlt]; [|lia].
  unfold capped in Hcap. rewrite Hmax in Hcap. discriminate Hcap.
Qed.

(** ** Who changes [restart_count] and [updated_date] *)

Lemma api_update_patch id data now f :
  fst (api_update id data now f) = patchProject id (fields_of data) false now f.
Proof.
  unfold api_update, patchProject, apply_patch.
  by destruct (findIndex _ _).
Qed.

Lemma sanitize_JObj o :
  sanitize (JObj o) = JObj (obj_without "runtime_pid" (obj_without "status" o)).
Proof. reflexivity. Qed.

(** A patch applied to the task stored under the string [id] leaves a task
    stored under that string. *)
Lemma patch_own_task_obj id patch skip now f o :
  obj_get "id" patch = None ->
  stored_task (trim id) f = Some (JObj o) ->
  obj_get "id" o = Some (JStr id) ->
  exists o',
    stored_task (trim id) (sr_file (patchProject id patch skip now f))
    = Some (JObj o')
    /\ obj_get "id" o' = Some (JStr id)
    /\ JObj o' = sanitize (JObj (apply_patch patch skip now o)).
Proof.
  intros Hpatch Hst Hid. eexists. split; [|split].
  - rewrite (patch_own_task id patch skip now f o) by done.
    rewrite sanitize_JObj. reflexivity.
  - rewrite !obj_get_obj_without by done. by rewrite obj_get_apply_patch_id.
  - by rewrite sanitize_JObj.
Qed.

(** A patch that does not mention [restart_count] leaves the stored
    [restart_count] of every task as it was. *)
Lemma patch_keeps_restart_count id patch skip now f k :
  obj_get "id" patch = None -> obj_get "restart_count" patch = None ->
  prop "restart_count"
    <$> stored_task k (sr_file (patchProject id patch skip now f))
  = prop "restart_count" <$> stored_task k f.
Proof.
  intros Hid Hrc. destruct (decide (k = trim id)) as [->|Hk].
  - destruct (stored_task (trim id) f) as [x|] eqn:Hst.
    + destruct (patch_cases id patch skip now f x Hst Hid)
        as [[_ ->]|(o & -> & Ho & ->)];
        [unfold no_write; cbn [sr_file]; by rewrite Hst|].
      cbn [fmap option_fmap option_map]. f_equal.
      rewrite prop_sanitize by done. cbn [prop]. unfold apply_patch.
      destruct skip.
      * by apply obj_get_spread_other.
      * rewrite obj_get_obj_set. cbn. by apply obj_get_spread_other.
    + rewrite patch_misses_absent by done. unfold no_write. cbn [sr_file].
      by rewrite Hst.
  - pose proof (patch_other_view id patch skip now f k Hid Hk) as Hv.
    destruct (stored_task k (sr_file (patchProject id patch skip now f)));
      destruct (stored_task k f); cbn [fmap option_fmap option_map] in *;
      try done.
    assert (task_view j = task_view j0) as Hv' by congruence.
    f_equal. exact (f_equal tv_restart_count Hv').
Qed.

(** With [skipUpdatedDate] a patch that does not mention [updated_date]
    leaves it alone. *)
Lemma patch_skip_keeps_updated_date patch now o :
  obj_get "updated_date" patch = None ->
  obj_get "updated_date" (apply_patch patch true now o)
  = obj_get "updated_date" o.
Proof. intros H. unfold apply_patch. by apply obj_get_spread_other. Qed.

(** Without it the patched task gets the time of the patch. *)
Lemma patch_sets_updated_date patch now o :
  obj_get "updated_date" (apply_patch patch false now o) = Some (JStr now).
Proof. unfold apply_patch. by rewrite obj_get_obj_set. Qed.

(** *** The start handler *)

Lemma api_start_file body ospid now w :
  w_file (fst (api_start body ospid now w)) = w_file w
  \/ exists id,
       w_file (fst (api_start body ospid now w))
       = sr_file (patchProject id [("was_running_before_shutdown", JBool true)]
                               false now (w_file w)).
Proof.
  unfold api_start. destruct (_ || _)%bool; [by left|].
  right. exists (default "" (sb_id body)).
  set (w1 := match w_processes w !! default "" (sb_id body) with
             | Some existing => _
             | None => w
             end).
  assert (w_file w1 = w_file w) as Hf.
  { subst w1. destruct (w_processes w !! _) as [e|]; [|done].
    destruct (w_heap w !! e_proc e) as [p|]; [|done].
    by destruct (isRunning (p_child p)). }
  clearbody w1. cbn. by rewrite Hf.
Qed.

Lemma api_start_keeps_restart_count body ospid now w k :
  prop "restart_count" <$> stored_task k (w_file (fst (api_start body ospid now w)))
  = prop "restart_count" <$> stored_task k (w_file w).
Proof.
  destruct (api_start_file body ospid now w) as [->|[id ->]]; [done|].
  by apply patch_keeps_restart_count.
Qed.

(** *** The dashboard's start flow *)

Lemma waitForRunningStatus_file id n : forall delays w,
  w_file (snd (waitForRunningStatus id n delays w)) = w_file w.
Proof.
  induction n as [|n IH]; intros delays w; cbn [waitForRunningStatus]; [done|].
  destruct (truthy_opt _); [done|]. by rewrite IH, run_events_file.
Qed.

Lemma after_start_started project env w w' :
  after_start project env w = (w', Started) ->
  w_file w'
  = sr_file (patchProject (url_id project) (fields_of (started_data env))
                          false (sf_put2_now env) (w_file w)).
Proof.
  unfold after_start.
  pose proof (waitForRunningStatus_file (url_id project) 10 (sf_polls env) w)
    as Hf.
  destruct (waitForRunningStatus _ _ _ _) as [ok w1]. cbn [snd] in Hf.
  destruct ok; [|intros [= _ ?]; done].
  intros [= <-]. cbn [w_file store_apply].
  by rewrite api_update_patch, Hf.
Qed.

(** When the flow ends in [Started], the file is the one before the flow
    with three patches applied in turn, the second (the start handler's)
    possibly missing: [manual_stopped], [was_running_before_shutdown], and
    the record of the success. *)
Lemma handleStart_started_file project env w w' :
  handleStart project env w = (w', Started) ->
  exists f1 f2,
    f1 = sr_file (patchProject (url_id project) [("manual_stopped", JBool false)]
                               false (sf_put1_now env) (w_file w))
    /\ (f2 = f1
        \/ exists id,
             f2 = sr_file (patchProject id
                             [("was_running_before_shutdown", JBool true)]
                             false (sf_start_now env) f1))
    /\ w_file w'
       = sr_file (patchProject (url_id project) (fields_of (started_data env))
                               false (sf_put2_now env) f2).
Proof.
  unfold handleStart. destruct (_ || _)%bool; [intros [= _ ?]; done|].
  set (w1 := store_apply _ w).
  set (body := mkStartBody _ _ _).
  assert (w_file w1
          = sr_file (patchProject (url_id project)
                       [("manual_stopped", JBool false)] false
                       (sf_put1_now env) (w_file w))) as Hf1.
  { subst w1. cbn [w_file store_apply]. by rewrite api_update_patch. }
  pose proof (api_start_file body (sf_ospid env) (sf_start_now env) w1) as Hf2.
  destruct (api_start body (sf_ospid env) (sf_start_now env) w1)
    as [w2 [resp|r]]; cbn [fst] in Hf2.
  - destruct (strict_eq _ _); [intros [= _ ?]; done|].
    intros H. apply after_start_started in H.
    exists (w_file w1), (w_file w2). split; [done|]. split; [|done].
    destruct Hf2 as [->|[id ->]]; [by left|right; by exists id].
  - destruct (response_of r _) as [resp|]; [|intros [= _ ?]; done].
    destruct (strict_eq _ _); [intros [= _ ?]; done|].
    intros H. apply after_start_started in H.
    rewrite run_events_file in H.
    exists (w_file w1), (w_file w2). split; [done|]. split; [|done].
    destruct Hf2 as [->|[id ->]]; [by left|right; by exists id].
Qed.

Lemma handleStart_resets_count project env w w' id o :
  handleStart project env w = (w', Started) ->
  prop "id" project = Some (JStr id) ->
  stored_task (trim id) (w_file w) = Some (JObj o) ->
  obj_get "id" o = Some (JStr id) ->
  prop "restart_count" <$> stored_task (trim id) (w_file w')
  = Some (Some (JNum 0)).
Proof.
  intros Hflow Hpid Hst Hid.
  destruct (handleStart_started_file project env w w' Hflow)
    as (f1 & f2 & Hf1 & Hf2 & Hw).
  assert (url_id project = id) as Hu by (unfold url_id; by rewrite Hpid).
  rewrite Hu in Hf1, Hw. rewrite Hw. clear Hw Hu. subst f1.
  destruct (patch_own_task_obj id [("manual_stopped", JBool false)] false
              (sf_put1_now env) (w_file w) o eq_refl Hst Hid)
    as (o1 & Hst1 & Hid1 & _).
  set (f1 := sr_file (patchProject id [("manual_stopped", JBool false)] false
                        (sf_put1_now env) (w_file w))) in *.
  assert (exists o2, stored_task (trim id) f2 = Some (JObj o2)
                     /\ obj_get "id" o2 = Some (JStr id)) as (o2 & Hst2 & Hid2).
  { destruct Hf2 as [Hf2|[id' Hf2]]; rewrite Hf2; clear Hf2;
      [exists o1; by split|].
    destruct (decide (trim id = trim id')) as [Heq|Hne].
    - rewrite Heq in Hst1.
      destruct (patch_cases id' [("was_running_before_shutdown", JBool true)]
                  false (sf_start_now env) f1 (JObj o1) Hst1 eq_refl)
        as [[_ ->]|(o1' & Ho1 & Hid1' & Hst')].
      + exists o1. by rewrite Heq.
      + injection Ho1 as <-. eexists. rewrite Heq, Hst'. rewrite sanitize_JObj.
        split; [done|].
        rewrite !obj_get_obj_without by done.
        by rewrite obj_get_apply_patch_id.
    - pose proof (patch_other_view id'
                    [("was_running_before_shutdown", JBool true)] false
                    (sf_start_now env) f1 (trim id) eq_refl Hne) as Hv.
      rewrite Hst1 in Hv.
      destruct (stored_task (trim id) (sr_file _)) as [x2|] eqn:Hx2; [|done].
      cbn [fmap option_fmap option_map] in Hv.
      destruct (stored_task_elem_of _ _ _ Hx2) as (_ & _ & o2 & ->).
      assert (task_view (JObj o2) = task_view (JObj o1)) as Hv' by congruence.
      apply (f_equal tv_id) in Hv'. cbn in Hv'.
      exists o2. split; [done|]. congruence. }
  rewrite (patch_own_task id _ false (sf_put2_now env) f2 o2) by done.
  cbn [fmap option_fmap option_map]. do 2 f_equal.
  rewrite prop_sanitize by done.
  unfold started_data, fields_of, apply_patch, spread, prop.
  cbn [fold_left fst snd]. by rewrite !obj_get_obj_set.
Qed.

(** *** The guardian's visit *)

Lemma guardian_visit_effect env wa x o :
  is_object x = true -> id_key x <> "" ->
  stored_task (id_key x) (w_file wa) = Some (JObj o) ->
  obj_get "id" o = Some (JStr (id_key x)) ->
  let k := id_key x in
  let w' := guardian_item env wa x in
  (attempts_of k (w_trace w') = attempts_of k (w_trace wa)
   /\ w_file w' = w_file wa)
  \/ (exists ok,
        attempts_of k (w_trace w')
        = attempts_of k (w_trace wa) ++ [(te_now env, ok)]
        /\ prop "restart_count" <$> stored_task k (w_file w')
           = Some (Some (JNum (if ok then 0 else currentCount x + 1)))
        /\ prop "updated_date" <$> stored_task k (w_file w')
           = Some (Some (JStr (te_iso env)))).
Proof.
  intros Hobj Hne Hst Hid. cbn zeta.
  assert (trim (id_key x) = id_key x) as Htrim by apply id_key_trim.
  assert (forall patch,
            obj_get "id" patch = None ->
            stored_task (id_key x)
              (sr_file (patchProject (id_key x) patch false (te_iso env)
                          (w_file wa)))
            = Some (sanitize (JObj (apply_patch patch false (te_iso env) o))))
    as Hpatch.
  { intros patch Hp.
    pose proof (patch_own_task (id_key x) patch false (te_iso env) (w_file wa) o
                  Hp) as H.
    rewrite Htrim in H. by apply H. }
  destruct (guardian_item_own env wa x Hobj Hne)
    as [(Hat & Hf & _)
       |(ok & Hat & _ & _ & _ & _ & _ & Hok & Hfail)].
  - by left.
  - right. exists ok. split; [done|]. destruct ok.
    + destruct (Hok eq_refl) as [_ ->]. rewrite Hpatch by done.
      cbn [fmap option_fmap option_map]. rewrite !prop_sanitize by done.
      unfold success_patch, apply_patch, spread, prop.
      cbn [fold_left fst snd]. by rewrite !obj_get_obj_set.
    + destruct (Hfail eq_refl) as (_ & _ & ->). rewrite Hpatch by done.
      cbn [fmap option_fmap option_map]. rewrite !prop_sanitize by done.
      unfold apply_patch, spread, prop.
      cbn [fold_left fst snd]. by rewrite !obj_get_obj_set.
Qed.

Lemma view_restart_count (a b : option json) :
  task_view <$> a = task_view <$> b ->
  prop "restart_count" <$> a = prop "restart_count" <$> b.
Proof.
  destruct a, b; cbn [fmap option_fmap option_map]; intros H; try done.
  assert (task_view j = task_view j0) as Hv by congruence.
  f_equal. exact (f_equal tv_restart_count Hv).
Qed.

Lemma view_updated_date (a b : option json) :
  task_view <$> a = task_view <$> b ->
  prop "updated_date" <$> a = prop "updated_date" <$> b.
Proof.
  destruct a, b; cbn [fmap option_fmap option_map]; intros H; try done.
  assert (task_view j = task_view j0) as Hv by congruence.
  f_equal. exact (f_equal tv_updated_date Hv).
Qed.

(** What one tick does to the stored task [x] whose id is the string [k]
    it is stored under: either no attempt is made and the guardian reads
    from the stored task what it read before, or one attempt is made, and
    [restart_count] and [updated_date] are written. *)
Lemma guardian_tick_effect env w k x :
  stored_task k (w_file w) = Some x -> prop "id" x = Some (JStr k) ->
  let w' := guardian_tick env w in
  (attempts_of k (w_trace w') = attempts_of k (w_trace w)
   /\ task_view <$> stored_task k (w_file w') = Some (task_view x))
  \/ (exists ok,
        attempts_of k (w_trace w')
        = attempts_of k (w_trace w) ++ [(te_now env, ok)]
        /\ prop "restart_count" <$> stored_task k (w_file w')
           = Some (Some (JNum (if ok then 0 else currentCount x + 1)))
        /\ prop "updated_date" <$> stored_task k (w_file w')
           = Some (Some (JStr (te_iso env)))).
Proof.
  intros Hst Hid. cbn zeta.
  destruct (guardian_tick_visits env w k x Hst) as (wa & Hwa & Hend).
  destruct (stored_task_valid k _ x Hst) as (Hobj & Hk & Hne).
  destruct (kframe_stored k w wa x Hwa Hst) as (xa & Hsta & Hva).
  destruct (stored_task_elem_of _ _ _ Hsta) as (_ & _ & oa & ->).
  assert (obj_get "id" oa = Some (JStr k)) as Hida.
  { apply (f_equal tv_id) in Hva. cbn in Hva. congruence. }
  destruct Hwa as (_ & _ & _ & Ha1 & _).
  destruct Hend as (_ & Hv2 & _ & Ha2 & _).
  rewrite <- Hk in Hsta, Hida.
  assert (id_key x <> "") as Hne' by congruence.
  destruct (guardian_visit_effect env wa x oa Hobj Hne' Hsta Hida)
    as [(Ha & Hf)|(ok & Ha & Hrc & Hud)]; rewrite Hk in *.
  - left. split; [congruence|].
    rewrite Hv2, Hf, Hsta. cbn [fmap option_fmap option_map]. by rewrite Hva.
  - right. exists ok. split; [congruence|]. split.
    + rewrite <- Hrc. by apply view_restart_count.
    + rewrite <- Hud. by apply view_updated_date.
Qed.
(** ** Tasks stored under an id the guardian does not patch *)

Lemma unpatched_kframe k v w w' :
  kframe k w w' -> unpatched_inv k v w -> unpatched_inv k v w'.
Proof.
  intros Hk (x & Hst & Hv & Hid).
  destruct (kframe_stored k w w' x Hk Hst) as (x' & Hst' & Hv').
  exists x'. split; [done|]. split; [congruence|done].
Qed.

Lemma unpatched_item env w k v x :
  is_object x = true -> id_key x = k -> k <> "" ->
  unpatched_inv k v w -> w_file (guardian_item env w x) = w_file w.
Proof.
  intros Hobj Hk Hne (xa & Hst & Hv & Hid).
  assert (id_key x <> "") as Hne' by congruence.
  assert (trim k = k) as Htrim by (rewrite <- Hk; apply id_key_trim).
  assert (forall patch,
            sr_file (patchProject k patch false (te_iso env) (w_file w))
            = w_file w) as Hmiss.
  { intros patch.
    rewrite (patch_misses_uncanonical k patch false (te_iso env) (w_file w) xa).
    - done.
    - by rewrite Htrim.
    - intros H. apply Hid. rewrite <- Hv. exact H. }
  destruct (guardian_item_own env w x Hobj Hne')
    as [(_ & Hf & _)|(ok & _ & _ & _ & _ & _ & _ & Hok & Hfail)]; [done|].
  rewrite Hk in *. destruct ok.
  - destruct (Hok eq_refl) as [_ ->]. apply Hmiss.
  - destruct (Hfail eq_refl) as (_ & _ & ->). apply Hmiss.
Qed.

Lemma unpatched_tick env w k v :
  unpatched_inv k v w -> unpatched_inv k v (guardian_tick env w).
Proof.
  intros Hinv. pose proof Hinv as (x & Hst & _).
  destruct (guardian_tick_visits env w k x Hst) as (wa & Hwa & Hend).
  destruct (stored_task_valid k _ x Hst) as (Hobj & Hk & Hne).
  apply (unpatched_kframe k v w wa Hwa) in Hinv.
  eapply unpatched_kframe; [exact Hend|].
  destruct Hinv as (xa & Hsta & Hva & Hida).
  exists xa. split; [|done].
  rewrite (unpatched_item env wa k v x Hobj Hk Hne); [done|].
  by exists xa.
Qed.

(** C4 (where the cap is not enforced).  For a task whose stored id is not
    the string the guardian looks it up by, no run of guardian ticks and
    child events changes what the guardian reads of the stored task: its
    [restart_count] is never incremented, so the cap
    [restart_count >= max_restarts] is never reached by failed attempts. *)
Theorem guardian_never_counts_unpatched (steps : list GStep) (w : World)
    (k : string) (x : json) :
  stored_task k (w_file w) = Some x ->
  prop "id" x <> Some (JStr k) ->
  task_view <$> stored_task k (w_file (guardian_run steps w))
  = Some (task_view x).
Proof.
  intros Hst Hid.
  assert (unpatched_inv k (task_view x) w) as Hinv by (by exists x).
  clear Hst Hid.
  assert (unpatched_inv k (task_view x) (guardian_run steps w)) as Hend.
  { revert w Hinv.
    induction steps as [|s steps IH]; intros w Hinv; [done|].
    cbn [guardian_run fold_left]. fold (guardian_run steps (gstep w s)).
    apply IH. destruct s as [env|ev]; cbn [gstep].
    - by apply unpatched_tick.
    - eapply unpatched_kframe; [apply step_kframe|done]. }
  destruct Hend as (x' & -> & Hv & _).
  cbn [fmap option_fmap option_map]. by rewrite Hv.
Qed.

(** ** The guardian's bookkeeping and [updated_date] *)

(** C6 (the guardian's patches carry no [skipUpdatedDate]).  When a tick
    makes a restart attempt for a task stored under its own id string,
    whether the attempt succeeds or fails, the stored [updated_date] of the
    task becomes the time stamp of the tick. *)
Theorem guardian_bookkeeping_sets_updated_date (env : TickEnv) (w : World)
    (k : string) (x : json) (ok : bool) :
  stored_task k (w_file w) = Some x ->
  prop "id" x = Some (JStr k) ->
  attempts_of k (w_trace (guardian_tick env w))
  = attempts_of k (w_trace w) ++ [(te_now env, ok)] ->
  prop "updated_date" <$> stored_task k (w_file (guardian_tick env w))
  = Some (Some (JStr (te_iso env))).
Proof.
  intros Hst Hid Hat.
  destruct (guardian_tick_effect env w k x Hst Hid)
    as [(Ha & _)|(ok' & _ & _ & Hud)]; [|done].
  rewrite Ha in Hat. apply (f_equal length) in Hat.
  rewrite length_app in Hat. cbn in Hat. lia.
Qed.

(** ** Clearing the logs *)

(** C8 (clearing the logs is not served).  No route of the server accepts
    [DELETE /api/projects/logs/:id]: the request is answered 404 and changes
    nothing, so the logs read right after it are the logs as they were. *)
Theorem clear_logs_not_served (static : bool) (id : string) (body : json)
    (now fresh : string) (w : World) :
  id <> "" ->
  serve static DELETE ["api"; "projects"; "logs"; id] body now fresh w
  = Some (w, mkResp 404 JNull)
  /\ serve static GET ["api"; "projects"; "logs"; id] body now fresh w
     = Some (w, api_logs id w).
Proof.
  intros Hid. split; [apply delete_logs_unrouted|by apply get_logs_routed].
Qed.

(** ** Who resets [restart_count] *)

(** C9 (who writes [restart_count]).  [POST /api/projects/start] leaves
    the stored [restart_count] of every task as it is, also while its child
    runs.  It
    is the dashboard's start flow that writes 0, with the [PUT] it sends
    once the task is seen running.  A guardian tick leaves what it reads of
    a task stored under its own id string unchanged when it makes no
    attempt; it writes 0 after a successful attempt, and the count it read
    plus one after a failed one. *)
Theorem restart_count_writers :
  (forall body ospid now evs w k,
     prop "restart_count"
       <$> stored_task k
             (w_file (run_events evs (fst (api_start body ospid now w))))
     = prop "restart_count" <$> stored_task k (w_file w))
  /\ (forall project env w w' id o,
        handleStart project env w = (w', Started) ->
        prop "id" project = Some (JStr id) ->
        stored_task (trim id) (w_file w) = Some (JObj o) ->
        obj_get "id" o = Some (JStr id) ->
        prop "restart_count" <$> stored_task (trim id) (w_file w')
        = Some (Some (JNum 0)))
  /\ (forall env w k x,
        stored_task k (w_file w) = Some x ->
        prop "id" x = Some (JStr k) ->
        let w' := guardian_tick env w in
        (attempts_of k (w_trace w') = attempts_of k (w_trace w)
         /\ prop "restart_count" <$> stored_task k (w_file w')
            = Some (prop "restart_count" x))
        \/ (exists ok,
              attempts_of k (w_trace w')
              = attempts_of k (w_trace w) ++ [(te_now env, ok)]
              /\ prop "restart_count" <$> stored_task k (w_file w')
                 = Some (Some (JNum (if ok then 0 else currentCount x + 1))))).
Proof.
  split; [|split].
  - intros body ospid now evs w k.
    rewrite run_events_file. apply api_start_keeps_restart_count.
  - intros project env w w' id o. apply handleStart_resets_count.
  - intros env w k x Hst Hid. cbn zeta.
    destruct (guardian_tick_effect env w k x Hst Hid)
      as [(Ha & Hv)|(ok & Ha & Hrc & _)].
    + left. split; [done|].
      change (Some (prop "restart_count" x))
        with (prop "restart_count" <$> Some x).
      apply view_restart_count. by rewrite Hv.
    + right. by exists ok.
Qed.
(** ** Log buffers *)

Lemma rb_push_limit line b : rb_limit (rb_push line b) = rb_limit b.
Proof. reflexivity. Qed.

Lemma rb_pushes_arr lines : forall b,
  (length (rb_arr b) <= rb_limit b)%nat ->
  rb_arr (rb_pushes lines b) = latest (rb_limit b) (rb_arr b ++ lines).
Proof.
  unfold latest.
  induction lines as [|x rest IH]; intros b Hb; cbn [rb_pushes fold_left].
  - rewrite app_nil_r.
    replace (length (rb_arr b) - rb_limit b)%nat with 0%nat by lia. done.
  - fold (rb_pushes rest (rb_push x b)).
    assert (length (rb_arr b ++ [x]) = S (length (rb_arr b))) as Hlen.
    { rewrite length_app. cbn. lia. }
    destruct (decide (length (rb_arr b) = rb_limit b)) as [Heq|Hlt].
    + assert (rb_arr (rb_push x b) = drop 1 (rb_arr b ++ [x])) as Harr.
      { unfold rb_push. cbn [rb_arr].
        assert ((rb_limit b <? length (rb_arr b ++ [x]))%nat = true) as ->.
        { apply Nat.ltb_lt. lia. }
        by destruct (rb_arr b ++ [x]). }
      rewrite IH.
      * rewrite rb_push_limit, Harr.
        assert (drop 1 (rb_arr b ++ [x]) ++ rest
                = drop 1 (rb_arr b ++ x :: rest)) as ->.
        { replace (rb_arr b ++ x :: rest) with ((rb_arr b ++ [x]) ++ rest)
            by (by rewrite <- app_assoc).
          by rewrite (drop_app_le (rb_arr b ++ [x])) by (rewrite Hlen; lia). }
        rewrite drop_drop. f_equal.
        rewrite length_drop, !length_app. cbn. lia.
      * rewrite rb_push_limit, Harr, length_drop. lia.
    + assert (rb_arr (rb_push x b) = rb_arr b ++ [x]) as Harr.
      { unfold rb_push. cbn [rb_arr].
        assert ((rb_limit b <? length (rb_arr b ++ [x]))%nat = false) as ->.
        { apply Nat.ltb_ge. lia. }
        done. }
      rewrite IH.
      * rewrite rb_push_limit, Harr, <- app_assoc. done.
      * rewrite rb_push_limit, Harr. lia.
Qed.

(** A buffer holds the lines pushed last: after any number of pushes into
    a new buffer, [get()] returns the last [limit] of them, oldest first
    (all of them when they are fewer). *)
Theorem ringBuffer_keeps_latest (limit : nat) (lines : list string) :
  rb_get (rb_pushes lines (ringBuffer_new limit)) = latest limit lines.
Proof.
  unfold rb_get. rewrite rb_pushes_arr by (cbn; lia). done.
Qed.

(** *** What the logs of a started task show *)

Lemma p_stdoutBuf_respondFail m c s p :
  p_stdoutBuf (respondFail m c s p) = p_stdoutBuf p.
Proof. unfold respondFail. by destruct (p_responded p). Qed.

Lemma p_stderrBuf_respondFail m c s p :
  p_stderrBuf (respondFail m c s p) = p_stderrBuf p.
Proof. unfold respondFail. by destruct (p_responded p). Qed.

Lemma p_stdoutBuf_respondOk p : p_stdoutBuf (respondOk p) = p_stdoutBuf p.
Proof. unfold respondOk. by destruct (p_responded p). Qed.

Lemma p_stderrBuf_respondOk p : p_stderrBuf (respondOk p) = p_stderrBuf p.
Proof. unfold respondOk. by destruct (p_responded p). Qed.

Lemma stdout_of_one r ev :
  stdout_of r [ev]
  = match ev with
    | EvStdout r' data => if Nat.eqb r' r then [data] else []
    | _ => []
    end.
Proof.
  unfold stdout_of. destruct ev; try done.
  cbn. by destruct (Nat.eqb _ _).
Qed.

Lemma stderr_of_one r ev :
  stderr_of r [ev]
  = match ev with
    | EvStderr r' data => if Nat.eqb r' r then [data] else []
    | _ => []
    end.
Proof.
  unfold stderr_of. destruct ev; try done.
  cbn. by destruct (Nat.eqb _ _).
Qed.

Lemma on_event_buffers r ev p :
  target ev = r ->
  p_stdoutBuf (on_event ev p) = rb_pushes (stdout_of r [ev]) (p_stdoutBuf p)
  /\ p_stderrBuf (on_event ev p) = rb_pushes (stderr_of r [ev]) (p_stderrBuf p).
Proof.
  intros <-. rewrite stdout_of_one, stderr_of_one.
  destruct ev as [r d|r d|r errno err|r st|r]; cbn [on_event target].
  - rewrite Nat.eqb_refl. done.
  - rewrite Nat.eqb_refl. done.
  - destruct (p_origin p);
      by rewrite ?p_stdoutBuf_respondFail, ?p_stderrBuf_respondFail.
  - assert (p_stdoutBuf (match st with
                         | Exited c => set_exitCode (Some c) p
                         | Signaled _ => p
                         end) = p_stdoutBuf p
            /\ p_stderrBuf (match st with
                            | Exited c => set_exitCode (Some c) p
                            | Signaled _ => p
                            end) = p_stderrBuf p) as [H1 H2].
    { by destruct st. }
    destruct (p_origin p); [|done].
    destruct (p_responded _); [done|].
    by rewrite p_stdoutBuf_respondFail, p_stderrBuf_respondFail.
  - destruct (p_origin p); [|done].
    destruct (p_responded p); [done|].
    destruct (isRunning (p_child p));
      by rewrite ?p_stdoutBuf_respondOk, ?p_stderrBuf_respondOk,
                 ?p_stdoutBuf_respondFail, ?p_stderrBuf_respondFail.
Qed.

Lemma stdout_of_other r ev : target ev <> r -> stdout_of r [ev] = [].
Proof.
  intros H. rewrite stdout_of_one. destruct ev; try done.
  cbn in H. apply Nat.eqb_neq in H. by rewrite H.
Qed.

Lemma stderr_of_other r ev : target ev <> r -> stderr_of r [ev] = [].
Proof.
  intros H. rewrite stderr_of_one. destruct ev; try done.
  cbn in H. apply Nat.eqb_neq in H. by rewrite H.
Qed.

Lemma stdout_of_cons r ev evs :
  stdout_of r (ev :: evs) = stdout_of r [ev] ++ stdout_of r evs.
Proof. unfold stdout_of. apply (omap_app _ [ev] evs). Qed.

Lemma stderr_of_cons r ev evs :
  stderr_of r (ev :: evs) = stderr_of r [ev] ++ stderr_of r evs.
Proof. unfold stderr_of. apply (omap_app _ [ev] evs). Qed.

Lemma rb_pushes_app l1 l2 b :
  rb_pushes (l1 ++ l2) b = rb_pushes l2 (rb_pushes l1 b).
Proof. unfold rb_pushes. apply fold_left_app. Qed.

Lemma run_events_buffers r evs : forall w p,
  w_heap w !! r = Some p ->
  exists p',
    w_heap (run_events evs w) !! r = Some p'
    /\ p_stdoutBuf p' = rb_pushes (stdout_of r evs) (p_stdoutBuf p)
    /\ p_stderrBuf p' = rb_pushes (stderr_of r evs) (p_stderrBuf p).
Proof.
  induction evs as [|ev evs IH]; intros w p Hp.
  - exists p. by cbn.
  - change (run_events (ev :: evs) w) with (run_events evs (step ev w)).
    rewrite stdout_of_cons, stderr_of_cons, !rb_pushes_app.
    destruct (decide (target ev = r)) as [Ht|Ht].
    + destruct (on_event_buffers r ev p Ht) as [H1 H2].
      destruct (IH (step ev w) (on_event ev p)) as (p' & Hp' & Ho & He).
      { rewrite <- Ht. apply step_lookup_target. by rewrite Ht. }
      exists p'. split; [done|]. by rewrite Ho, He, H1, H2.
    + destruct (IH (step ev w) p) as (p' & Hp' & Ho & He).
      { by rewrite step_lookup_other. }
      exists p'. split; [done|].
      by rewrite Ho, He, stdout_of_other, stderr_of_other.
Qed.

(** After a start request is accepted the logs of its id are those of the
    new child alone: whatever events follow, also output of a child the id
    had before, [GET /api/projects/logs/:id] answers with the last 500
    chunks the new child has written to each stream. *)
Theorem start_logs_fresh (w : World) (id command : string) (tmo : option json)
    (ospid : option Z) (now : string) (evs : list Event) :
  id <> "" -> command <> "" ->
  let w1 := fst (api_start (mkStartBody (Some id) (Some command) tmo)
                           ospid now w) in
  let r := length (w_heap w) in
  api_logs id (run_events evs w1)
  = mkResp 200 (logs_json (latest 500 (stdout_of r evs))
                          (latest 500 (stderr_of r evs))).
Proof.
  intros Hid Hcmd. cbn zeta.
  destruct (api_start_accepts w id command tmo ospid now Hid Hcmd)
    as (w1 & -> & Hheap & Hprocs & _). cbn [fst].
  set (r := length (w_heap w)).
  assert (w_heap w1 !! r = Some (started_proc id tmo ospid)) as Hp0.
  { rewrite Hheap. subst r. by rewrite lookup_app_r, Nat.sub_diag. }
  destruct (run_events_buffers r evs w1 _ Hp0) as (p' & Hp' & Ho & He).
  pose proof (run_events_entry_proc evs w1 id) as Hentry.
  rewrite Hprocs, lookup_insert_eq in Hentry. cbn in Hentry.
  unfold api_logs.
  destruct (w_processes (run_events evs w1) !! id) as [e|]; [|done].
  cbn in Hentry. injection Hentry as Hproc. subst r. rewrite Hproc, Hp'.
  unfold rb_get. rewrite Ho, He.
  by rewrite !rb_pushes_arr by (cbn; lia).
Qed.

(** *** The answer of a start request *)

Lemma answer_inv_on_event ev p : answer_inv p -> answer_inv (on_event ev p).
Proof.
  intros [Ho Hr]. unfold answer_inv.
  destruct ev as [r d|r d|r errno err|r st|r]; cbn [on_event]; rewrite ?Ho.
  - done.
  - done.
  - unfold respondFail, set_exitCode. cbn [p_responded].
    destruct (p_responded p) eqn:E; cbn; [by auto|].
    split; [done|]. intros _. eexists. split; [done|]. by right.
  - assert (p_origin (match st with
                      | Exited c => set_exitCode (Some c) p
                      | Signaled _ => p
                      end) = ByStart
            /\ p_responded (match st with
                            | Exited c => set_exitCode (Some c) p
                            | Signaled _ => p
                            end) = p_responded p
            /\ p_response (match st with
                           | Exited c => set_exitCode (Some c) p
                           | Signaled _ => p
                           end) = p_response p) as (H1 & H2 & H3).
    { by destruct st. }
    destruct (p_responded (match st with
                           | Exited c => set_exitCode (Some c) p
                           | Signaled _ => p
                           end)) eqn:E.
    + split; [done|]. rewrite E, H3. intros _. apply Hr. congruence.
    + unfold respondFail. rewrite E. unfold respond. cbn [p_origin p_responded p_response].
      split; [done|]. intros _. eexists. split; [done|]. by right.
  - destruct (p_responded p) eqn:E; [by rewrite E|].
    destruct (isRunning (p_child p)).
    + unfold respondOk. rewrite E. cbn. split; [done|]. intros _.
      eexists. split; [done|]. by left.
    + unfold respondFail. rewrite E. cbn. split; [done|]. intros _.
      eexists. split; [done|]. by right.
Qed.

Lemma answer_inv_run r evs : forall w p,
  w_heap w !! r = Some p -> answer_inv p ->
  exists p', w_heap (run_events evs w) !! r = Some p' /\ answer_inv p'.
Proof.
  induction evs as [|ev evs IH]; intros w p Hp Hinv; [by exists p|].
  change (run_events (ev :: evs) w) with (run_events evs (step ev w)).
  destruct (decide (target ev = r)) as [Ht|Ht].
  - apply (IH (step ev w) (on_event ev p)).
    + rewrite <- Ht. apply step_lookup_target. by rewrite Ht.
    + by apply answer_inv_on_event.
  - apply (IH (step ev w) p); [|done]. by rewrite step_lookup_other.
Qed.

Lemma timer_answers p :
  answer_inv p -> p_responded (on_event (EvTimer 0) p) = true.
Proof.
  intros [Ho _]. cbn [on_event]. rewrite Ho.
  destruct (p_responded p) eqn:E; [done|].
  destruct (isRunning (p_child p)).
  - unfold respondOk. by rewrite E.
  - unfold respondFail. by rewrite E.
Qed.

(** Every accepted start request is answered, and once: when its timer has
    fired the request has an answer, a success (200) or a failure (500),
    and no later event changes it. *)
Theorem start_answered_once (w : World) (id command : string)
    (tmo : option json) (ospid : option Z) (now : string)
    (pre post : list Event) :
  id <> "" -> command <> "" ->
  let w1 := fst (api_start (mkStartBody (Some id) (Some command) tmo)
                           ospid now w) in
  let r := length (w_heap w) in
  exists resp,
    response_of r (run_events (pre ++ [EvTimer r]) w1) = Some resp
    /\ (r_status resp = 200 \/ r_status resp = 500)
    /\ response_of r (run_events (pre ++ [EvTimer r] ++ post) w1) = Some resp.
Proof.
  intros Hid Hcmd. cbn zeta.
  destruct (api_start_accepts w id command tmo ospid now Hid Hcmd)
    as (w1 & -> & Hheap & _). cbn [fst].
  set (r := length (w_heap w)).
  assert (w_heap w1 !! r = Some (started_proc id tmo ospid)) as Hp0.
  { rewrite Hheap. subst r. by rewrite lookup_app_r, Nat.sub_diag. }
  destruct (answer_inv_run r pre w1 _ Hp0) as (p & Hp & Hinv).
  { split; [done|]. cbn. discriminate. }
  pose proof (answer_inv_on_event (EvTimer r) p Hinv) as [Ho Hr].
  assert (p_responded (on_event (EvTimer r) p) = true) as Hresp.
  { exact (timer_answers p Hinv). }
  destruct (Hr Hresp) as (resp & Hresp' & Hstatus).
  assert (w_heap (run_events (pre ++ [EvTimer r]) w1) !! r
          = Some (on_event (EvTimer r) p)) as Hafter.
  { rewrite run_events_app.
    change (run_events [EvTimer r] ?w) with (step (EvTimer r) w).
    by apply (step_lookup_target (EvTimer r)). }
  exists resp. split; [|split; [done|]].
  - unfold response_of. by rewrite Hafter.
  - rewrite app_assoc, run_events_app.
    rewrite (run_answered post _ r _ Hafter Ho Hresp). done.
Qed.
(** ** Tasks the guardian does not guard *)

Lemma ineligible_kframe k w w' :
  kframe k w w' -> ineligible_inv k w -> ineligible_inv k w'.
Proof.
  intros Hk (x & Hst & Hel).
  destruct (kframe_stored k w w' x Hk Hst) as (x' & Hst' & Hv).
  exists x'. split; [done|].
  change (eligible (tv_config (task_view x')) = false).
  by rewrite Hv.
Qed.

Lemma ineligible_tick env w k :
  ineligible_inv k w ->
  ineligible_inv k (guardian_tick env w)
  /\ attempts_of k (w_trace (guardian_tick env w)) = attempts_of k (w_trace w).
Proof.
  intros Hinv. pose proof Hinv as (x & Hst & Hel).
  destruct (guardian_tick_visits env w k x Hst) as (wa & Hwa & Hend).
  destruct (stored_task_valid k _ x Hst) as (Hobj & Hk & Hne).
  assert (id_key x <> "") as Hne' by congruence.
  destruct (guardian_item_own env wa x Hobj Hne')
    as [(Ha & Hf & _)|(ok & _ & Hel' & _)]; [|congruence].
  rewrite Hk in Ha.
  assert (ineligible_inv k (guardian_item env wa x)) as Hmid.
  { apply (ineligible_kframe k w wa Hwa) in Hinv.
    destruct Hinv as (xa & Hsta & Hela). exists xa. by rewrite Hf. }
  split; [by eapply ineligible_kframe|].
  destruct Hwa as (_ & _ & _ & Ha1 & _). destruct Hend as (_ & _ & _ & Ha2 & _).
  congruence.
Qed.

Lemma ineligible_run steps : forall w k,
  ineligible_inv k w ->
  attempts_of k (w_trace (guardian_run steps w)) = attempts_of k (w_trace w).
Proof.
  induction steps as [|s steps IH]; intros w k Hinv; [done|].
  cbn [guardian_run fold_left]. fold (guardian_run steps (gstep w s)).
  destruct s as [env|ev]; cbn [gstep].
  - destruct (ineligible_tick env w k Hinv) as [Hinv' Ha].
    rewrite IH by done. exact Ha.
  - rewrite IH.
    + by rewrite step_trace.
    + eapply ineligible_kframe; [apply step_kframe|done].
Qed.

(** The guardian never starts a task it is not asked to guard: in any run
    of guardian ticks and child events it makes no restart attempt for a
    stored task whose [auto_restart] is off, that is marked as stopped by
    hand, or that was never started ([was_running_before_shutdown] off). *)
Theorem guardian_skips_unguarded (steps : list GStep) (w : World)
    (k : string) (x : json) :
  stored_task k (w_file w) = Some x ->
  autoRestart x = false \/ manualStopped x = true \/ wasRunning x = false ->
  attempts_of k (w_trace (guardian_run steps w)) = attempts_of k (w_trace w).
Proof.
  intros Hst Hcfg. apply ineligible_run.
  exists x. split; [done|]. unfold eligible, guard_config. cbn.
  destruct Hcfg as [-> | [-> | ->]]; [done| |].
  - by rewrite andb_false_r.
  - by rewrite andb_false_r.
Qed.

(** ** What counts as a failed restart *)

Lemma isTaskRunning_spawned env id command w :
  isTaskRunning id (spawned_world env id command w) = true.
Proof.
  unfold isTaskRunning, spawned_world.
  cbn [w_processes w_heap with_processes with_heap log].
  rewrite lookup_insert_eq. cbn [e_proc].
  by rewrite lookup_app_r, Nat.sub_diag.
Qed.

(** An attempt ends as soon as the registry reports the task as running,
    which it does for a child that was just spawned. *)
Lemma guardianAttemptStart_result env p w :
  id_key p <> "" ->
  guardianAttemptStart env p w
  = if blank_command p then (false, w)
    else if isTaskRunning (id_key p) w then (true, w)
    else (true,
          spawned_world env (id_key p)
            (js_String (default JNull (prop "start_command" p))) w).
Proof.
  intros Hne. apply String.eqb_neq in Hne.
  unfold guardianAttemptStart, blank_command. rewrite Hne.
  cbn [orb].
  destruct (_ || _)%bool; [done|].
  destruct (isTaskRunning (id_key p) w); [done|].
  unfold spawn.
  set (command := js_String (default JNull (prop "start_command" p))).
  change (waitForRunning (id_key p) guardian_attempts
            (te_sleeps env (id_key p))
            (spawned_world env (id_key p) command w)
          = (true, spawned_world env (id_key p) command w)).
  unfold guardian_attempts. cbn [waitForRunning].
  by rewrite isTaskRunning_spawned.
Qed.

Lemma guardian_item_outcome env w p ok :
  is_object p = true -> id_key p <> "" ->
  attempts_of (id_key p) (w_trace (guardian_item env w p))
  = attempts_of (id_key p) (w_trace w) ++ [(te_now env, ok)] ->
  ok = negb (blank_command p).
Proof.
  intros Hobj Hne Hat.
  assert (forall l : list (Z * bool), l = l ++ [(te_now env, ok)] -> False)
    as Hno.
  { intros l H. apply (f_equal length) in H. rewrite length_app in H.
    cbn in H. lia. }
  revert Hat. unfold guardian_item.
  rewrite Hobj. cbn [negb]. apply String.eqb_neq in Hne as Hne'.
  rewrite Hne'.
  destruct (_ || _ || _)%bool; [intros H; by apply Hno in H|].
  destruct (_ && _)%bool; [intros H; by apply Hno in H|].
  destruct (isTaskRunning (id_key p) w) eqn:Erun;
    [intros H; by apply Hno in H|].
  destruct (_ <? _)%Z; [intros H; by apply Hno in H|].
  rewrite (guardianAttemptStart_result env p w Hne), Erun.
  destruct (blank_command p).
  - cbn [w_trace store_apply with_guardianState log].
    rewrite !attempts_of_app, attempts_of_writes, app_nil_r. cbn.
    rewrite String.eqb_refl. intros H. apply app_inv_head in H. congruence.
  - cbn [w_trace store_apply with_guardianState log spawned_world with_heap
         with_processes].
    rewrite !attempts_of_app, attempts_of_writes, app_nil_r. cbn.
    rewrite String.eqb_refl, app_nil_r.
    intros H. apply app_inv_head in H. congruence.
Qed.

(** An attempt of the guardian fails exactly when the task has no start
    command.  For a task with a command the attempt counts as a success as
    soon as the child is spawned: the registry is asked right away, before
    the child could exit or fail to start. *)
Theorem guardian_attempt_outcome (env : TickEnv) (w : World) (k : string)
    (x : json) (ok : bool) :
  stored_task k (w_file w) = Some x ->
  attempts_of k (w_trace (guardian_tick env w))
  = attempts_of k (w_trace w) ++ [(te_now env, ok)] ->
  ok = negb (blank_command x).
Proof.
  intros Hst Hat.
  destruct (guardian_tick_visits env w k x Hst) as (wa & Hwa & Hend).
  destruct (stored_task_valid k _ x Hst) as (Hobj & Hk & Hne).
  destruct Hwa as (_ & _ & _ & Ha1 & _). destruct Hend as (_ & _ & _ & Ha2 & _).
  apply (guardian_item_outcome env wa x ok Hobj); [congruence|].
  rewrite Hk. congruence.
Qed.

(** ** Tasks reported as running *)

Lemma status_running id w :
  prop "running" (r_body (api_status id w)) = Some (JBool (isTaskRunning id w)).
Proof.
  unfold api_status, isTaskRunning.
  destruct (w_processes w !! id) as [e|]; [|done].
  by destruct (w_heap w !! e_proc e).
Qed.

Lemma on_event_keeps_child ev p :
  keeps_exitCode ev = true -> p_child (on_event ev p) = p_child p.
Proof.
  destruct ev as [r d|r d|r errno err|r st|r]; cbn [keeps_exitCode on_event];
    try done; intros H.
  - destruct st; [done|].
    destruct (p_origin p); [|done].
    destruct (p_responded p); [done|]. apply p_child_respondFail.
  - destruct (p_origin p); [|done].
    destruct (p_responded p); [done|].
    destruct (isRunning (p_child p));
      [apply p_child_respondOk|apply p_child_respondFail].
Qed.

Lemma step_keeps_running ev w k :
  keeps_exitCode ev = true ->
  isTaskRunning k (step ev w) = isTaskRunning k w.
Proof.
  intros Hev. unfold step.
  destruct (w_heap w !! target ev) as [p|] eqn:Hp; [|done].
  unfold isTaskRunning. cbn [w_processes w_heap with_processes with_heap].
  assert (e_proc <$> (on_event_registry ev p (w_processes w) !! k)
          = e_proc <$> (w_processes w !! k)) as He.
  { destruct ev; cbn [on_event_registry]; try done;
      rewrite mark_stopped_lookup; destruct (decide _); try done;
      by destruct (w_processes w !! k). }
  destruct (on_event_registry ev p (w_processes w) !! k) as [e'|],
           (w_processes w !! k) as [e|]; cbn in He; try done.
  injection He as ->.
  destruct (decide (e_proc e = target ev)) as [->|Hne].
  - rewrite Hp, list_lookup_insert_eq by (by eapply lookup_lt_Some).
    by rewrite on_event_keeps_child.
  - by rewrite list_lookup_insert_ne.
Qed.

Lemma running_spawned env id command w k :
  isTaskRunning k w = true ->
  isTaskRunning k (spawned_world env id command w) = true.
Proof.
  intros Hrun. destruct (decide (id = k)) as [->|Hne].
  - apply isTaskRunning_spawned.
  - unfold isTaskRunning, spawned_world in *.
    cbn [w_processes w_heap with_processes with_heap log].
    rewrite lookup_insert_ne by done.
    destruct (w_processes w !! k) as [e|]; [|done].
    destruct (w_heap w !! e_proc e) as [p|] eqn:Hp; [|done].
    by erewrite lookup_app_l_Some.
Qed.

(** The visit of any task leaves a task that is reported as running
    running, and makes no attempt for it. *)
Lemma guardian_item_running env w p k :
  isTaskRunning k w = true ->
  isTaskRunning k (guardian_item env w p) = true
  /\ attempts_of k (w_trace (guardian_item env w p))
     = attempts_of k (w_trace w).
Proof.
  intros Hrun. split.
  - unfold guardian_item.
    destruct (negb (is_object p)); [done|].
    destruct (String.eqb (id_key p) "") eqn:Hne; [done|].
    apply String.eqb_neq in Hne.
    destruct (_ || _ || _)%bool; [done|].
    destruct (_ && _)%bool; [done|].
    destruct (isTaskRunning (id_key p) w) eqn:Er; [done|].
    destruct (_ <? _)%Z; [done|].
    rewrite (guardianAttemptStart_result env p w Hne), Er.
    destruct (blank_command p); [done|].
    etrans; [|exact (running_spawned env (id_key p)
                       (js_String (default JNull (prop "start_command" p)))
                       w k Hrun)].
    by apply isTaskRunning_ext.
  - destruct (decide (id_key p = k)) as [Hk|Hk].
    + destruct (is_object p) eqn:Hobj;
        [|unfold guardian_item; by rewrite Hobj].
      destruct (decide (id_key p = "")) as [He|Hne].
      { unfold guardian_item. rewrite Hobj, He. done. }
      destruct (guardian_item_own env w p Hobj Hne)
        as [(Ha & _)|(ok & _ & _ & _ & Hnr & _)].
      * by rewrite <- Hk.
      * rewrite Hk in Hnr. congruence.
    + by destruct (guardian_item_other env w p k Hk) as (_ & _ & _ & Ha & _).
Qed.

Lemma guardian_tick_running env w k :
  isTaskRunning k w = true ->
  isTaskRunning k (guardian_tick env w) = true
  /\ attempts_of k (w_trace (guardian_tick env w)) = attempts_of k (w_trace w).
Proof.
  unfold guardian_tick. generalize (readProjectsFile (w_file w)) as ps.
  intros ps. revert w.
  induction ps as [|p ps IH]; intros w Hrun; [done|].
  cbn [fold_left].
  destruct (guardian_item_running env w p k Hrun) as [Hrun' Ha].
  destruct (IH _ Hrun') as [Hrun'' Ha'].
  split; [done|congruence].
Qed.

(** A task stays reported as running, and the guardian makes no attempt to
    restart it, as long as no child reports an exit code or a failed spawn.
    The exit of a child that a signal has ended is no such report (its
    [exitCode] stays [null]): a task whose child was killed is shown as
    running and is not restarted. *)
Theorem guardian_leaves_running_alone (steps : list GStep) (w : World)
    (k : string) :
  isTaskRunning k w = true ->
  forallb quiet_step steps = true ->
  let w' := guardian_run steps w in
  prop "running" (r_body (api_status k w')) = Some (JBool true)
  /\ attempts_of k (w_trace w') = attempts_of k (w_trace w).
Proof.
  intros Hrun Hq. cbn zeta. rewrite status_running.
  cut (isTaskRunning k (guardian_run steps w) = true
       /\ attempts_of k (w_trace (guardian_run steps w))
          = attempts_of k (w_trace w)).
  { intros [-> ->]. done. }
  revert w Hrun Hq.
  induction steps as [|s steps IH]; intros w Hrun Hq; [done|].
  cbn [forallb] in Hq. apply andb_prop in Hq as [Hs Hq].
  cbn [guardian_run fold_left]. fold (guardian_run steps (gstep w s)).
  destruct s as [env|ev]; cbn [gstep quiet_step] in *.
  - destruct (guardian_tick_running env w k Hrun) as [Hrun' Ha].
    destruct (IH _ Hrun' Hq) as [Hrun'' Ha'].
    split; [done|congruence].
  - destruct (IH (step ev w)) as [Hrun'' Ha']; [|done|].
    + by rewrite step_keeps_running.
    + split; [done|]. by rewrite Ha', step_trace.
Qed.
(** ** The store's handlers *)

Lemma strict_eq_true a b : strict_eq a b = true -> a = b.
Proof.
  destruct a as [[| | | | |]|], b as [[| | | | |]|]; cbn; try done.
  - intros H. apply Bool.eqb_prop in H. by subst.
  - intros H. apply Z.eqb_eq in H. by subst.
  - intros H. apply String.eqb_eq in H. by subst.
Qed.

Lemma id_key_of_prop p q : prop "id" p = prop "id" q -> id_key p = id_key q.
Proof. intros H. unfold id_key. by rewrite H. Qed.

Lemma new_project_is_JObj data now fresh :
  exists o, new_project data now fresh = JObj o.
Proof. unfold new_project. eauto. Qed.

(** A task is listed once it is created: when the id of the new task is
    not blank and no stored task has it (up to surrounding white space),
    [POST /api/projects] answers with the new task, and the list read
    afterwards is the list as it was followed by the new task, without the
    runtime keys. *)
Theorem create_then_list (data : json) (now fresh : string)
    (f : option json) :
  let project := new_project data now fresh in
  id_key project <> "" ->
  id_key project ∉ map id_key (readProjectsFile f) ->
  snd (api_create data now fresh f) = mkResp 200 project
  /\ readProjectsFile (sr_file (fst (api_create data now fresh f)))
     = written (readProjectsFile f) ++ [sanitize project].
Proof.
  cbn zeta. intros Hne Hfresh.
  destruct (new_project_is_JObj data now fresh) as [o Ho].
  unfold api_create.
  destruct (findIndex _ (readProjectsFile f)) as [idx|] eqn:Hfind.
  - exfalso. apply findIndex_Some in Hfind as (x & Hx & Heq).
    apply strict_eq_true, id_key_of_prop in Heq.
    apply Hfresh. rewrite <- Heq.
    apply list_elem_of_In, in_map, list_elem_of_In.
    by eapply list_elem_of_lookup_2.
  - cbn [fst snd sr_file do_write]. split; [done|].
    rewrite read_after_write.
    + unfold written. by rewrite map_app.
    + apply Forall_app. split; [apply read_valid|].
      apply Forall_singleton. by rewrite Ho in *.
    + rewrite map_app. apply NoDup_app. split; [apply read_NoDup|].
      split; [|apply NoDup_singleton].
      intros k Hk Hk'. apply list_elem_of_singleton in Hk'. by subst.
Qed.

(** [PUT /api/projects/:id] with a body that carries no [id]: when no
    stored task has the id, the answer is 404 and nothing is written;
    otherwise the answer is the stored task with the fields of the body
    laid over it and [updated_date] set to the time of the request, and the
    list read afterwards is the list as it was with that task replaced,
    without the runtime keys. *)
Theorem update_replaces_one (id : string) (data : json) (now : string)
    (f : option json) :
  obj_get "id" (fields_of data) = None ->
  let items := readProjectsFile f in
  ((forall p, p ∈ items -> prop "id" p <> Some (JStr id))
   /\ api_update id data now f
      = (no_write f, mkResp 404 (JObj [("error", JStr "not found")])))
  \/ (exists idx o,
        items !! idx = Some (JObj o)
        /\ obj_get "id" o = Some (JStr id)
        /\ let merged := JObj (obj_set "updated_date" (JStr now)
                                 (spread o (fields_of data))) in
           snd (api_update id data now f) = mkResp 200 merged
           /\ readProjectsFile (sr_file (fst (api_update id data now f)))
              = written (<[idx := merged]> items)).
Proof.
  intros Hid. cbn zeta.
  destruct (findIndex (fun p => strict_eq_str (prop "id" p) id)
              (readProjectsFile f)) as [idx|] eqn:Hfind.
  - right.
    destruct (patch_lands id (fields_of data) false now f idx Hid Hfind)
      as (o & Hx & Ho & _ & _ & Hread).
    exists idx, o. split; [done|]. split; [done|]. split.
    + unfold api_update. by rewrite Hfind, Hx.
    + by rewrite api_update_patch.
  - left. split.
    + intros p Hp Heq. eapply findIndex_None in Hfind; [|exact Hp].
      cbn in Hfind. rewrite Heq in Hfind. cbn in Hfind.
      by rewrite String.eqb_refl in Hfind.
    + unfold api_update. by rewrite Hfind.
Qed.

Lemma filter_all {A} (P : A -> bool) l :
  (forall x, x ∈ l -> P x = true) -> List.filter P l = l.
Proof.
  induction l as [|x l IH]; intros H; cbn; [done|].
  rewrite H by left. f_equal. apply IH. intros y Hy. apply H. by right.
Qed.

Lemma filter_valid (P : json -> bool) l :
  Forall (fun p => is_object p = true /\ id_key p <> "") l ->
  Forall (fun p => is_object p = true /\ id_key p <> "") (List.filter P l).
Proof.
  intros H. apply Forall_forall. intros x Hx.
  apply list_elem_of_In, filter_In in Hx as [Hx _].
  eapply Forall_forall in H; [exact H|]. by apply list_elem_of_In.
Qed.

Lemma filter_NoDup_keys (P : json -> bool) l :
  NoDup (map id_key l) -> NoDup (map id_key (List.filter P l)).
Proof.
  induction l as [|x l IH]; intros H; cbn; [done|].
  cbn in H. apply NoDup_cons in H as [Hx Hnd].
  destruct (P x); [|by apply IH].
  cbn. apply NoDup_cons. split; [|by apply IH].
  intros Hin. apply Hx.
  apply list_elem_of_In, in_map_iff in Hin as (y & Hy & Hin).
  apply filter_In in Hin as [Hin _].
  rewrite <- Hy. by apply list_elem_of_In, in_map.
Qed.

(** [DELETE /api/projects/:id] removes the tasks stored with the id and no
    other: up to the runtime keys, the list read afterwards is the list as
    it was without the tasks whose id is the string [id]. *)
Theorem delete_removes_only (id : string) (w : World) :
  written (readProjectsFile (w_file (fst (api_delete id w))))
  = written (List.filter (fun p => negb (strict_eq_str (prop "id" p) id))
                         (readProjectsFile (w_file w))).
Proof.
  unfold api_delete. cbn [fst w_file store_apply log with_processes].
  assert (w_file (match w_processes w !! id with
                  | Some entry =>
                      match w_heap w !! e_proc entry with
                      | Some p =>
                          if isRunning (p_child p)
                          then log (ATreeKill (pid (p_child p)) "SIGTERM") w
                          else w
                      | None => w
                      end
                  | None => w
                  end) = w_file w) as ->.
  { destruct (w_processes w !! id) as [e|]; [|done].
    destruct (w_heap w !! e_proc e) as [p|]; [|done].
    by destruct (isRunning (p_child p)). }
  unfold delete_stored.
  destruct (findIndex _ (readProjectsFile (w_file w))) as [idx|] eqn:Hfind.
  - cbn [sr_file do_write]. rewrite read_after_write.
    + by rewrite written_idemp.
    + apply filter_valid, read_valid.
    + apply filter_NoDup_keys, read_NoDup.
  - cbn [sr_file no_write]. f_equal. symmetry. apply filter_all.
    intros x Hx. eapply findIndex_None in Hfind; [|exact Hx].
    cbn in Hfind. by rewrite Hfind.
Qed.

(** [POST /api/projects/dedupe] always reports that it removed nothing:
    the list it counts was de-duplicated when it was read.  [total] is the
    number of tasks listed, and the list read afterwards is the list as it
    was, without the runtime keys. *)
Theorem dedupe_reports_none_removed (f : option json) :
  snd (api_dedupe f)
  = mkResp 200 (JObj [("ok", JBool true); ("removed", JNum 0);
                      ("total", JNum (Z.of_nat (length (readProjectsFile f))))])
  /\ readProjectsFile (sr_file (fst (api_dedupe f)))
     = written (readProjectsFile f).
Proof.
  assert (dedupeProjects (readProjectsFile f) = readProjectsFile f) as Hd.
  { apply dedupe_distinct; [apply read_valid|apply read_NoDup]. }
  unfold api_dedupe. cbn [fst snd sr_file do_write]. rewrite Hd, Z.sub_diag.
  split; [done|].
  apply read_after_write; [apply read_valid|apply read_NoDup].
Qed.

(** ** Stopping *)

Lemma spawnStopCommand_frame (body : StopBody) (env : StopEnv) (w : World) :
  let w' := fst (spawnStopCommand body env w) in
  w_file w' = w_file w /\ w_guardianState w' = w_guardianState w
  /\ w_heap w' = w_heap w /\ w_processes w' = w_processes w
  /\ w_trace w'
     = w_trace w ++ (if str_truthy (st_stop_command body)
                     then [ASpawnStop (default "" (st_stop_command body))]
                     else []).
Proof.
  cbn zeta. unfold spawnStopCommand.
  destruct (str_truthy (st_stop_command body)); cbn [negb fst log w_file
    w_guardianState w_heap w_processes w_trace]; [done|].
  by rewrite app_nil_r.
Qed.

Lemma api_stop_frame (body : StopBody) (env : StopEnv) (w : World) :
  let w' := fst (api_stop body env w) in
  let id := default "" (st_id body) in
  let known := str_truthy (st_id body) in
  let live := isTaskRunning id w in
  w_file w' = w_file w
  /\ w_guardianState w' = w_guardianState w
  /\ w_heap w' = w_heap w
  /\ (forall k, e_proc <$> w_processes w' !! k = e_proc <$> w_processes w !! k)
  /\ exists target,
       (live = true ->
        exists e p, w_processes w !! id = Some e
                    /\ w_heap w !! e_proc e = Some p
                    /\ target = pid (p_child p))
       /\ w_trace w'
          = w_trace w
            ++ (if known && live then [ATreeKill target "SIGTERM"] else [])
            ++ (if known && str_truthy (st_stop_command body)
                   && (negb live || se_kill_failed env)
                then [ASpawnStop (default "" (st_stop_command body))]
                else []).
Proof.
  cbn zeta.
  pose proof (spawnStopCommand_frame body env) as Hs. cbn zeta in Hs.
  set (id := default "" (st_id body)).
  assert (exists target,
            forall e p, w_processes w !! id = Some e ->
                        w_heap w !! e_proc e = Some p ->
                        target = pid (p_child p)) as [target Htarget].
  { destruct (w_processes w !! id) as [e|] eqn:He; [|by exists None].
    destruct (w_heap w !! e_proc e) as [p|] eqn:Hp.
    - exists (pid (p_child p)). intros ? ? [= <-] Hp'. congruence.
    - exists None. intros ? ? [= <-] Hp'. congruence. }
  assert (isTaskRunning id w = true ->
          exists e p, w_processes w !! id = Some e
                      /\ w_heap w !! e_proc e = Some p
                      /\ target = pid (p_child p)) as Hlive.
  { unfold isTaskRunning.
    destruct (w_processes w !! id) as [e|] eqn:He; [|done].
    destruct (w_heap w !! e_proc e) as [p|] eqn:Hp; [|done].
    intros _. exists e, p. split; [done|]. split; [done|]. by eapply Htarget. }
  unfold api_stop. fold id.
  destruct (str_truthy (st_id body)) eqn:Hid; cbn [negb andb].
  2: { cbn [fst]. repeat (split; [done|]). exists target. split; [done|].
       by rewrite app_nil_r. }
  unfold isTaskRunning in *.
  destruct (w_processes w !! id) as [e|] eqn:He.
  2: { destruct (Hs w) as (-> & -> & -> & -> & ->).
       repeat (split; [done|]). exists target. split; [done|].
       cbn [negb orb app]. by rewrite andb_true_r. }
  destruct (w_heap w !! e_proc e) as [p|] eqn:Hp.
  2: { destruct (Hs w) as (-> & -> & -> & -> & ->).
       repeat (split; [done|]). exists target. split; [done|].
       cbn [negb orb app]. by rewrite andb_true_r. }
  destruct (isRunning (p_child p)) eqn:Hrun; cbn [negb orb].
  2: { destruct (Hs w) as (-> & -> & -> & -> & ->).
       repeat (split; [done|]). exists target. split; [done|].
       cbn [negb orb app]. by rewrite andb_true_r. }
  assert (target = pid (p_child p)) as -> by (by apply (Htarget e p)).
  clear Htarget Hlive.
  destruct (se_kill_failed env) eqn:Hk.
  - destruct (Hs (log (ATreeKill (pid (p_child p)) "SIGTERM") w))
      as (-> & -> & -> & -> & ->).
    cbn [log w_file w_guardianState w_heap w_processes w_trace].
    repeat (split; [done|]). exists (pid (p_child p)).
    split; [intros _; by exists e, p|].
    rewrite andb_true_r. by rewrite <- app_assoc.
  - cbn [fst log with_processes w_file w_guardianState w_heap
         w_processes w_trace].
    repeat (split; [done|]). split.
    { intros k. rewrite lookup_alter.
      destruct (decide _) as [<-|]; [|done]. by rewrite He. }
    exists (pid (p_child p)). split; [intros _; by exists e, p|].
    rewrite andb_false_r. by rewrite app_nil_r.
Qed.

(** [POST /api/projects/stop] touches neither the task file nor the state
    of the guardian; it starts no task and removes no registry entry.  What
    it does besides answering is known in full: it sends SIGTERM to the
    child of the task when the task is reported as running, and it runs
    the stop command of the request through the shell when there is one
    and the task is not running or the kill has failed; nothing else.  The
    stop is recorded in the store only by the [PUT] the dashboard sends
    afterwards. *)
Theorem stop_leaves_store (body : StopBody) (env : StopEnv) (w : World) :
  let w' := fst (api_stop body env w) in
  let id := default "" (st_id body) in
  let known := str_truthy (st_id body) in
  let live := isTaskRunning id w in
  w_file w' = w_file w
  /\ w_guardianState w' = w_guardianState w
  /\ w_heap w' = w_heap w
  /\ (forall k, e_proc <$> w_processes w' !! k = e_proc <$> w_processes w !! k)
  /\ exists target,
       (live = true ->
        exists e p, w_processes w !! id = Some e
                    /\ w_heap w !! e_proc e = Some p
                    /\ target = pid (p_child p))
       /\ w_trace w'
          = w_trace w
            ++ (if known && live then [ATreeKill target "SIGTERM"] else [])
            ++ (if known && str_truthy (st_stop_command body)
                   && (negb live || se_kill_failed env)
                then [ASpawnStop (default "" (st_stop_command body))]
                else []).
Proof. apply api_stop_frame. Qed.
(** ** The dashboard's stop and restart flows *)

Lemma text_field_JStr k project s :
  prop k project = Some (JStr s) -> text_field k project = Some (Some s).
Proof. intros H. unfold text_field. by rewrite H. Qed.

Lemma url_id_JStr project id :
  prop "id" project = Some (JStr id) -> url_id project = id.
Proof. intros H. unfold url_id. by rewrite H. Qed.

(** The patch of the start handler leaves a task stored under its id
    string stored under it. *)
Lemma start_keeps_target id f1 f2 o1 now :
  stored_task (trim id) f1 = Some (JObj o1) ->
  obj_get "id" o1 = Some (JStr id) ->
  (f2 = f1
   \/ exists id',
        f2 = sr_file (patchProject id'
                        [("was_running_before_shutdown", JBool true)]
                        false now f1)) ->
  exists o2, stored_task (trim id) f2 = Some (JObj o2)
             /\ obj_get "id" o2 = Some (JStr id).
Proof.
  intros Hst1 Hid1 [->|[id' ->]]; [by exists o1|].
  destruct (decide (trim id = trim id')) as [Heq|Hne].
  - rewrite Heq in Hst1.
    destruct (patch_cases id' [("was_running_before_shutdown", JBool true)]
                false now f1 (JObj o1) Hst1 eq_refl)
      as [[_ ->]|(o1' & Ho1 & Hid1' & Hst')].
    + exists o1. by rewrite Heq.
    + injection Ho1 as <-. eexists. rewrite Heq, Hst'. rewrite sanitize_JObj.
      split; [done|].
      rewrite !obj_get_obj_without by done.
      by rewrite obj_get_apply_patch_id.
  - pose proof (patch_other_view id'
                  [("was_running_before_shutdown", JBool true)] false
                  now f1 (trim id) eq_refl Hne) as Hv.
    rewrite Hst1 in Hv.
    destruct (stored_task (trim id) (sr_file _)) as [x2|] eqn:Hx2; [|done].
    cbn [fmap option_fmap option_map] in Hv.
    destruct (stored_task_elem_of _ _ _ Hx2) as (_ & _ & o2 & ->).
    assert (task_view (JObj o2) = task_view (JObj o1)) as Hv' by congruence.
    apply (f_equal tv_id) in Hv'. cbn in Hv'.
    exists o2. split; [done|]. congruence.
Qed.

(** When the dashboard's stop flow is answered with a success, the stop is
    on record and the guardian keeps its hands off: for a task stored under
    the id string of the project, [manual_stopped] is [true] in the store
    afterwards, and no run of guardian ticks and child events that follows
    makes a restart attempt for it. *)
Theorem dashboard_stop_holds_guardian (project : json) (env : StopEnv)
    (put_now : string) (w w' : World) (id : string)
    (o : list (string * json)) (steps : list GStep) :
  handleStop project env put_now w = Some (w', StopDone) ->
  prop "id" project = Some (JStr id) ->
  stored_task (trim id) (w_file w) = Some (JObj o) ->
  obj_get "id" o = Some (JStr id) ->
  prop "manual_stopped" <$> stored_task (trim id) (w_file w')
  = Some (Some (JBool true))
  /\ attempts_of (trim id) (w_trace (guardian_run steps w'))
     = attempts_of (trim id) (w_trace w').
Proof.
  intros Hflow Hpid Hst Hid.
  assert (stored_task (trim id) (w_file w')
          = Some (sanitize (JObj (apply_patch [("manual_stopped", JBool true)]
                                    false put_now o)))) as Hst'.
  { revert Hflow. unfold handleStop.
    destruct (negb (truthy_opt (prop "id" project))); [intros [= _ ?]; done|].
    rewrite (text_field_JStr "id" project id Hpid). cbn [mbind option_bind].
    destruct (text_field "stop_command" project) as [cmd|];
      [|intros ?; done].
    cbn [mbind option_bind].
    pose proof (api_stop_frame (mkStopBody (Some id) cmd) env w) as (Hf & _).
    destruct (api_stop (mkStopBody (Some id) cmd) env w) as [w1 resp].
    cbn [fst] in Hf.
    destruct (http_ok resp); [|intros [= _ ?]; done].
    intros [= <-]. cbn [w_file store_apply].
    rewrite api_update_patch, (url_id_JStr project id Hpid), Hf.
    by apply patch_own_task. }
  assert (prop "manual_stopped"
            (sanitize (JObj (apply_patch [("manual_stopped", JBool true)]
                               false put_now o))) = Some (JBool true)) as Hm.
  { rewrite prop_sanitize by done.
    unfold apply_patch, spread, prop. cbn [fold_left fst snd].
    by rewrite !obj_get_obj_set. }
  split.
  - rewrite Hst'. cbn [fmap option_fmap option_map]. by rewrite Hm.
  - apply ineligible_run. eexists. split; [exact Hst'|].
    unfold eligible, guard_config, manualStopped. cbn [gc_auto gc_manual gc_was].
    rewrite Hm. cbn. by rewrite andb_false_r.
Qed.

Lemma after_restart_started project id env w w' :
  after_restart project id env w = (w', Started) ->
  w_file w'
  = sr_file (patchProject (url_id project) (fields_of (restart_data true env))
                          false (sf_put2_now env) (w_file w)).
Proof.
  unfold after_restart.
  pose proof (waitForRunningStatus_file (url_id project) 10 (sf_polls env) w)
    as Hf.
  destruct (waitForRunningStatus _ _ _ _) as [ok w1]. cbn [snd] in Hf.
  destruct ok; [|intros [= _ ?]; done].
  intros [= <-]. cbn [w_file store_apply].
  by rewrite api_update_patch, Hf.
Qed.

(** A restart from the dashboard that ends with the task seen running
    resets the counter of the guardian: for a task stored under the id
    string of the project, [restart_count] is 0 and [manual_stopped] is
    [false] in the store afterwards. *)
Theorem dashboard_restart_resets_count (project : json)
    (env : RestartFlowEnv) (w w' : World) (id : string)
    (o : list (string * json)) :
  handleRestart project env w = Some (w', Started) ->
  prop "id" project = Some (JStr id) ->
  stored_task (trim id) (w_file w) = Some (JObj o) ->
  obj_get "id" o = Some (JStr id) ->
  prop "restart_count" <$> stored_task (trim id) (w_file w')
  = Some (Some (JNum 0))
  /\ prop "manual_stopped" <$> stored_task (trim id) (w_file w')
     = Some (Some (JBool false)).
Proof.
  intros Hflow Hpid Hst Hid.
  assert (exists f2 o2,
            stored_task (trim id) f2 = Some (JObj o2)
            /\ obj_get "id" o2 = Some (JStr id)
            /\ w_file w'
               = sr_file (patchProject id
                            (fields_of (restart_data true (rf_flow env)))
                            false (sf_put2_now (rf_flow env)) f2))
    as (f2 & o2 & Hst2 & Hid2 & Hw').
  { revert Hflow. unfold handleRestart.
    destruct (_ || _)%bool; [intros [= _ ?]; done|].
    rewrite (text_field_JStr "id" project id Hpid). cbn [mbind option_bind].
    destruct (text_field "start_command" project) as [start|];
      [|intros ?; done].
    cbn [mbind option_bind].
    destruct (text_field "stop_command" project) as [stop|];
      [|intros ?; done].
    cbn [mbind option_bind].
    set (w1 := run_events (rf_between env)
                 (fst (api_stop (mkStopBody (Some id) stop) (rf_stop env) w))).
    assert (w_file w1 = w_file w) as Hf1.
    { subst w1. rewrite run_events_file.
      by destruct (api_stop_frame (mkStopBody (Some id) stop) (rf_stop env) w)
        as (Hf & _). }
    set (body := mkStartBody (Some id) start (Some (JNum 2000))).
    pose proof (api_start_file body (sf_ospid (rf_flow env))
                  (sf_start_now (rf_flow env)) w1) as Hf2.
    destruct (api_start body (sf_ospid (rf_flow env))
                (sf_start_now (rf_flow env)) w1) as [w2 [resp|r]];
      cbn [fst] in Hf2; rewrite Hf1 in Hf2.
    - destruct (strict_eq _ _); [intros [= _ ?]; done|].
      intros [= H]. apply after_restart_started in H.
      rewrite (url_id_JStr project id Hpid) in H.
      destruct (start_keeps_target id (w_file w) (w_file w2) o
                  (sf_start_now (rf_flow env)) Hst Hid Hf2)
        as (o2 & Hst2 & Hid2).
      by exists (w_file w2), o2.
    - destruct (response_of r _) as [resp|]; [|intros [= _ ?]; done].
      destruct (strict_eq _ _); [intros [= _ ?]; done|].
      intros [= H]. apply after_restart_started in H.
      rewrite (url_id_JStr project id Hpid), run_events_file in H.
      destruct (start_keeps_target id (w_file w) (w_file w2) o
                  (sf_start_now (rf_flow env)) Hst Hid Hf2)
        as (o2 & Hst2 & Hid2).
      by exists (w_file w2), o2. }
  rewrite Hw'.
  rewrite (patch_own_task id _ false (sf_put2_now (rf_flow env)) f2 o2)
    by done.
  cbn [fmap option_fmap option_map]. rewrite !prop_sanitize by done.
  unfold restart_data, fields_of, apply_patch, spread, prop.
  cbn [fold_left fst snd]. by rewrite !obj_get_obj_set.
Qed.
(** ** Numbers read from text *)

Lemma digit_of_digit_char d :
  (0 <= d < 10)%Z -> digit_of (digit_char d) = Some d.
Proof.
  intros H.
  assert (d = 0 \/ d = 1 \/ d = 2 \/ d = 3 \/ d = 4 \/ d = 5 \/ d = 6
          \/ d = 7 \/ d = 8 \/ d = 9)%Z as Hd by lia.
  repeat (destruct Hd as [->|Hd]; [reflexivity|]). by subst.
Qed.

Lemma digit_char_plain d :
  (0 <= d < 10)%Z ->
  is_ws (digit_char d) = false
  /\ digit_char d <> "-"%char /\ digit_char d <> "+"%char.
Proof.
  intros H.
  assert (d = 0 \/ d = 1 \/ d = 2 \/ d = 3 \/ d = 4 \/ d = 5 \/ d = 6
          \/ d = 7 \/ d = 8 \/ d = 9)%Z as Hd by lia.
  repeat (destruct Hd as [->|Hd]; [by vm_compute|]). subst. by vm_compute.
Qed.

Lemma pretty_N_char_digit x :
  (x < 10)%N -> pretty_N_char x = digit_char (Z.of_N x).
Proof.
  intros H.
  assert (x = 0 \/ x = 1 \/ x = 2 \/ x = 3 \/ x = 4 \/ x = 5 \/ x = 6
          \/ x = 7 \/ x = 8 \/ x = 9)%N as Hd by lia.
  repeat (destruct Hd as [->|Hd]; [reflexivity|]). by subst.
Qed.

Lemma digit_prefix_app ds rest :
  Forall (fun d => 0 <= d < 10)%Z ds ->
  digit_prefix (map digit_char ds ++ rest) = ds ++ digit_prefix rest.
Proof.
  induction 1 as [|d ds Hd _ IH]; [done|].
  cbn [map app digit_prefix]. by rewrite digit_of_digit_char, IH.
Qed.

Lemma digits_value_snoc ds d :
  digits_value (ds ++ [d]) = (10 * digits_value ds + d)%Z.
Proof. unfold digits_value. by rewrite fold_left_app. Qed.

(** The text [pretty_N_go x s] is the digits of [x] put before [s]. *)
Lemma pretty_N_go_digits x : forall s,
  exists ds,
    list_ascii_of_string (pretty_N_go x s)
    = map digit_char ds ++ list_ascii_of_string s
    /\ Forall (fun d => 0 <= d < 10)%Z ds
    /\ digits_value ds = Z.of_N x
    /\ ((0 < x)%N -> ds <> []).
Proof.
  induction (N.lt_wf_0 x) as [x _ IH]. intros s.
  destruct (decide (x = 0%N)) as [->|Hx].
  - exists []. rewrite pretty_N_go_0. repeat split; try done; try lia.
  - rewrite pretty_N_go_step by lia.
    destruct (IH (x `div` 10)%N) with
      (s := String (pretty_N_char (x `mod` 10)) s)
      as (ds & Hds & Hall & Hval & _).
    { apply N.div_lt; lia. }
    assert (x `mod` 10 < 10)%N as Hm by (apply N.mod_lt; lia).
    exists (ds ++ [Z.of_N (x `mod` 10)]). split; [|split; [|split]].
    + rewrite Hds. cbn [list_ascii_of_string].
      rewrite map_app, <- app_assoc. cbn [map app].
      by rewrite pretty_N_char_digit.
    + apply Forall_app. split; [done|]. apply Forall_singleton.
      cbn beta. split; [apply N2Z.is_nonneg|].
      change 10%Z with (Z.of_N 10). by apply N2Z.inj_lt.
    + rewrite digits_value_snoc, Hval.
      rewrite (N.div_mod x 10) at 3 by lia.
      rewrite N2Z.inj_add, N2Z.inj_mul. done.
    + intros _. by destruct ds.
Qed.

Lemma parseInt10_digits ds rest :
  Forall (fun d => 0 <= d < 10)%Z ds -> ds <> [] ->
  digit_prefix rest = [] ->
  forall s, list_ascii_of_string s = map digit_char ds ++ rest ->
  parseInt10 s = Some (digits_value ds).
Proof.
  intros Hall Hne Hrest s Hs. unfold parseInt10. rewrite Hs.
  destruct ds as [|d ds]; [done|].
  apply Forall_cons in Hall as Hall'. destruct Hall' as [Hd Hds].
  destruct (digit_char_plain d Hd) as (Hws & Hminus & Hplus).
  cbn [map app]. rewrite trimStart_l_fixed by done.
  assert (match digit_char d :: map digit_char ds ++ rest with
          | "-"%char :: r => ((-1)%Z, r)
          | "+"%char :: r => (1%Z, r)
          | _ => (1%Z, digit_char d :: map digit_char ds ++ rest)
          end = (1%Z, map digit_char (d :: ds) ++ rest)) as ->.
  { cbn [map app]. remember (digit_char d) as c eqn:Ec. clear Ec Hws.
    destruct c as [[] [] [] [] [] [] [] []]; try done; congruence. }
  rewrite digit_prefix_app, Hrest, app_nil_r by done.
  f_equal. lia.
Qed.

(** Reading a number back from its decimal text. *)
Lemma parseInt10_pretty (n : Z) : parseInt10 (pretty n) = Some n.
Proof.
  destruct n as [|p|p].
  - reflexivity.
  - unfold pretty, pretty_Z, pretty, pretty_positive, pretty, pretty_N.
    destruct (decide (N.pos p = 0%N)); [done|].
    destruct (pretty_N_go_digits (N.pos p) "") as (ds & Hds & Hall & Hval & Hne).
    rewrite (parseInt10_digits ds [] Hall) by (try done; apply Hne; lia).
    by rewrite Hval.
  - unfold pretty, pretty_Z, pretty, pretty_positive, pretty, pretty_N.
    destruct (decide (N.pos p = 0%N)); [done|].
    destruct (pretty_N_go_digits (N.pos p) "") as (ds & Hds & Hall & Hval & Hne).
    unfold parseInt10.
    change (list_ascii_of_string ("-" +:+ pretty_N_go (N.pos p) ""))
      with ("-"%char :: list_ascii_of_string (pretty_N_go (N.pos p) "")).
    rewrite trimStart_l_fixed by done.
    rewrite Hds, digit_prefix_app by done. cbn [list_ascii_of_string].
    rewrite app_nil_r. cbn [digit_prefix].
    destruct ds as [|d ds]; [exfalso; by apply Hne|].
    by rewrite Hval.
Qed.

(** ** Killing a process by its pid *)

(** [POST /api/processes/kill] hands [treeKill] the pid and the signal of
    the request, once, or nothing at all.  It either refuses the request
    with 400 and does nothing, which it never does for a pid given as a
    number above 0; or it calls [treeKill] once, on a pid above 0, with the
    signal of the request when that is a string that is not empty, and with
    SIGTERM otherwise, and answers 200 with that pid and signal, or 500 with
    the error [treeKill] reports.  A pid given as a number is the pid
    handed on (for the whole numbers below 10^21, which are printed in full
    before they are parsed).  The registry of tasks and the store are never
    touched. *)
Theorem kill_passes_pid_and_signal (body : json)
    (kill_error : option string) (w : World) :
  let w' := fst (api_kill body kill_error w) in
  let resp := snd (api_kill body kill_error w) in
  w_file w' = w_file w /\ w_heap w' = w_heap w
  /\ w_processes w' = w_processes w
  /\ (w_trace w' = w_trace w
      /\ resp = mkResp 400 (JObj [("error", JStr "pid is required")])
      /\ (forall n, prop "pid" body = Some (JNum n) -> (n <= 0)%Z)
      \/ exists p sig,
           (0 < p)%Z
           /\ w_trace w' = w_trace w ++ [ATreeKill (Some p) sig]
           /\ (forall n, prop "pid" body = Some (JNum n) ->
                          (n < 10 ^ 21)%Z -> p = n)
           /\ (forall s, prop "signal" body = Some (JStr s) ->
                          s <> "" -> sig = s)
           /\ ((forall s, prop "signal" body = Some (JStr s) -> s = "") ->
               sig = "SIGTERM")
           /\ resp = match kill_error with
                     | None =>
                         mkResp 200 (JObj [("ok", JBool true); ("pid", JNum p);
                                           ("signal", JStr sig)])
                     | Some err =>
                         mkResp 500 (JObj [("ok", JBool false);
                                           ("error", JStr err)])
                     end).
Proof.
  cbn zeta. unfold api_kill.
  destruct (parseInt_prop (prop "pid" body)) as [p|] eqn:Hp.
  - destruct (p <=? 0)%Z eqn:Hpos.
    + apply Z.leb_le in Hpos. cbn [fst snd].
      split; [done|]. split; [done|]. split; [done|]. left.
      split; [done|]. split; [done|].
      intros n Hn. rewrite Hn in Hp. unfold parseInt_prop in Hp. cbn in Hp.
      rewrite parseInt10_pretty in Hp. congruence.
    + apply Z.leb_gt in Hpos.
      set (sig := match prop "signal" body with
                  | Some (JStr s) => if String.eqb s "" then "SIGTERM" else s
                  | _ => "SIGTERM"
                  end).
      assert ((forall s, prop "signal" body = Some (JStr s) ->
                         s <> "" -> sig = s)
              /\ ((forall s, prop "signal" body = Some (JStr s) -> s = "") ->
                  sig = "SIGTERM")) as [Hsig1 Hsig2].
      { subst sig. destruct (prop "signal" body) as [[| | |s| |]|];
          try (split; [by intros ? [=]|done]).
        destruct (String.eqb s "") eqn:E.
        - apply String.eqb_eq in E. subst s.
          split; [by intros ? [= <-]|done].
        - apply String.eqb_neq in E. split; [by intros ? [= <-]|].
          intros H. by specialize (H s eq_refl). }
      clearbody sig.
      assert (forall n, prop "pid" body = Some (JNum n) -> p = n) as Hnum.
      { intros n Hn. rewrite Hn in Hp. unfold parseInt_prop in Hp. cbn in Hp.
        rewrite parseInt10_pretty in Hp. congruence. }
      destruct kill_error as [err|]; cbn [fst snd log w_file w_heap
                                          w_processes w_trace];
        (split; [done|]; split; [done|]; split; [done|]; right;
         exists p, sig; split; [done|]; split; [done|];
         split; [by intros n Hn _; apply Hnum|]; split; [done|];
         split; [done|]; done).
  - cbn [fst snd]. split; [done|]. split; [done|]. split; [done|]. left.
    split; [done|]. split; [done|].
    intros n Hn. rewrite Hn in Hp. unfold parseInt_prop in Hp. cbn in Hp.
    rewrite parseInt10_pretty in Hp. discriminate.
Qed.

(** ** The columns of a CSV line *)

Lemma string_of_list_ascii_app l1 l2 :
  string_of_list_ascii (l1 ++ l2)
  = string_of_list_ascii l1 +:+ string_of_list_ascii l2.
Proof.
  induction l1 as [|a l1 IH]; [done|].
  cbn [app string_of_list_ascii]. by rewrite IH.
Qed.

Lemma list_ascii_of_string_app s1 s2 :
  list_ascii_of_string (s1 +:+ s2)
  = list_ascii_of_string s1 ++ list_ascii_of_string s2.
Proof.
  induction s1 as [|a s1 IH]; [done|].
  change (String a s1 +:+ s2) with (String a (s1 +:+ s2)).
  cbn [list_ascii_of_string app]. by rewrite IH.
Qed.

(** Inside quotes everything up to the closing quote is kept, commas
    included. *)
Lemma csv_scan_quoted l : forall rest cur cols,
  quote_char ∉ l ->
  csv_scan (l ++ quote_char :: rest) cur true cols
  = csv_scan rest (cur ++ l) false cols.
Proof.
  induction l as [|a l IH]; intros rest cur cols Hq.
  - cbn [app csv_scan]. rewrite Ascii.eqb_refl, app_nil_r. done.
  - apply not_elem_of_cons in Hq as [Ha Hq].
    cbn [app csv_scan].
    assert (Ascii.eqb a quote_char = false) as -> by (by apply Ascii.eqb_neq).
    cbn [negb andb]. rewrite andb_false_r.
    rewrite IH by done. by rewrite <- app_assoc.
Qed.

Lemma csv_scan_line fields : forall cols,
  fields <> [] ->
  Forall (fun f => quote_char ∉ list_ascii_of_string f) fields ->
  csv_scan (list_ascii_of_string (csv_line fields)) [] false cols
  = cols ++ fields.
Proof.
  induction fields as [|f rest IH]; intros cols Hne Hall; [done|].
  apply Forall_cons in Hall as [Hf Hrest].
  assert (forall tail,
            csv_scan (list_ascii_of_string (csv_quoted f) ++ tail) [] false cols
            = csv_scan tail (list_ascii_of_string f) false cols) as Hfield.
  { intros tail. unfold csv_quoted. cbn [list_ascii_of_string app csv_scan].
    rewrite Ascii.eqb_refl. cbn [negb].
    rewrite list_ascii_of_string_app. cbn [list_ascii_of_string].
    rewrite <- app_assoc. cbn [app].
    by rewrite csv_scan_quoted. }
  destruct rest as [|g rest].
  - cbn [csv_line].
    rewrite <- (app_nil_r (list_ascii_of_string (csv_quoted f))), Hfield.
    cbn [csv_scan]. by rewrite string_of_list_ascii_of_string.
  - change (csv_line (f :: g :: rest))
      with (csv_quoted f +:+ "," +:+ csv_line (g :: rest)).
    rewrite list_ascii_of_string_app, Hfield.
    rewrite list_ascii_of_string_app.
    change (list_ascii_of_string ",") with [","%char].
    cbn [app csv_scan].
    assert (Ascii.eqb ","%char quote_char = false) as -> by done.
    rewrite Ascii.eqb_refl. cbn [andb negb].
    rewrite IH by done.
    by rewrite string_of_list_ascii_of_string, <- app_assoc.
Qed.

Lemma quote_free_spec fields :
  forallb quote_free fields = true ->
  Forall (fun f => quote_char ∉ list_ascii_of_string f) fields.
Proof.
  intros H. apply Forall_forall. intros f Hf Hq.
  apply list_elem_of_In in Hf, Hq.
  eapply forallb_forall in H; [|exact Hf].
  unfold quote_free in H. eapply forallb_forall in H; [|exact Hq].
  by rewrite Ascii.eqb_refl in H.
Qed.

(** The column scanner of [windowsTaskImageMap] reads a line of quoted
    fields back: for fields that hold no double quote, commas allowed, the
    columns of the line that lists them between quotes are the fields.  A
    line [tasklist] prints for a process thus yields its image name under
    its pid. *)
Theorem csv_columns_of_quoted_line (fields : list string) :
  fields <> [] ->
  Forall (fun f => quote_char ∉ list_ascii_of_string f) fields ->
  csv_columns (csv_line fields) = fields
  /\ forall image pid rest,
       fields = image :: pretty pid :: rest ->
       task_image (csv_line fields) = Some (pid, image).
Proof.
  intros Hne Hall.
  assert (csv_columns (csv_line fields) = fields) as Hcols.
  { unfold csv_columns. by rewrite csv_scan_line. }
  split; [done|].
  intros image pid rest ->. unfold task_image. rewrite Hcols.
  change ((image :: pretty pid :: rest) !! 1%nat) with (Some (pretty pid)).
  change ((image :: pretty pid :: rest) !! 0%nat) with (Some image).
  cbn [default]. unfold id. by rewrite parseInt10_pretty.
Qed.

(** ** Restarting with the command of the last start *)

Lemma step_entry_command ev w id :
  e_command <$> (w_processes (step ev w) !! id)
  = e_command <$> (w_processes w !! id).
Proof.
  unfold step. destruct (w_heap w !! target ev) as [p|]; [|done].
  cbn [w_processes with_processes with_heap].
  destruct ev; cbn [on_event_registry]; try done;
    rewrite mark_stopped_lookup; destruct (decide _); try done;
    by destruct (w_processes w !! id).
Qed.

Lemma run_events_entry_command evs : forall w id,
  e_command <$> (w_processes (run_events evs w) !! id)
  = e_command <$> (w_processes w !! id).
Proof.
  induction evs as [|ev evs IH]; intros w id; [done|].
  change (run_events (ev :: evs) w) with (run_events evs (step ev w)).
  by rewrite IH, step_entry_command.
Qed.

(** A restart request that names no command starts the command of the last
    start request accepted for the id, whatever has happened to that child
    since. *)
Theorem restart_reuses_command (w : World) (id command : string)
    (tmo tmo' : option json) (ospid : option Z) (now : string)
    (evs : list Event) :
  id <> "" -> command <> "" ->
  let w1 := fst (api_start (mkStartBody (Some id) (Some command) tmo)
                           ospid now w) in
  restart_command (mkStartBody (Some id) None tmo') (run_events evs w1)
  = inr command.
Proof.
  intros Hid Hcmd. cbn zeta.
  destruct (api_start_accepts w id command tmo ospid now Hid Hcmd)
    as (w1 & -> & _ & Hprocs & _). cbn [fst].
  pose proof (run_events_entry_command evs w1 id) as He.
  rewrite Hprocs, lookup_insert_eq in He. cbn in He.
  unfold restart_command. cbn [sb_id sb_start_command str_truthy default].
  apply String.eqb_neq in Hid, Hcmd. rewrite Hid. cbn [negb].
  unfold Datatypes.id. rewrite He. cbn [str_truthy default].
  by rewrite Hcmd.
Qed.
(** ** More on the start handler *)

(** An accepted start request marks the task as one that has run, before
    it is known whether the command starts: for a task stored under the id
    string of the request, [was_running_before_shutdown] is [true] in the
    store from then on, whatever the child does, also when it exits at once
    and the request is answered with a failure. *)
Theorem start_marks_was_running (w : World) (id command : string)
    (tmo : option json) (ospid : option Z) (now : string)
    (evs : list Event) (o : list (string * json)) :
  id <> "" -> command <> "" ->
  stored_task (trim id) (w_file w) = Some (JObj o) ->
  obj_get "id" o = Some (JStr id) ->
  let w1 := fst (api_start (mkStartBody (Some id) (Some command) tmo)
                           ospid now w) in
  prop "was_running_before_shutdown"
    <$> stored_task (trim id) (w_file (run_events evs w1))
  = Some (Some (JBool true)).
Proof.
  intros Hid Hcmd Hst Ho. cbn zeta.
  destruct (api_start_accepts w id command tmo ospid now Hid Hcmd)
    as (w1 & -> & _ & _ & _ & Hfile). cbn [fst].
  rewrite run_events_file, Hfile.
  rewrite (patch_own_task id _ false now (w_file w) o) by done.
  cbn [fmap option_fmap option_map]. rewrite prop_sanitize by done.
  unfold apply_patch, spread, prop. cbn [fold_left fst snd].
  by rewrite !obj_get_obj_set.
Qed.

(** After a start request is accepted, the status of its id follows the new
    child and no other: events of other children, the exit of a child the
    id had before among them, leave the id reported as running. *)
Theorem start_status_follows_new_child (w : World) (id command : string)
    (tmo : option json) (ospid : option Z) (now : string)
    (evs : list Event) :
  id <> "" -> command <> "" ->
  Forall (fun ev => target ev <> length (w_heap w)) evs ->
  let w1 := fst (api_start (mkStartBody (Some id) (Some command) tmo)
                           ospid now w) in
  prop "running" (r_body (api_status id (run_events evs w1)))
  = Some (JBool true).
Proof.
  intros Hid Hcmd Hall. cbn zeta.
  destruct (api_start_accepts w id command tmo ospid now Hid Hcmd)
    as (w1 & -> & Hheap & Hprocs & _). cbn [fst].
  rewrite status_running. f_equal. f_equal.
  pose proof (run_events_entry_proc evs w1 id) as Hentry.
  rewrite Hprocs, lookup_insert_eq in Hentry. cbn in Hentry.
  unfold isTaskRunning.
  destruct (w_processes (run_events evs w1) !! id) as [e|]; [|done].
  cbn in Hentry. injection Hentry as ->.
  rewrite (run_events_others _ evs w1 Hall), Hheap.
  by rewrite lookup_app_r, Nat.sub_diag.
Qed.
(** ** Finding processes *)

Lemma split_on_line sep l rest :
  forallb (fun a => negb (Ascii.eqb a sep)) l = true ->
  split_on sep (l ++ sep :: rest) = l :: split_on sep rest.
Proof.
  induction l as [|a l IH]; cbn [app split_on forallb]; intros H.
  - by rewrite Ascii.eqb_refl.
  - apply andb_prop in H as [Ha H]. apply negb_true_iff in Ha.
    by rewrite Ha, IH.
Qed.

Lemma split_on_lines sep (lines : list (list ascii)) :
  Forall (fun l => forallb (fun a => negb (Ascii.eqb a sep)) l = true) lines ->
  split_on sep (concat (map (fun l => l ++ [sep]) lines)) = lines ++ [[]].
Proof.
  induction 1 as [|l lines Hl _ IH]; [done|].
  cbn [map concat]. rewrite <- app_assoc. cbn [app].
  by rewrite split_on_line, IH.
Qed.

Lemma trimStart_l_spaces n l :
  trimStart_l (repeat space n ++ l) = trimStart_l l.
Proof. induction n as [|n IH]; [done|]. exact IH. Qed.

Lemma trimEnd_l_fixed l a : is_ws a = false -> trimEnd_l (l ++ [a]) = l ++ [a].
Proof.
  intros Ha. unfold trimEnd_l. rewrite rev_unit.
  rewrite trimStart_l_fixed by done. cbn [rev]. by rewrite rev_involutive.
Qed.

Lemma rev_head_last {A} (l : list A) a r : rev l = a :: r -> l = rev r ++ [a].
Proof.
  intros H. apply (f_equal (@rev A)) in H.
  by rewrite rev_involutive in H.
Qed.

Lemma pretty_nonneg_digits pid :
  (0 <= pid)%Z ->
  exists ds,
    list_ascii_of_string (pretty pid) = map digit_char ds
    /\ Forall (fun d => 0 <= d < 10)%Z ds
    /\ ds <> [] /\ digits_value ds = pid.
Proof.
  intros Hp. destruct pid as [|p|p]; [|clear Hp|lia].
  - exists [0%Z]. repeat split; try done. apply Forall_singleton. lia.
  - unfold pretty, pretty_Z, pretty, pretty_positive, pretty, pretty_N.
    destruct (decide (N.pos p = 0%N)); [done|].
    destruct (pretty_N_go_digits (N.pos p) "") as (ds & Hds & Hall & Hval & Hne).
    exists ds. cbn [list_ascii_of_string] in Hds. rewrite app_nil_r in Hds.
    split; [done|]. split; [done|]. split; [by apply Hne|done].
Qed.

Lemma digit_char_no_newline d :
  (0 <= d < 10)%Z -> Ascii.eqb (digit_char d) newline = false.
Proof.
  intros H.
  assert (d = 0 \/ d = 1 \/ d = 2 \/ d = 3 \/ d = 4 \/ d = 5 \/ d = 6
          \/ d = 7 \/ d = 8 \/ d = 9)%Z as Hd by lia.
  repeat (destruct Hd as [->|Hd]; [reflexivity|]). by subst.
Qed.

Lemma line_terminator_newline a :
  is_line_terminator a = false -> Ascii.eqb a newline = false.
Proof.
  intros H. apply Ascii.eqb_neq. intros ->. discriminate H.
Qed.

Lemma shown_command_parts command :
  shown_command command = true ->
  exists a body b,
    (list_ascii_of_string command = a :: body)
    /\ is_ws a = false
    /\ (exists init, list_ascii_of_string command = init ++ [b])
    /\ is_ws b = false
    /\ forallb (fun a => negb (is_line_terminator a))
               (list_ascii_of_string command) = true.
Proof.
  unfold shown_command. intros H.
  apply andb_prop in H as [H Hlt]. apply andb_prop in H as [Hfirst Hlast].
  destruct (list_ascii_of_string command) as [|a body] eqn:El; [done|].
  destruct (rev (a :: body)) as [|b r] eqn:Er; [done|].
  apply rev_head_last in Er.
  exists a, body, b. split; [done|]. split; [by apply negb_true_iff|].
  split; [by eexists|]. split; [by apply negb_true_iff|done].
Qed.

(** A line of [ps], once trimmed, is matched by the expression of the
    handler, which reads the pid and the command back. *)
Lemma ps_line_read pad pid command :
  (0 <= pid)%Z -> shown_command command = true ->
  forallb (fun a => negb (Ascii.eqb a newline)) (ps_line (pad, pid, command))
  = true
  /\ trim_l (ps_line (pad, pid, command)) <> []
  /\ match_ps_line (trim_l (ps_line (pad, pid, command)))
     = Some (pid, command).
Proof.
  intros Hpid Hcmd.
  destruct (pretty_nonneg_digits pid Hpid) as (ds & Hds & Hall & Hne & Hval).
  destruct (shown_command_parts command Hcmd)
    as (a & body & b & Hfirst & Ha & [init Hlast] & Hb & Hlt).
  unfold ps_line. rewrite Hds.
  destruct ds as [|d ds]; [done|].
  apply Forall_cons in Hall as Hall'. destruct Hall' as [Hd Hds'].
  destruct (digit_char_plain d Hd) as (Hws & _ & _).
  assert (trim_l (repeat space pad
                  ++ map digit_char (d :: ds)
                  ++ space :: list_ascii_of_string command)
          = map digit_char (d :: ds) ++ space :: list_ascii_of_string command)
    as Htrim.
  { unfold trim_l. rewrite trimStart_l_spaces.
    cbn [map app]. rewrite trimStart_l_fixed by done.
    rewrite Hlast.
    change (digit_char d :: map digit_char ds ++ space :: init ++ [b])
      with ((digit_char d :: map digit_char ds ++ space :: init) ++ [b]
            ) || idtac.
    replace (digit_char d :: map digit_char ds ++ space :: init ++ [b])
      with ((digit_char d :: map digit_char ds ++ space :: init) ++ [b]).
    - by apply trimEnd_l_fixed.
    - cbn [app]. f_equal. rewrite <- app_assoc. done. }
  split; [|split].
  - rewrite !forallb_app. cbn [forallb].
    apply andb_true_intro. split.
    { apply forallb_forall. intros x Hx. apply repeat_spec in Hx. by subst. }
    apply andb_true_intro. split.
    { apply forallb_forall. intros x Hx.
      apply in_map_iff in Hx as (y & <- & Hy). apply negb_true_iff.
      apply digit_char_no_newline.
      eapply Forall_forall in Hall; [exact Hall|]. by apply list_elem_of_In. }
    apply andb_true_intro. split; [done|].
    apply forallb_forall. intros x Hx.
    eapply forallb_forall in Hlt; [|exact Hx].
    apply negb_true_iff, line_terminator_newline. by apply negb_true_iff.
  - rewrite Htrim. done.
  - rewrite Htrim. unfold match_ps_line.
    assert (digit_prefix (map digit_char (d :: ds)
                          ++ space :: list_ascii_of_string command)
            = d :: ds) as ->.
    { rewrite digit_prefix_app by done. cbn [digit_prefix].
      change (digit_of space) with (@None Z). by rewrite app_nil_r. }
    assert (drop (length (d :: ds))
                 (map digit_char (d :: ds)
                  ++ space :: list_ascii_of_string command)
            = space :: list_ascii_of_string command) as ->.
    { rewrite drop_app_length'; [done|]. by rewrite length_map. }
    change (is_ws space) with true. cbn iota.
    assert (trimStart_l (space :: list_ascii_of_string command)
            = list_ascii_of_string command) as ->.
    { change (trimStart_l (space :: ?l)) with (trimStart_l l).
      rewrite Hfirst. by apply trimStart_l_fixed. }
    assert (existsb is_line_terminator (list_ascii_of_string command) = false)
      as ->.
    { apply not_true_is_false. intros Hex.
      apply existsb_exists in Hex as (x & Hx & Hlx).
      eapply forallb_forall in Hlt; [|exact Hx]. by rewrite Hlx in Hlt. }
    by rewrite Hval, string_of_list_ascii_of_string.
Qed.

Lemma trimmed_lines_app l1 l2 :
  trimmed_lines (l1 ++ l2) = trimmed_lines l1 ++ trimmed_lines l2.
Proof. unfold trimmed_lines. by rewrite map_app, List.filter_app. Qed.

(** The search finds what [ps] lists: for a name that is not blank and a
    listing of processes with pids from 0 and command lines as [ps] shows
    them, the answer holds, in the order of the listing, the pid and the
    command line of exactly the processes whose command line includes the
    name, both taken in lower case. *)
Theorem search_finds_listed (q : option json) (rows : list (nat * Z * string)) :
  search_name q <> "" ->
  Forall (fun row => (0 <= snd (fst row))%Z /\ shown_command (snd row) = true)
         rows ->
  search_unix q (ps_output rows)
  = omap (found (toLowerCase (search_name q))) rows.
Proof.
  intros Hname Hrows. unfold search_unix, ps_output.
  apply String.eqb_neq in Hname. rewrite Hname.
  rewrite list_ascii_of_string_of_list_ascii.
  replace (concat (map (fun r => ps_line r ++ [newline]) rows))
    with (concat (map (fun l => l ++ [newline]) (map ps_line rows)))
    by (by rewrite map_map).
  rewrite (split_on_lines newline (map ps_line rows)). 2:{
    apply Forall_forall. intros l Hl.
    apply list_elem_of_In, in_map_iff in Hl as ([[pad pid] cmd] & <- & Hin).
    eapply Forall_forall in Hrows as [Hp Hc]; [|by apply list_elem_of_In].
    by destruct (ps_line_read pad pid cmd Hp Hc) as (H & _). }
  rewrite trimmed_lines_app.
  change (trimmed_lines [[]]) with (@nil (list ascii)). rewrite app_nil_r.
  induction Hrows as [|[[pad pid] cmd] rows [Hp Hc] _ IH]; [done|].
  cbn [fst snd] in Hp, Hc.
  destruct (ps_line_read pad pid cmd Hp Hc) as (_ & Hne & Hread).
  unfold trimmed_lines in *. cbn [map List.filter].
  destruct (trim_l (ps_line (pad, pid, cmd))) eqn:E; [done|].
  rewrite <- E in *. cbn [omap list_omap found].
  change (omap ?f (?x :: ?l))
    with (match f x with Some y => y :: omap f l | None => omap f l end).
  rewrite Hread, IH. cbn [found].
  by destruct (includes _ _).
Qed.
(** ** Who holds a port *)

Lemma token_chars f :
  token f = true ->
  list_ascii_of_string f <> []
  /\ forallb (fun a => negb (is_ws a)) (list_ascii_of_string f) = true.
Proof.
  unfold token. destruct (list_ascii_of_string f); [done|]. by intros H.
Qed.

Lemma split_ws_text t : forall l cur in_sep,
  t <> [] -> forallb (fun a => negb (is_ws a)) t = true ->
  split_ws (t ++ l) cur in_sep = split_ws l (cur ++ t) false.
Proof.
  induction t as [|a t IH]; intros l cur in_sep Hne Hall; [done|].
  cbn [forallb] in Hall. apply andb_prop in Hall as [Ha Hall].
  apply negb_true_iff in Ha. cbn [app split_ws]. rewrite Ha.
  destruct t as [|b t].
  - done.
  - rewrite IH by done. by rewrite <- app_assoc.
Qed.

Lemma split_ws_spaces n : forall l cur,
  split_ws (repeat space n ++ l) cur true = split_ws l cur true.
Proof. induction n as [|n IH]; intros l cur; [done|]. cbn. apply IH. Qed.

Lemma split_ws_fields fields : forall cur,
  forallb (fun f => token (snd f)) fields = true ->
  split_ws (lsof_line fields) cur false
  = string_of_list_ascii cur :: map snd fields.
Proof.
  induction fields as [|[pad f] fields IH]; intros cur Hall; [done|].
  cbn [forallb snd] in Hall. apply andb_prop in Hall as [Hf Hall].
  destruct (token_chars f Hf) as [Hne Hchars].
  unfold lsof_line. cbn [map concat fst snd].
  fold (lsof_line fields). rewrite <- app_assoc.
  change (repeat space (S pad)) with (space :: repeat space pad).
  cbn [app split_ws]. change (is_ws space) with true. cbn iota.
  rewrite split_ws_spaces, split_ws_text by done.
  rewrite IH by done. cbn [app].
  by rewrite string_of_list_ascii_of_string.
Qed.

Lemma token_last f :
  token f = true ->
  exists b, last (list_ascii_of_string f) = Some b /\ is_ws b = false.
Proof.
  intros Hf. destruct (token_chars f Hf) as [Hne Hchars].
  destruct (last (list_ascii_of_string f)) as [b|] eqn:El.
  - exists b. split; [done|].
    apply last_Some_elem_of, list_elem_of_In in El.
    eapply forallb_forall in Hchars; [|exact El]. by apply negb_true_iff.
  - by apply last_None in El.
Qed.

Lemma lsof_line_last fields :
  fields <> [] -> forallb (fun f => token (snd f)) fields = true ->
  exists b, last (lsof_line fields) = Some b /\ is_ws b = false.
Proof.
  induction fields as [|[pad f] fields IH]; intros Hne Hall; [done|].
  cbn [forallb snd] in Hall. apply andb_prop in Hall as [Hf Hall].
  unfold lsof_line. cbn [map concat fst snd]. fold (lsof_line fields).
  destruct fields as [|g fields].
  - destruct (token_last f Hf) as (b & Hb & Hws). exists b.
    change (lsof_line []) with (@nil ascii).
    by rewrite app_nil_r, last_app, Hb.
  - destruct (IH ltac:(done) Hall) as (b & Hb & Hws). exists b.
    by rewrite last_app, Hb.
Qed.

(** A line of [lsof], once trimmed, falls into its columns. *)
Lemma lsof_line_read fields :
  fields <> [] -> forallb (fun f => token (snd f)) fields = true ->
  forallb (fun a => negb (Ascii.eqb a newline)) (lsof_line fields) = true
  /\ trim_l (lsof_line fields) <> []
  /\ split_ws (trim_l (lsof_line fields)) [] false = map snd fields.
Proof.
  intros Hne Hall. split.
  { clear Hne. induction fields as [|[pad f] fields IH]; [done|].
    cbn [forallb snd] in Hall. apply andb_prop in Hall as [Hf Hall].
    destruct (token_chars f Hf) as [_ Hchars].
    unfold lsof_line. cbn [map concat fst snd]. fold (lsof_line fields).
    rewrite !forallb_app. apply andb_true_intro. split; [|by apply IH].
    apply andb_true_intro. split.
    - apply forallb_forall. intros x Hx. apply repeat_spec in Hx. by subst.
    - apply forallb_forall. intros x Hx.
      eapply forallb_forall in Hchars; [|exact Hx].
      apply negb_true_iff, Ascii.eqb_neq. intros ->. done. }
  destruct (lsof_line_last fields Hne Hall) as (b & Hb & Hws).
  destruct fields as [|[pad f] fields]; [done|].
  cbn [forallb snd] in Hall. apply andb_prop in Hall as [Hf Hall].
  destruct (token_chars f Hf) as [Hfne Hchars].
  assert (trim_l (lsof_line ((pad, f) :: fields))
          = list_ascii_of_string f ++ lsof_line fields) as Htrim.
  { unfold trim_l.
    assert (trimStart_l (lsof_line ((pad, f) :: fields))
            = list_ascii_of_string f ++ lsof_line fields) as ->.
    { unfold lsof_line. cbn [map concat fst snd]. fold (lsof_line fields).
      rewrite <- app_assoc, trimStart_l_spaces.
      destruct (list_ascii_of_string f) as [|a t]; [done|].
      cbn [forallb] in Hchars. apply andb_prop in Hchars as [Ha _].
      apply negb_true_iff in Ha. cbn [app]. by apply trimStart_l_fixed. }
    assert (last (list_ascii_of_string f ++ lsof_line fields) = Some b) as Hl.
    { revert Hb. unfold lsof_line. cbn [map concat fst snd].
      fold (lsof_line fields). rewrite <- app_assoc, !last_app.
      destruct (last (lsof_line fields)); [done|].
      destruct (token_last f Hf) as (b' & -> & _). done. }
    apply last_Some in Hl as [init ->]. by apply trimEnd_l_fixed. }
  rewrite Htrim. split.
  - by destruct (list_ascii_of_string f).
  - rewrite split_ws_text by done. rewrite split_ws_fields by done.
    cbn [app map snd]. by rewrite string_of_list_ascii_of_string.
Qed.

Lemma lsof_row_read pid fields :
  forallb (fun f => token (snd f)) fields = true ->
  snd <$> fields !! 1%nat = Some (pretty pid) ->
  forallb (fun a => negb (Ascii.eqb a newline)) (lsof_line fields) = true
  /\ trim_l (lsof_line fields) <> []
  /\ lsof_row (trim_l (lsof_line fields)) = Some (port_holder pid fields).
Proof.
  intros Hall Hpid.
  assert (fields <> []) as Hne by (by destruct fields).
  destruct (lsof_line_read fields Hne Hall) as (Hnl & Hnonempty & Hsplit).
  split; [done|]. split; [done|].
  unfold lsof_row. rewrite Hsplit.
  assert ((length (map snd fields) <? 2)%nat = false) as ->.
  { apply Nat.ltb_ge. rewrite length_map.
    destruct fields as [|? [|? ?]]; cbn in *; try done; lia. }
  rewrite !list_lookup_fmap, Hpid. cbn [default]. unfold id.
  rewrite parseInt10_pretty.
  unfold port_holder. by rewrite fmap_last, head_lookup.
Qed.

(** The port query lists the holders of the port: for a port that reads as
    a number above 0 and an [lsof] listing of a header and lines of
    columns, the second being the pid, the answer holds for every line, in
    order, the pid, the first column as the command and the last column as
    the name. *)
Theorem by_port_lists_holders (param header : string)
    (rows : list (Z * list (nat * string))) :
  is_Some (port_number param) ->
  forallb (fun a => negb (Ascii.eqb a newline)) (list_ascii_of_string header)
  = true ->
  Forall (fun row => forallb (fun f => token (snd f)) (snd row) = true
                     /\ snd <$> snd row !! 1%nat = Some (pretty (fst row)))
         rows ->
  by_port_unix param (lsof_output header (map snd rows))
  = mkResp 200 (JArr (map (fun row => port_holder (fst row) (snd row)) rows)).
Proof.
  intros [p Hp] Hheader Hrows. unfold by_port_unix, lsof_output. rewrite Hp.
  do 2 f_equal.
  rewrite list_ascii_of_string_of_list_ascii.
  rewrite split_on_line by done. cbn [tail].
  replace (concat (map (fun r => lsof_line r ++ [newline]) (map snd rows)))
    with (concat (map (fun l => l ++ [newline])
                      (map lsof_line (map snd rows))))
    by (by rewrite map_map).
  rewrite split_on_lines. 2:{
    apply Forall_forall. intros l Hl.
    apply list_elem_of_In in Hl. rewrite map_map in Hl.
    apply in_map_iff in Hl as ([pid fields] & <- & Hin).
    eapply Forall_forall in Hrows as [Ht Hpid]; [|by apply list_elem_of_In].
    by destruct (lsof_row_read pid fields Ht Hpid) as (H & _). }
  rewrite trimmed_lines_app.
  change (trimmed_lines [[]]) with (@nil (list ascii)). rewrite app_nil_r.
  induction Hrows as [|[pid fields] rows [Ht Hpid] _ IH]; [done|].
  cbn [fst snd] in Ht, Hpid.
  destruct (lsof_row_read pid fields Ht Hpid) as (_ & Hne & Hread).
  unfold trimmed_lines in *. cbn [map List.filter snd fst].
  destruct (trim_l (lsof_line fields)) eqn:E; [done|].
  rewrite <- E in *.
  change (omap ?f (?x :: ?l))
    with (match f x with Some y => y :: omap f l | None => omap f l end).
  by rewrite Hread, IH.
Qed.
(** ** The port the server listens on *)




(** ** Backoff *)

Lemma guardian_tick_wf env w :
  registry_wf w -> registry_wf (guardian_tick env w).
Proof.
  intros Hwf.
  destruct (stored_task "" (w_file w)) as [x|] eqn:Hst.
  - by destruct (stored_task_valid "" _ x Hst) as (_ & _ & ?).
  - destruct (guardian_tick_absent env w "" Hst) as (Hwf' & _). by apply Hwf'.
Qed.

(** C5 (backoff).  One tick of the guardian and a task it guards that is
    neither running nor capped, with [restart_interval] the number [n].
    Before the next-attempt time the guardian holds for the task, the tick
    skips it.  Otherwise the tick makes an attempt.  The attempt for a task
    without a start command is counted as failed, and the next-attempt
    time becomes the clock of the tick plus [max(1, n)] seconds.  The
    attempt for a task with a start command is counted as a success as
    soon as the child is spawned, whatever becomes of the child, and no
    next-attempt time is kept: when the child has died, nothing holds the
    next tick back. *)
Theorem guardian_backoff_only_without_command (env : TickEnv) (w : World)
    (k : string) (x : json) (n : Z) :
  registry_wf w ->
  stored_task k (w_file w) = Some x ->
  eligible (guard_config x) = true -> capped x = false ->
  isTaskRunning k w = false ->
  prop "restart_interval" x = Some (JNum n) ->
  let w' := guardian_tick env w in
  let due := default 0%Z (w_guardianState w !! k) in
  if (te_now env <? due)%Z
  then attempts_of k (w_trace w') = attempts_of k (w_trace w)
       /\ w_guardianState w' !! k = w_guardianState w !! k
  else if blank_command x
  then attempts_of k (w_trace w')
       = attempts_of k (w_trace w) ++ [(te_now env, false)]
       /\ w_guardianState w' !! k
          = Some (te_now env + Z.max 1 n * 1000)%Z
  else attempts_of k (w_trace w')
       = attempts_of k (w_trace w) ++ [(te_now env, true)]
       /\ w_guardianState w' !! k = None.
Proof.
  intros Hwf Hst Hel Hcap Hnr Hint w' due. subst w' due.
  destruct (guardian_tick_visits env w k x Hst) as (wa & Hwa & Hend).
  destruct (stored_task_valid k _ x Hst) as (Hobj & Hk & Hne).
  destruct Hwa as (Hwfa & _ & Hga & Hata & Hruna).
  destruct Hend as (_ & _ & Hge & Hate & _).
  assert (isTaskRunning k wa = false) as Hnra.
  { destruct (isTaskRunning k wa) eqn:E; [|done]. by rewrite Hruna in Hnr. }
  assert (id_key x <> "") as Hne' by congruence.
  rewrite Hge, Hate, <- Hga, <- Hata.
  pose proof (guardian_item_outcome env wa x) as Hout.
  destruct (guardian_item_own env wa x Hobj Hne')
    as [(Hat & _ & _ & _ & Hcase)
       |(ok & Hat & _ & _ & _ & Hdue & _ & Hok & Hfail)];
    rewrite ?Hk in *.
  - destruct Hcase as [[Hg Himp]|[_ [Hnel|Hrun]]]; [|congruence|congruence].
    destruct (Himp Hel Hnra) as [Hc|Hlt]; [congruence|].
    apply Z.ltb_lt in Hlt. rewrite Hlt. by rewrite Hat, Hg.
  - apply Z.ltb_ge in Hdue. rewrite Hdue.
    specialize (Hout ok Hobj Hne' Hat). subst ok.
    destruct (blank_command x); cbn [negb] in *.
    + destruct (Hfail eq_refl) as (Hgs & _ & _). split; [done|].
      rewrite Hgs. unfold backoff_ms, guard_config. cbn [gc_interval].
      unfold intervalSec. by rewrite Hint.
    + destruct (Hok eq_refl) as (Hgs & _). done.
Qed.
(** ** A task that has a start command *)

Lemma patch_other_prop fld id patch skip now f k :
  fld <> "status" -> fld <> "runtime_pid" ->
  obj_get "id" patch = None -> k <> trim id ->
  prop fld <$> stored_task k (sr_file (patchProject id patch skip now f))
  = prop fld <$> stored_task k f.
Proof.
  intros Hf1 Hf2 Hpatch Hk.
  destruct (findIndex (fun p => strict_eq_str (prop "id" p) id)
              (readProjectsFile f)) as [idx|] eqn:Hfind.
  - destruct (patch_lands id patch skip now f idx Hpatch Hfind)
      as (o & Hx & Ho & Hkey & _ & Hread).
    unfold stored_task. rewrite Hread. unfold written.
    assert (id_key (JObj (apply_patch patch skip now o)) = trim id) as Hkey'.
    { rewrite <- Hkey. unfold id_key. simpl. by rewrite obj_get_apply_patch_id. }
    pose proof (read_valid f) as Hv.
    rewrite find_key_map.
    + rewrite find_key_insert_other.
      * destruct (List.find _ (readProjectsFile f)) as [x|] eqn:E; [|done].
        apply (stored_task_elem_of k f x) in E as (_ & _ & o' & ->).
        cbn [fmap option_fmap option_map]. f_equal. by apply prop_sanitize.
      * intros x Hx'. rewrite Hx in Hx'. injection Hx' as <-. congruence.
      * congruence.
    + intros p Hp. apply list_elem_of_lookup in Hp as [j Hj].
      destruct (decide (j = idx)) as [->|Hne'].
      * rewrite list_lookup_insert_eq in Hj by (by eapply lookup_lt_Some).
        injection Hj as <-. apply id_key_sanitize; [done|].
        rewrite Hkey', <- Hkey.
        eapply Forall_forall in Hv as [_ ?]; [done|].
        by eapply list_elem_of_lookup_2.
      * rewrite list_lookup_insert_ne in Hj by done.
        eapply Forall_forall in Hv as [? ?];
          [|by eapply list_elem_of_lookup_2].
        by apply id_key_sanitize.
  - unfold patchProject. by rewrite Hfind.
Qed.

(** A patch leaves every property it does not name as it is stored, for
    every task, apart from [updated_date] and the runtime keys. *)
Lemma patch_keeps_prop fld id patch skip now f k :
  fld <> "status" -> fld <> "runtime_pid" -> fld <> "updated_date" ->
  obj_get "id" patch = None -> obj_get fld patch = None ->
  prop fld <$> stored_task k (sr_file (patchProject id patch skip now f))
  = prop fld <$> stored_task k f.
Proof.
  intros Hf1 Hf2 Hf3 Hid Hfld. destruct (decide (k = trim id)) as [->|Hk].
  - destruct (stored_task (trim id) f) as [x|] eqn:Hst.
    + destruct (patch_cases id patch skip now f x Hst Hid)
        as [[_ ->]|(o & -> & Ho & ->)];
        [unfold no_write; cbn [sr_file]; by rewrite Hst|].
      cbn [fmap option_fmap option_map]. f_equal.
      rewrite prop_sanitize by done. cbn [prop]. unfold apply_patch.
      destruct skip.
      * by apply obj_get_spread_other.
      * rewrite obj_get_obj_set.
        assert (String.eqb "updated_date" fld = false) as ->.
        { apply String.eqb_neq. congruence. }
        by apply obj_get_spread_other.
    + rewrite patch_misses_absent by done. unfold no_write. cbn [sr_file].
      by rewrite Hst.
  - by apply patch_other_prop.
Qed.

Lemma guardian_item_keeps_command env w p k :
  prop "start_command" <$> stored_task k (w_file (guardian_item env w p))
  = prop "start_command" <$> stored_task k (w_file w).
Proof.
  destruct (is_object p) eqn:Hobj;
    [|unfold guardian_item; by rewrite Hobj].
  destruct (String.eqb (id_key p) "") eqn:Hne;
    [unfold guardian_item; by rewrite Hobj, Hne|].
  apply String.eqb_neq in Hne.
  destruct (guardian_item_own env w p Hobj Hne)
    as [(_ & -> & _)|(ok & _ & _ & _ & _ & _ & _ & Hok & Hfail)]; [done|].
  destruct ok.
  - destruct (Hok eq_refl) as [_ ->]. by apply patch_keeps_prop.
  - destruct (Hfail eq_refl) as (_ & _ & ->). by apply patch_keeps_prop.
Qed.

Lemma guardian_items_keep_command env k ps : forall w,
  prop "start_command"
    <$> stored_task k (w_file (fold_left (guardian_item env) ps w))
  = prop "start_command" <$> stored_task k (w_file w).
Proof.
  induction ps as [|p ps IH]; intros w; [done|].
  cbn [fold_left]. by rewrite IH, guardian_item_keeps_command.
Qed.

Lemma blank_command_prop p q :
  prop "start_command" p = prop "start_command" q ->
  blank_command p = blank_command q.
Proof. intros H. unfold blank_command. by rewrite H. Qed.

(** What a tick adds to the attempts of a stored task. *)
Lemma guardian_tick_attempts env w k x :
  stored_task k (w_file w) = Some x ->
  attempts_of k (w_trace (guardian_tick env w)) = attempts_of k (w_trace w)
  \/ attempts_of k (w_trace (guardian_tick env w))
     = attempts_of k (w_trace w) ++ [(te_now env, negb (blank_command x))].
Proof.
  intros Hst.
  destruct (guardian_tick_visits env w k x Hst) as (wa & Hwa & Hend).
  destruct (stored_task_valid k _ x Hst) as (Hobj & Hk & Hne).
  destruct Hwa as (_ & _ & _ & Hata & _).
  destruct Hend as (_ & _ & _ & Hate & _).
  assert (id_key x <> "") as Hne' by congruence.
  rewrite Hate, <- Hata.
  pose proof (guardian_item_outcome env wa x) as Hout.
  destruct (guardian_item_own env wa x Hobj Hne')
    as [(Hat & _)|(ok & Hat & _)]; rewrite ?Hk in *.
  - by left.
  - right. by rewrite <- (Hout ok Hobj Hne' Hat).
Qed.

(** In a run of the guardian no attempt for a task that has a start command
    is counted as failed. *)
Lemma command_never_fails steps : forall w k x,
  stored_task k (w_file w) = Some x -> blank_command x = false ->
  exists l,
    attempts_of k (w_trace (guardian_run steps w))
    = attempts_of k (w_trace w) ++ l
    /\ Forall (fun a => snd a = true) l.
Proof.
  induction steps as [|s steps IH]; intros w k x Hst Hcmd.
  - exists []. by rewrite app_nil_r.
  - cbn [guardian_run fold_left]. fold (guardian_run steps (gstep w s)).
    destruct s as [env|ev]; cbn [gstep].
    + pose proof (guardian_items_keep_command env k
                    (readProjectsFile (w_file w)) w) as Hkeep.
      fold (guardian_tick env w) in Hkeep. rewrite Hst in Hkeep.
      destruct (stored_task k (w_file (guardian_tick env w))) as [x'|] eqn:Hst'.
      * cbn in Hkeep. injection Hkeep as Hkeep.
        assert (blank_command x' = false) as Hcmd'.
        { by rewrite (blank_command_prop x' x). }
        destruct (IH _ k x' Hst' Hcmd') as (l & Hl & Hall).
        destruct (guardian_tick_attempts env w k x Hst) as [Ha|Ha].
        -- exists l. by rewrite Hl, Ha.
        -- exists ((te_now env, negb (blank_command x)) :: l).
           rewrite Hl, Ha, <- app_assoc. split; [done|].
           constructor; [by rewrite Hcmd|done].
      * discriminate Hkeep.
    + assert (w_file (step ev w) = w_file w) as Hf by apply step_file.
      destruct (IH (step ev w) k x) as (l & Hl & Hall);
        [by rewrite Hf|done|].
      exists l. by rewrite Hl, step_trace.
Qed.

(** The cap on the attempts the guardian counts as failed, for a task
    stored under the very string the guardian looks it up by: with
    [max_restarts = N > 0] and a [restart_count] that is not negative, no
    run of guardian ticks and child events contains more than [N] attempts
    for the task that the guardian has counted as failed without one it
    has counted as a success in between.  This bounds the record the
    guardian keeps, and that record has failures only for a task without
    a start command: when the task has one, every attempt of the run is
    counted as a success, whatever becomes of the children, and the cap
    never stops the restarts. *)
Theorem guardian_cap_canonical (steps : list GStep) (w : World) (k : string)
    (x : json) (N : Z) :
  stored_task k (w_file w) = Some x ->
  prop "id" x = Some (JStr k) ->
  maxRestarts x = N -> (0 < N)%Z -> (0 <= currentCount x)%Z ->
  exists l,
    attempts_of k (w_trace (guardian_run steps w))
    = attempts_of k (w_trace w) ++ l
    /\ (longest_failure_streak l <= Z.to_nat N)%nat
    /\ (blank_command x = false -> Forall (fun a => snd a = true) l).
Proof.
  intros Hst Hid Hmax HN Hcnt.
  assert (cap_inv k N (attempts_of k (w_trace w)) w []) as Hinv.
  { split; [|split; [by rewrite app_nil_r|cbn; lia]].
    exists x. repeat split; try done. }
  destruct (cap_inv_run k N _ steps w [] HN Hinv) as (l & _ & Ha & Hl).
  exists l. split; [done|]. split; [done|]. intros Hcmd.
  destruct (command_never_fails steps w k x Hst Hcmd) as (l' & Ha' & Hall).
  rewrite Ha in Ha'. by apply app_inv_head in Ha' as ->.
Qed.
End Server.

(** * Worked examples

    The theorems above at concrete stores, with [Date.parse] restricted to
    the time stamps [toISOString] produces. *)

(** A supervisor that has just started on the given store file: nothing
    runs, the guardian holds no state. *)
Definition fresh_world (tasks : list json) : World :=
  mkWorld (Some (JArr tasks)) [] ∅ ∅ [].

(** A tick at clock [t] during which every spawned child gets a pid and
    nothing else happens. *)
Definition quiet_tick (t : Z) (iso : string) : TickEnv :=
  mkTickEnv t iso (fun _ => Some 4242%Z) (fun _ => []).

(** A guarded task whose stored id ends in a space and whose start command
    is blank, so that every restart attempt fails. *)
Definition padded_task : json :=
  JObj [("id", JStr "job "); ("start_command", JStr "");
        ("auto_restart", JBool true);
        ("was_running_before_shutdown", JBool true);
        ("max_restarts", JNum 1); ("restart_interval", JNum 5);
        ("restart_count", JNum 0);
        ("updated_date", JStr "2024-01-01T00:00:00.000Z")].

(** The same task under the id [job]. *)
Definition failing_task : json :=
  JObj [("id", JStr "job"); ("start_command", JStr "");
        ("auto_restart", JBool true);
        ("was_running_before_shutdown", JBool true);
        ("max_restarts", JNum 0); ("restart_interval", JNum 15);
        ("restart_count", JNum 0);
        ("updated_date", JStr "2024-01-01T00:00:00.000Z")].

(** A guarded task that was stopped by hand. *)
Definition stopped_task : json :=
  JObj [("id", JStr "t1"); ("start_command", JStr "node app.js");
        ("auto_restart", JBool true); ("manual_stopped", JBool true);
        ("was_running_before_shutdown", JBool true);
        ("restart_count", JNum 0);
        ("updated_date", JStr "2024-01-01T00:00:00.000Z")].

(** A task that the guardian has failed to restart three times. *)
Definition tired_task : json :=
  JObj [("id", JStr "t1"); ("start_command", JStr "node app.js");
        ("auto_restart", JBool true); ("manual_stopped", JBool false);
        ("was_running_before_shutdown", JBool true);
        ("max_restarts", JNum 5); ("restart_count", JNum 3);
        ("updated_date", JStr "2024-01-01T00:00:00.000Z")].

Definition three_ticks : list GStep :=
  [GTick (quiet_tick 0 "2024-01-02T00:00:00.000Z");
   GTick (quiet_tick 5000 "2024-01-02T00:00:05.000Z");
   GTick (quiet_tick 10000 "2024-01-02T00:00:10.000Z")].

(** C2 at an empty store: a task created with [status] and [runtime_pid]
    in its data is written, and read back, without them. *)
Definition noisy_data : json :=
  JObj [("id", JStr "a"); ("name", JStr "api"); ("status", JStr "running");
        ("runtime_pid", JNum 4242)].

Lemma create_strips_runtime_fields :
  prop "status" (new_project noisy_data "2024-01-02T00:00:00.000Z" "p1")
  = Some (JStr "running")
  /\ map (fun p => (prop "id" p, prop "status" p, prop "runtime_pid" p))
         (readProjectsFile iso_parse
            (sr_file (store_run iso_parse
                        [OpCreate noisy_data "2024-01-02T00:00:00.000Z" "p1"]
                        None)))
     = [(Some (JStr "a"), None, None)].
Proof. vm_compute. done. Qed.

(** C4, failing input: with [max_restarts = 1] the task stored under the id
    [job ] is attempted, and fails, at three ticks in a row; its stored
    [restart_count] is still 0 afterwards. *)
Lemma guardian_cap_exceeded :
  maxRestarts padded_task = 1
  /\ attempts_of "job"
       (w_trace (guardian_run iso_parse three_ticks (fresh_world [padded_task])))
     = [(0, false); (5000, false); (10000, false)]
  /\ longest_failure_streak
       (attempts_of "job"
          (w_trace (guardian_run iso_parse three_ticks
                      (fresh_world [padded_task])))) = 3%nat
  /\ stored_task iso_parse "job"
       (w_file (guardian_run iso_parse three_ticks (fresh_world [padded_task])))
     = Some padded_task.
Proof. vm_compute. done. Qed.

Lemma guardian_never_counts_unpatched_witness :
  task_view
    <$> stored_task iso_parse "job"
          (w_file (guardian_run iso_parse three_ticks (fresh_world [padded_task])))
  = Some (task_view padded_task).
Proof.
  apply (guardian_never_counts_unpatched iso_parse three_ticks
           (fresh_world [padded_task]) "job" padded_task).
  - vm_compute. reflexivity.
  - vm_compute. discriminate.
Defined.

(** The same task under the id [job], capped at one restart. *)
Definition capped_task : json :=
  JObj [("id", JStr "job"); ("start_command", JStr "");
        ("auto_restart", JBool true);
        ("was_running_before_shutdown", JBool true);
        ("max_restarts", JNum 1); ("restart_interval", JNum 5);
        ("restart_count", JNum 0);
        ("updated_date", JStr "2024-01-01T00:00:00.000Z")].

(** A guarded task whose command starts and exits with code 1 at once. *)
Definition dying_task : json :=
  JObj [("id", JStr "svc"); ("start_command", JStr "exit 1");
        ("auto_restart", JBool true); ("manual_stopped", JBool false);
        ("was_running_before_shutdown", JBool true);
        ("max_restarts", JNum 5); ("restart_interval", JNum 15);
        ("restart_count", JNum 0);
        ("updated_date", JStr "2024-01-01T00:00:00.000Z")].

(** Three ticks five seconds apart; the child each of them spawns exits
    with code 1 before the next. *)
Definition dying_run : list GStep :=
  [GTick (quiet_tick 0 "2024-01-02T00:00:00.000Z");
   GEvent (EvExit 0 (Exited 1));
   GTick (quiet_tick 5000 "2024-01-02T00:00:05.000Z");
   GEvent (EvExit 1 (Exited 1));
   GTick (quiet_tick 10000 "2024-01-02T00:00:10.000Z");
   GEvent (EvExit 2 (Exited 1))].

(** The same command with [max_restarts = 1]. *)
Definition fragile_task : json :=
  JObj [("id", JStr "svc"); ("start_command", JStr "exit 1");
        ("auto_restart", JBool true); ("manual_stopped", JBool false);
        ("was_running_before_shutdown", JBool true);
        ("max_restarts", JNum 1); ("restart_interval", JNum 15);
        ("restart_count", JNum 0);
        ("updated_date", JStr "2024-01-01T00:00:00.000Z")].

(** The task without a command is attempted once and then capped; the
    command that dies is started at every tick, cap or no cap. *)
Lemma guardian_cap_canonical_witness :
  attempts_of "job"
    (w_trace (guardian_run iso_parse three_ticks (fresh_world [capped_task])))
  = [(0, false)]
  /\ (longest_failure_streak
        (attempts_of "job"
           (w_trace (guardian_run iso_parse three_ticks
                       (fresh_world [capped_task]))))
      <= 1)%nat
  /\ attempts_of "svc"
       (w_trace (guardian_run iso_parse dying_run (fresh_world [fragile_task])))
     = [(0, true); (5000, true); (10000, true)]
  /\ Forall (fun a => snd a = true)
        (attempts_of "svc"
           (w_trace (guardian_run iso_parse dying_run
                       (fresh_world [fragile_task])))).
Proof.
  destruct (guardian_cap_canonical iso_parse three_ticks
              (fresh_world [capped_task]) "job" capped_task 1)
    as (l & Ha & Hl & _).
  - vm_compute. reflexivity.
  - vm_compute. reflexivity.
  - vm_compute. reflexivity.
  - lia.
  - vm_compute. discriminate.
  - destruct (guardian_cap_canonical iso_parse dying_run
                (fresh_world [fragile_task]) "svc" fragile_task 1)
      as (l' & Ha' & _ & Hall).
    + vm_compute. reflexivity.
    + vm_compute. reflexivity.
    + vm_compute. reflexivity.
    + lia.
    + vm_compute. discriminate.
    + split; [vm_compute; reflexivity|].
      split; [rewrite Ha; exact Hl|].
      split; [vm_compute; reflexivity|].
      rewrite Ha'. apply Hall. vm_compute. reflexivity.
Defined.

Lemma guardian_unlimited_witness :
  exists ok,
    attempts_of "job"
      (w_trace (guardian_item iso_parse
                  (quiet_tick 0 "2024-01-02T00:00:00.000Z")
                  (fresh_world [failing_task]) failing_task))
    = [(0, ok)].
Proof.
  destruct (guardian_unlimited iso_parse
              (quiet_tick 0 "2024-01-02T00:00:00.000Z")
              (fresh_world [failing_task]) failing_task)
    as [ok Hok].
  - reflexivity.
  - vm_compute. discriminate.
  - reflexivity.
  - reflexivity.
  - reflexivity.
  - vm_compute. discriminate.
  - exists ok. exact Hok.
Defined.

(** C3 at a store with one task stopped by hand: three ticks, no attempt. *)
Lemma guardian_respects_manual_stop_witness :
  attempts_of "t1"
    (w_trace (guardian_run iso_parse three_ticks (fresh_world [stopped_task])))
  = [].
Proof.
  exact (guardian_respects_manual_stop iso_parse three_ticks
           (fresh_world [stopped_task]) "t1" stopped_task eq_refl eq_refl).
Defined.

(** C5, failing input: with [restart_interval = 15] the command that exits
    with code 1 is started at three ticks in a row, five seconds apart.
    Each of the three children has exited with code 1, the guardian has
    counted every attempt as a success, it holds no next-attempt time, and
    the stored [restart_count] is 0. *)
Lemma guardian_retries_every_tick :
  intervalSec dying_task = 15
  /\ attempts_of "svc"
       (w_trace (guardian_run iso_parse dying_run (fresh_world [dying_task])))
     = [(0, true); (5000, true); (10000, true)]
  /\ map (fun p => (p_id p, exitCode (p_child p)))
         (w_heap (guardian_run iso_parse dying_run (fresh_world [dying_task])))
     = [("svc", Some 1); ("svc", Some 1); ("svc", Some 1)]
  /\ w_guardianState
       (guardian_run iso_parse dying_run (fresh_world [dying_task]))
     !! "svc" = None
  /\ prop "restart_count"
       <$> stored_task iso_parse "svc"
             (w_file (guardian_run iso_parse dying_run
                        (fresh_world [dying_task])))
     = Some (Some (JNum 0)).
Proof. vm_compute. done. Qed.

(** C5 at the second of these ticks: the child of the first has exited,
    no next-attempt time is held, and the command is started again. *)
Definition after_first_exit : World :=
  step (EvExit 0 (Exited 1))
       (guardian_tick iso_parse (quiet_tick 0 "2024-01-02T00:00:00.000Z")
                      (fresh_world [dying_task])).

Lemma guardian_backoff_only_without_command_witness :
  attempts_of "svc"
    (w_trace (guardian_tick iso_parse
                (quiet_tick 5000 "2024-01-02T00:00:05.000Z") after_first_exit))
  = [(0, true); (5000, true)]
  /\ w_guardianState
       (guardian_tick iso_parse
          (quiet_tick 5000 "2024-01-02T00:00:05.000Z") after_first_exit)
     !! "svc" = None.
Proof.
  pose proof (guardian_backoff_only_without_command iso_parse
                (quiet_tick 5000 "2024-01-02T00:00:05.000Z") after_first_exit
                "svc"
                (default JNull
                   (stored_task iso_parse "svc" (w_file after_first_exit)))
                15) as H.
  cbn zeta in H. apply H.
  - apply step_wf, guardian_tick_wf. intros id e He.
    unfold fresh_world in He. cbn [w_processes] in He.
    by rewrite lookup_empty in He.
  - vm_compute. reflexivity.
  - vm_compute. reflexivity.
  - vm_compute. reflexivity.
  - vm_compute. reflexivity.
  - vm_compute. reflexivity.
Defined.

(** C6, failing input: a failed attempt of the guardian changes only
    [restart_count] of the task, and its [updated_date] moves from the
    first to the second of January all the same. *)
Lemma guardian_moves_updated_date :
  prop "updated_date" failing_task = Some (JStr "2024-01-01T00:00:00.000Z")
  /\ stored_task iso_parse "job"
       (w_file (guardian_tick iso_parse
                  (quiet_tick 0 "2024-01-02T00:00:00.000Z")
                  (fresh_world [failing_task])))
     = Some (JObj [("id", JStr "job"); ("start_command", JStr "");
                   ("auto_restart", JBool true);
                   ("was_running_before_shutdown", JBool true);
                   ("max_restarts", JNum 0); ("restart_interval", JNum 15);
                   ("restart_count", JNum 1);
                   ("updated_date", JStr "2024-01-02T00:00:00.000Z")]).
Proof. vm_compute. done. Qed.

Lemma guardian_bookkeeping_sets_updated_date_witness :
  prop "updated_date"
    <$> stored_task iso_parse "job"
          (w_file (guardian_tick iso_parse
                     (quiet_tick 0 "2024-01-02T00:00:00.000Z")
                     (fresh_world [failing_task])))
  = Some (Some (JStr "2024-01-02T00:00:00.000Z")).
Proof.
  apply (guardian_bookkeeping_sets_updated_date iso_parse
           (quiet_tick 0 "2024-01-02T00:00:00.000Z")
           (fresh_world [failing_task]) "job" failing_task false).
  - vm_compute. reflexivity.
  - reflexivity.
  - vm_compute. reflexivity.
Defined.

(** The task [t1] started by a request, with one line printed since. *)
Definition start_t1 : StartBody :=
  mkStartBody (Some "t1") (Some "node app.js") None.

Definition running_world : World :=
  run_events [EvStdout 0 "listening"]
    (fst (api_start iso_parse start_t1 (Some 4242%Z)
            "2024-01-03T00:00:00.000Z" (fresh_world [tired_task]))).

(** C8, failing input: the request to clear the logs of the running task
    [t1] is answered 404, and the line is still there when the logs are
    read, as is a line printed after the request. *)
Lemma clear_logs_example :
  serve iso_parse false DELETE ["api"; "projects"; "logs"; "t1"] JNull
        "2024-01-03T00:00:01.000Z" "p1" running_world
  = Some (running_world, mkResp 404 JNull)
  /\ api_logs "t1" running_world = mkResp 200 (logs_json ["listening"] [])
  /\ api_logs "t1" (step (EvStdout 0 "ready") running_world)
     = mkResp 200 (logs_json ["listening"; "ready"] []).
Proof. vm_compute. done. Qed.

Lemma clear_logs_not_served_witness :
  serve iso_parse true DELETE ["api"; "projects"; "logs"; "t1"] JNull
        "2024-01-03T00:00:01.000Z" "p1" running_world
  = Some (running_world, mkResp 404 JNull)
  /\ serve iso_parse true GET ["api"; "projects"; "logs"; "t1"] JNull
           "2024-01-03T00:00:01.000Z" "p1" running_world
     = Some (running_world, api_logs "t1" running_world).
Proof.
  apply (clear_logs_not_served iso_parse true "t1" JNull
           "2024-01-03T00:00:01.000Z" "p1" running_world).
  discriminate.
Defined.

(** C9, counterexample: the start request for [t1] is answered [ok:true]
    when its timer fires, and the stored [restart_count] is 3 as before. *)
Lemma start_keeps_restart_count :
  prop "restart_count" tired_task = Some (JNum 3)
  /\ response_of 0 (run_events [EvTimer 0] running_world)
     = Some (ok_response (mkChild (Some 4242) None false))
  /\ prop "restart_count"
       <$> stored_task iso_parse "t1"
             (w_file (run_events [EvTimer 0] running_world))
     = Some (Some (JNum 3)).
Proof. vm_compute. done. Qed.

(** The dashboard's flow for [t1]: the start request is answered when the
    timer fires, and the first status poll sees the task running. *)
Definition smooth_start : StartFlowEnv :=
  mkStartFlowEnv "2024-01-03T00:00:00.000Z" (Some 4242%Z)
                 "2024-01-03T00:00:00.100Z" [EvTimer 0]
                 (mkStopEnv false [] [] (StopExited (Some 0%Z) None)) []
                 "2024-01-03T00:00:02.200Z" "2024-01-03T00:00:02.300Z".

Lemma restart_count_writers_witness :
  snd (handleStart iso_parse tired_task smooth_start (fresh_world [tired_task]))
  = Started
  /\ prop "restart_count"
       <$> stored_task iso_parse "t1"
             (w_file (fst (handleStart iso_parse tired_task smooth_start
                             (fresh_world [tired_task]))))
     = Some (Some (JNum 0))
  /\ prop "restart_count"
       <$> stored_task iso_parse "t1" (w_file running_world)
     = Some (Some (JNum 3)).
Proof.
  destruct (restart_count_writers iso_parse) as (Hstart & Hflow & _).
  split; [vm_compute; reflexivity|]. split.
  - eapply (Hflow tired_task smooth_start (fresh_world [tired_task]) _ "t1").
    + vm_compute. reflexivity.
    + reflexivity.
    + vm_compute. reflexivity.
    + reflexivity.
  - unfold running_world. rewrite Hstart. vm_compute. reflexivity.
Defined.




(** ** More worked examples *)

Lemma start_logs_fresh_witness :
  api_logs "t1"
    (run_events [EvStdout 0 "listening"; EvStderr 0 "warning";
                 EvStdout 7 "other"]
       (fst (api_start iso_parse
               (mkStartBody (Some "t1") (Some "node app.js") None)
               (Some 4242%Z) "2024-01-03T00:00:00.000Z"
               (fresh_world [tired_task]))))
  = mkResp 200 (logs_json ["listening"] ["warning"]).
Proof.
  rewrite (start_logs_fresh iso_parse (fresh_world [tired_task]) "t1"
             "node app.js" None (Some 4242%Z) "2024-01-03T00:00:00.000Z")
    by discriminate.
  reflexivity.
Defined.

Lemma start_answered_once_witness :
  response_of 0
    (run_events ([EvStdout 0 "boot"] ++ [EvTimer 0] ++ [EvExit 0 (Exited 0)])
       (fst (api_start iso_parse
               (mkStartBody (Some "t1") (Some "node app.js") None)
               (Some 4242%Z) "2024-01-03T00:00:00.000Z"
               (fresh_world [tired_task]))))
  = Some (ok_response (mkChild (Some 4242%Z) None false)).
Proof.
  destruct (start_answered_once iso_parse (fresh_world [tired_task]) "t1"
              "node app.js" None (Some 4242%Z) "2024-01-03T00:00:00.000Z"
              [EvStdout 0 "boot"] [EvExit 0 (Exited 0)])
    as (resp & H1 & _ & H3); [discriminate..|].
  cbn [fresh_world w_heap length] in H1, H3.
  rewrite H3, <- H1. vm_compute. reflexivity.
Defined.

(** The child of [t1] is ended by a signal; three ticks follow. *)
Definition killed_then_ticks : list GStep :=
  GEvent (EvExit 0 (Signaled "SIGKILL")) :: three_ticks.

Lemma guardian_leaves_running_alone_witness :
  prop "running"
    (r_body (api_status "t1"
               (guardian_run iso_parse killed_then_ticks running_world)))
  = Some (JBool true)
  /\ attempts_of "t1"
       (w_trace (guardian_run iso_parse killed_then_ticks running_world))
     = attempts_of "t1" (w_trace running_world).
Proof.
  apply (guardian_leaves_running_alone iso_parse killed_then_ticks
           running_world "t1").
  - vm_compute. reflexivity.
  - reflexivity.
Defined.

Definition second_task_data : json :=
  JObj [("id", JStr "t2"); ("name", JStr "worker");
        ("start_command", JStr "node worker.js")].

Lemma create_then_list_witness :
  snd (api_create iso_parse second_task_data "2024-01-03T00:00:00.000Z"
                  "proj_x" (Some (JArr [tired_task])))
  = mkResp 200 (new_project second_task_data "2024-01-03T00:00:00.000Z"
                            "proj_x")
  /\ readProjectsFile iso_parse
       (sr_file (fst (api_create iso_parse second_task_data
                        "2024-01-03T00:00:00.000Z" "proj_x"
                        (Some (JArr [tired_task])))))
     = written (readProjectsFile iso_parse (Some (JArr [tired_task])))
       ++ [sanitize (new_project second_task_data
                       "2024-01-03T00:00:00.000Z" "proj_x")].
Proof.
  apply (create_then_list iso_parse second_task_data
           "2024-01-03T00:00:00.000Z" "proj_x" (Some (JArr [tired_task]))).
  - vm_compute. discriminate.
  - vm_compute. intros H. apply list_elem_of_singleton in H. discriminate H.
Defined.

Definition rename_data : json := JObj [("name", JStr "renamed")].

Lemma update_replaces_one_witness :
  readProjectsFile iso_parse
    (sr_file (fst (api_update iso_parse "t1" rename_data
                     "2024-01-03T00:00:00.000Z" (Some (JArr [tired_task])))))
  = [JObj [("id", JStr "t1"); ("start_command", JStr "node app.js");
           ("auto_restart", JBool true); ("manual_stopped", JBool false);
           ("was_running_before_shutdown", JBool true);
           ("max_restarts", JNum 5); ("restart_count", JNum 3);
           ("updated_date", JStr "2024-01-03T00:00:00.000Z");
           ("name", JStr "renamed")]].
Proof.
  destruct (update_replaces_one iso_parse "t1" rename_data
              "2024-01-03T00:00:00.000Z" (Some (JArr [tired_task])))
    as [[Hnone _]|(idx & o & _ & _ & _ & H)]; [reflexivity|..].
  - exfalso. apply (Hnone tired_task); [|reflexivity].
    assert (readProjectsFile iso_parse (Some (JArr [tired_task]))
            = [tired_task]) as -> by (vm_compute; reflexivity).
    by left.
  - vm_compute. reflexivity.
Defined.

(** A task that has run but is not guarded. *)
Definition unguarded_task : json :=
  JObj [("id", JStr "t3"); ("start_command", JStr "node app.js");
        ("auto_restart", JBool false);
        ("was_running_before_shutdown", JBool true);
        ("updated_date", JStr "2024-01-01T00:00:00.000Z")].

Lemma guardian_skips_unguarded_witness :
  attempts_of "t3"
    (w_trace (guardian_run iso_parse three_ticks (fresh_world [unguarded_task])))
  = [].
Proof.
  exact (guardian_skips_unguarded iso_parse three_ticks
           (fresh_world [unguarded_task]) "t3" unguarded_task eq_refl
           (or_introl eq_refl)).
Defined.

Lemma guardian_attempt_outcome_witness :
  attempts_of "t1"
    (w_trace (guardian_tick iso_parse
                (quiet_tick 0 "2024-01-02T00:00:00.000Z")
                (fresh_world [tired_task])))
  = [(0, true)]
  /\ true = negb (blank_command tired_task).
Proof.
  split; [vm_compute; reflexivity|].
  apply (guardian_attempt_outcome iso_parse
           (quiet_tick 0 "2024-01-02T00:00:00.000Z")
           (fresh_world [tired_task]) "t1" tired_task true).
  - vm_compute. reflexivity.
  - vm_compute. reflexivity.
Defined.

Definition quiet_stop : StopEnv :=
  mkStopEnv false [] [] (StopExited (Some 0%Z) None).

(** The world after the dashboard has stopped [t1]. *)
Definition stopped_world : World :=
  match handleStop iso_parse tired_task quiet_stop "2024-01-03T00:00:05.000Z"
                   running_world with
  | Some (w, _) => w
  | None => running_world
  end.

(** The child of [t1] exits after the stop; three ticks follow. *)
Definition exit_then_ticks : list GStep :=
  GEvent (EvExit 0 (Exited 143)) :: three_ticks.

Lemma dashboard_stop_holds_guardian_witness :
  prop "manual_stopped"
    <$> stored_task iso_parse "t1" (w_file stopped_world)
  = Some (Some (JBool true))
  /\ attempts_of "t1"
       (w_trace (guardian_run iso_parse exit_then_ticks stopped_world))
     = attempts_of "t1" (w_trace stopped_world).
Proof.
  apply (dashboard_stop_holds_guardian iso_parse tired_task quiet_stop
           "2024-01-03T00:00:05.000Z" running_world stopped_world "t1"
           [("id", JStr "t1"); ("start_command", JStr "node app.js");
            ("auto_restart", JBool true); ("manual_stopped", JBool false);
            ("was_running_before_shutdown", JBool true);
            ("max_restarts", JNum 5); ("restart_count", JNum 3);
            ("updated_date", JStr "2024-01-03T00:00:00.000Z")]
           exit_then_ticks).
  - vm_compute. reflexivity.
  - reflexivity.
  - vm_compute. reflexivity.
  - reflexivity.
Defined.

Definition smooth_restart : RestartFlowEnv :=
  mkRestartFlowEnv quiet_stop [] smooth_start.

Definition restarted_world : World :=
  match handleRestart iso_parse tired_task smooth_restart
                      (fresh_world [tired_task]) with
  | Some (w, _) => w
  | None => fresh_world [tired_task]
  end.

Lemma dashboard_restart_resets_count_witness :
  prop "restart_count"
    <$> stored_task iso_parse "t1" (w_file restarted_world)
  = Some (Some (JNum 0))
  /\ prop "manual_stopped"
       <$> stored_task iso_parse "t1" (w_file restarted_world)
     = Some (Some (JBool false)).
Proof.
  apply (dashboard_restart_resets_count iso_parse tired_task smooth_restart
           (fresh_world [tired_task]) restarted_world "t1"
           [("id", JStr "t1"); ("start_command", JStr "node app.js");
            ("auto_restart", JBool true); ("manual_stopped", JBool false);
            ("was_running_before_shutdown", JBool true);
            ("max_restarts", JNum 5); ("restart_count", JNum 3);
            ("updated_date", JStr "2024-01-01T00:00:00.000Z")]).
  - vm_compute. reflexivity.
  - reflexivity.
  - vm_compute. reflexivity.
  - reflexivity.
Defined.

(** A line of [tasklist /FO CSV]. *)
Definition tasklist_fields : list string :=
  ["node.exe"; "1234"; "Console"; "1"; "12,345 K"].

Lemma csv_columns_of_quoted_line_witness :
  csv_columns (csv_line tasklist_fields) = tasklist_fields
  /\ task_image (csv_line tasklist_fields) = Some (1234%Z, "node.exe").
Proof.
  destruct (csv_columns_of_quoted_line tasklist_fields) as [H1 H2].
  - discriminate.
  - by apply quote_free_spec.
  - split; [exact H1|]. by apply (H2 "node.exe" 1234%Z ["Console"; "1"; "12,345 K"]).
Defined.

Lemma restart_reuses_command_witness :
  restart_command (mkStartBody (Some "t1") None None)
    (run_events [EvExit 0 (Exited 1)]
       (fst (api_start iso_parse
               (mkStartBody (Some "t1") (Some "node app.js") None)
               (Some 4242%Z) "2024-01-03T00:00:00.000Z"
               (fresh_world [tired_task]))))
  = inr "node app.js".
Proof.
  apply (restart_reuses_command iso_parse (fresh_world [tired_task]) "t1"
           "node app.js" None None (Some 4242%Z) "2024-01-03T00:00:00.000Z"
           [EvExit 0 (Exited 1)]); discriminate.
Defined.

(** A guarded task that has never run and whose command fails. *)
Definition broken_task : json :=
  JObj [("id", JStr "t4"); ("start_command", JStr "exit 1");
        ("auto_restart", JBool true);
        ("was_running_before_shutdown", JBool false);
        ("updated_date", JStr "2024-01-01T00:00:00.000Z")].

Lemma start_marks_was_running_witness :
  prop "was_running_before_shutdown"
    <$> stored_task iso_parse "t4"
          (w_file (run_events [EvExit 0 (Exited 1)]
                     (fst (api_start iso_parse
                             (mkStartBody (Some "t4") (Some "exit 1") None)
                             (Some 4242%Z) "2024-01-03T00:00:00.000Z"
                             (fresh_world [broken_task])))))
  = Some (Some (JBool true)).
Proof.
  apply (start_marks_was_running iso_parse (fresh_world [broken_task]) "t4"
           "exit 1" None (Some 4242%Z) "2024-01-03T00:00:00.000Z"
           [EvExit 0 (Exited 1)]
           [("id", JStr "t4"); ("start_command", JStr "exit 1");
            ("auto_restart", JBool true);
            ("was_running_before_shutdown", JBool false);
            ("updated_date", JStr "2024-01-01T00:00:00.000Z")]);
    first [discriminate | vm_compute; reflexivity | reflexivity].
Defined.

Lemma start_status_follows_new_child_witness :
  prop "running"
    (r_body (api_status "t1"
               (run_events [EvExit 0 (Exited 143)]
                  (fst (api_start iso_parse
                          (mkStartBody (Some "t1") (Some "node app.js") None)
                          (Some 4343%Z) "2024-01-03T00:01:00.000Z"
                          running_world)))))
  = Some (JBool true).
Proof.
  apply (start_status_follows_new_child iso_parse running_world "t1"
           "node app.js" None (Some 4343%Z) "2024-01-03T00:01:00.000Z"
           [EvExit 0 (Exited 143)]); try discriminate.
  repeat constructor. vm_compute. discriminate.
Defined.

(** Three processes as [ps] lists them. *)
Definition ps_rows : list (nat * Z * string) :=
  [(2%nat, 812%Z, "node server.js");
   (1%nat, 4242%Z, "/usr/bin/python3 app.py");
   (3%nat, 77%Z, "NODE --inspect worker.js")].

Lemma search_finds_listed_witness :
  search_unix ascii_lower (Some (JStr " Node ")) (ps_output ps_rows)
  = [JObj [("pid", JNum 812); ("command", JStr "node server.js")];
     JObj [("pid", JNum 77); ("command", JStr "NODE --inspect worker.js")]].
Proof.
  rewrite (search_finds_listed ascii_lower (Some (JStr " Node ")) ps_rows).
  - vm_compute. reflexivity.
  - vm_compute. discriminate.
  - repeat constructor; vm_compute; discriminate.
Defined.

(** A line of [lsof -n -P -i :3000]. *)
Definition lsof_rows : list (Z * list (nat * string)) :=
  [(4242%Z,
    [(0%nat, "node"); (4%nat, "4242"); (1%nat, "me"); (2%nat, "23u");
     (1%nat, "IPv4"); (1%nat, "0x1f"); (1%nat, "0t0"); (1%nat, "TCP");
     (0%nat, "*:3000"); (0%nat, "(LISTEN)")])].

Lemma by_port_lists_holders_witness :
  by_port_unix "3000"
    (lsof_output "COMMAND PID USER FD TYPE DEVICE SIZE/OFF NODE NAME"
                 (map snd lsof_rows))
  = mkResp 200 (JArr [JObj [("pid", JNum 4242); ("command", JStr "node");
                            ("name", JStr "(LISTEN)")]]).
Proof.
  rewrite (by_port_lists_holders "3000"
             "COMMAND PID USER FD TYPE DEVICE SIZE/OFF NODE NAME" lsof_rows).
  - reflexivity.
  - vm_compute. by eexists.
  - reflexivity.
  - repeat constructor.
Defined.

(** A stop request for a task that is not running, with a stop command:
    the command is run, and its output is the answer. *)
Lemma stop_runs_stop_command :
  api_stop (mkStopBody (Some "t1") (Some "echo bye"))
           (mkStopEnv false ["bye"] [] (StopExited (Some 0%Z) None))
           (fresh_world [tired_task])
  = (log (ASpawnStop "echo bye") (fresh_world [tired_task]),
     mkResp 200 (JObj [("ok", JBool true); ("exitCode", JNum 0);
                       ("signal", JNull);
                       ("logs", logs_json ["bye"] [])])).
Proof. vm_compute. done. Qed.
